(** * oscar.models.fields.decimal: identifier, money and quantity fields

    A shallow embedding of [src/oscar/models/fields/decimal.py] together
    with the parts of Python's [decimal] module and of Django's model and
    form fields that the module calls into, followed by the properties
    proved about it. *)

From Stdlib Require Import ZArith Bool Lia Ascii.
From stdpp Require Import base option list strings gmap.

Local Open Scope Z_scope.

(** ** Python values and exceptions *)

Module Py.

(** The interpreter line: the two lines of Python differ in how a [str] is
    ordered against an [int]. *)
Inductive Version := Python2 | Python3.

(** Exceptions.  [ValueError] carries its message, because the module
    builds the message itself; the errors that come out of the standard
    library are told apart by their class only. *)
Inductive exn :=
| ValueError (msg : string)
| TypeError
| IndexError
| AttributeError
| AssertionError
| ValidationError
| InvalidOperation
| DivisionByZero
| Overflow.

Inductive result (A : Type) :=
| Ok (a : A)
| Raise (e : exn).
Arguments Ok {A} a.
Arguments Raise {A} e.

Definition bind {A B} (r : result A) (k : A -> result B) : result B :=
  match r with
  | Ok a => k a
  | Raise e => Raise e
  end.

End Py.

Import Py.

Notation "x <- r ;; k" := (Py.bind r (fun x => k))
  (at level 100, r at next level, right associativity).

(** ** Python's [decimal] module *)

Module decimal.

Inductive digit := d0 | d1 | d2 | d3 | d4 | d5 | d6 | d7 | d8 | d9.

#[global] Instance digit_eq_dec : EqDecision digit.
Proof. solve_decision. Defined.

Definition digit_to_Z (d : digit) : Z :=
  match d with
  | d0 => 0 | d1 => 1 | d2 => 2 | d3 => 3 | d4 => 4
  | d5 => 5 | d6 => 6 | d7 => 7 | d8 => 8 | d9 => 9
  end.

(** The digit of a residue modulo ten. *)
Definition digit_of_Z (z : Z) : digit :=
  match z with
  | 0 => d0 | 1 => d1 | 2 => d2 | 3 => d3 | 4 => d4
  | 5 => d5 | 6 => d6 | 7 => d7 | 8 => d8 | _ => d9
  end.

Definition digit_char (d : digit) : ascii :=
  match d with
  | d0 => "0" | d1 => "1" | d2 => "2" | d3 => "3" | d4 => "4"
  | d5 => "5" | d6 => "6" | d7 => "7" | d8 => "8" | d9 => "9"
  end%char.

Definition digit_of_char (c : ascii) : option digit :=
  match c with
  | "0" => Some d0 | "1" => Some d1 | "2" => Some d2 | "3" => Some d3
  | "4" => Some d4 | "5" => Some d5 | "6" => Some d6 | "7" => Some d7
  | "8" => Some d8 | "9" => Some d9 | _ => None
  end%char.

(** [int(s)] for a string of digits [s]. *)
Definition int_of_digits (ds : list digit) : Z :=
  fold_left (fun acc d => 10 * acc + digit_to_Z d) ds 0.

Fixpoint digits_of_int_go (fuel : nat) (z : Z) (acc : list digit) : list digit :=
  match fuel with
  | O => acc
  | S fuel' =>
      let acc' := digit_of_Z (z mod 10) :: acc in
      if z / 10 =? 0 then acc' else digits_of_int_go fuel' (z / 10) acc'
  end.

(** [str(z)] for an integer [z >= 0]; a number below [2^k] has at most [k]
    decimal digits. *)
Definition digits_of_int (z : Z) : list digit :=
  digits_of_int_go (S (Z.to_nat (Z.log2 z))) z [].

(** [map(str, ds)] joined. *)
Fixpoint string_of_digits (ds : list digit) : string :=
  match ds with
  | [] => EmptyString
  | d :: ds' => String (digit_char d) (string_of_digits ds')
  end.

Fixpoint lstrip0 (ds : list digit) : list digit :=
  match ds with
  | d0 :: ds' => lstrip0 ds'
  | _ => ds
  end.

(** The [_exp] attribute: an integer, or one of the letters ['F'], ['n'],
    ['N'] for an infinity, a quiet and a signaling NaN. *)
Inductive exponent :=
| ExpInt (e : Z)
| ExpF
| Expn
| ExpN.

(** [Decimal]: the attributes [_sign], [_int] and [_exp] ([_is_special]
    holds exactly when [_exp] is a letter). *)
Record Decimal := mkDecimal {
  _sign : bool;
  _int : list digit;
  _exp : exponent
}.

Definition _is_special (d : Decimal) : bool :=
  match _exp d with ExpInt _ => false | _ => true end.

(** [Decimal.__bool__]. *)
Definition nonzero (d : Decimal) : bool :=
  _is_special d || negb (bool_decide (_int d = [d0])).

Inductive Rounding :=
| ROUND_DOWN | ROUND_HALF_UP | ROUND_HALF_EVEN | ROUND_CEILING
| ROUND_FLOOR | ROUND_UP | ROUND_HALF_DOWN | ROUND_05UP.

(** The arithmetic context.  The traps are those of [DefaultContext]
    ([InvalidOperation], [DivisionByZero] and [Overflow] raise, the other
    signals only set a flag) and [clamp] is 0. *)
Record Context := mkContext {
  prec : Z;
  rounding : Rounding;
  Emin : Z;
  Emax : Z;
  capitals : bool
}.

(** The default context of Python 3; that of Python 2 has
    [Emin = -999999999] and [Emax = 999999999]. *)
Definition DefaultContext : Context :=
  {| prec := 28; rounding := ROUND_HALF_EVEN;
     Emin := -999999; Emax := 999999; capitals := true |}.

Definition Etiny (c : Context) : Z := Emin c - prec c + 1.
Definition Etop (c : Context) : Z := Emax c - prec c + 1.

Definition len {A} (l : list A) : Z := Z.of_nat (length l).

(** [s[i]] for [0 <= i]. *)
Definition index (ds : list digit) (i : Z) : result digit :=
  if i <? 0 then Raise IndexError
  else match ds !! Z.to_nat i with
       | Some d => Ok d
       | None => Raise IndexError
       end.

(** [s[:n]] and [s[n:]] for [0 <= n]. *)
Definition upto {A} (l : list A) (n : Z) : list A := take (Z.to_nat n) l.
Definition from {A} (l : list A) (n : Z) : list A := drop (Z.to_nat n) l.

(** [_all_zeros] and [_exact_half]: the patterns [0*$] and [50*$] matched
    at position [prec]. *)
Definition _all_zeros (ds : list digit) (p : Z) : bool :=
  forallb (fun d => bool_decide (d = d0)) (from ds p).

Definition _exact_half (ds : list digit) (p : Z) : bool :=
  match from ds p with
  | d5 :: rest => forallb (fun d => bool_decide (d = d0)) rest
  | _ => false
  end.

Definition _round_down (self : Decimal) (p : Z) : result Z :=
  Ok (if _all_zeros (_int self) p then 0 else -1).

Definition _round_up (self : Decimal) (p : Z) : result Z :=
  r <- _round_down self p ;; Ok (- r).

Definition _round_half_up (self : Decimal) (p : Z) : result Z :=
  d <- index (_int self) p ;;
  if 5 <=? digit_to_Z d then Ok 1
  else if _all_zeros (_int self) p then Ok 0
  else Ok (-1).

Definition _round_half_down (self : Decimal) (p : Z) : result Z :=
  if _exact_half (_int self) p then Ok (-1) else _round_half_up self p.

Definition _round_half_even (self : Decimal) (p : Z) : result Z :=
  if _exact_half (_int self) p then
    if p =? 0 then Ok (-1)
    else
      d <- index (_int self) (p - 1) ;;
      if Z.even (digit_to_Z d) then Ok (-1) else _round_half_up self p
  else _round_half_up self p.

Definition _round_ceiling (self : Decimal) (p : Z) : result Z :=
  if _sign self then _round_down self p else _round_up self p.

Definition _round_floor (self : Decimal) (p : Z) : result Z :=
  if negb (_sign self) then _round_down self p else _round_up self p.

Definition _round_05up (self : Decimal) (p : Z) : result Z :=
  if p =? 0 then _round_up self p
  else
    d <- index (_int self) (p - 1) ;;
    if bool_decide (d = d0) || bool_decide (d = d5)
    then _round_up self p
    else _round_down self p.

Definition _pick_rounding_function (r : Rounding) : Decimal -> Z -> result Z :=
  match r with
  | ROUND_DOWN => _round_down
  | ROUND_UP => _round_up
  | ROUND_HALF_UP => _round_half_up
  | ROUND_HALF_DOWN => _round_half_down
  | ROUND_HALF_EVEN => _round_half_even
  | ROUND_CEILING => _round_ceiling
  | ROUND_FLOOR => _round_floor
  | ROUND_05UP => _round_05up
  end.

(** [x or '0'] on digit strings. *)
Definition or0 (ds : list digit) : list digit :=
  match ds with [] => [d0] | _ => ds end.

(** [Decimal._fix_nan]: a payload longer than the precision loses its
    leading digits. *)
Definition _fix_nan (c : Context) (self : Decimal) : Decimal :=
  let payload := _int self in
  if prec c <? len payload
  then mkDecimal (_sign self) (lstrip0 (from payload (len payload - prec c))) (_exp self)
  else self.

(** [Decimal._fix]: round to the precision of the context and keep the
    exponent within its bounds. *)
Definition _fix (c : Context) (self : Decimal) : result Decimal :=
  match _exp self with
  | Expn | ExpN => Ok (_fix_nan c self)
  | ExpF => Ok self
  | ExpInt e =>
      if negb (nonzero self) then
        let new_exp := Z.min (Z.max e (Etiny c)) (Emax c) in
        if negb (new_exp =? e)
        then Ok (mkDecimal (_sign self) [d0] (ExpInt new_exp))
        else Ok self
      else
        let exp_min := len (_int self) + e - prec c in
        if Etop c <? exp_min then Raise Overflow
        else
          let self_is_subnormal := exp_min <? Etiny c in
          let exp_min := if self_is_subnormal then Etiny c else exp_min in
          if e <? exp_min then
            let digits := len (_int self) + e - exp_min in
            let '(self, digits) :=
              if digits <? 0
              then (mkDecimal (_sign self) [d1] (ExpInt (exp_min - 1)), 0)
              else (self, digits) in
            changed <- _pick_rounding_function (rounding c) self digits ;;
            let coeff := or0 (upto (_int self) digits) in
            let '(coeff, exp_min) :=
              if 0 <? changed then
                let coeff := digits_of_int (int_of_digits coeff + 1) in
                if prec c <? len coeff
                then (removelast coeff, exp_min + 1)
                else (coeff, exp_min)
              else (coeff, exp_min) in
            if Etop c <? exp_min then Raise Overflow
            else Ok (mkDecimal (_sign self) coeff (ExpInt exp_min))
          else Ok self
  end.

(** The loop of [normalize]: drop trailing zeros of [ds[:end]] while the
    exponent stays below [exp_max].  [end] does not reach 0: the
    coefficient is not zero when the loop runs. *)
Fixpoint strip_zeros (ds : list digit) (end_ : nat) (e exp_max : Z) : nat * Z :=
  match end_ with
  | O => (end_, e)
  | S end' =>
      if bool_decide (ds !! end' = Some d0) && (e <? exp_max)
      then strip_zeros ds end' (e + 1) exp_max
      else (end_, e)
  end.

(** [Decimal.normalize]. *)
Definition normalize (c : Context) (self : Decimal) : result Decimal :=
  match _exp self with
  | ExpN => Raise InvalidOperation
  | Expn => Ok (_fix_nan c self)
  | _ =>
      dup <- _fix c self ;;
      match _exp dup with
      | ExpInt e =>
          if negb (nonzero dup) then Ok (mkDecimal (_sign dup) [d0] (ExpInt 0))
          else
            let '(end_, e') := strip_zeros (_int dup) (length (_int dup)) e (Emax c) in
            Ok (mkDecimal (_sign dup) (take end_ (_int dup)) (ExpInt e'))
      | _ => Ok dup
      end
  end.

(** [Decimal.as_tuple]. *)
Definition as_tuple (self : Decimal) : bool * list Z * exponent :=
  (_sign self, map digit_to_Z (_int self), _exp self).

(** ['0' * n]: empty when [n <= 0]. *)
Definition zeros (n : Z) : list digit := replicate (Z.to_nat n) d0.

(** [str(z)] and ["%+d" % z] for an integer [z]. *)
Definition str_of_int (z : Z) : string :=
  if z <? 0 then "-" +:+ string_of_digits (digits_of_int (- z))
  else string_of_digits (digits_of_int z).

Definition signed_of_int (z : Z) : string :=
  if z <? 0 then str_of_int z else "+" +:+ str_of_int z.

(** [Decimal.__str__]: scientific notation once the exponent is positive
    or the number has more than six leading zeros. *)
Definition __str__ (c : Context) (self : Decimal) : string :=
  let sign := if _sign self then "-" else "" in
  match _exp self with
  | ExpF => sign +:+ "Infinity"
  | Expn => sign +:+ "NaN" +:+ string_of_digits (_int self)
  | ExpN => sign +:+ "sNaN" +:+ string_of_digits (_int self)
  | ExpInt e =>
      let leftdigits := e + len (_int self) in
      let dotplace :=
        if (e <=? 0) && (-6 <? leftdigits) then leftdigits else 1 in
      let '(intpart, fracpart) :=
        if dotplace <=? 0 then
          ("0", "." +:+ string_of_digits (zeros (- dotplace) ++ _int self))
        else if len (_int self) <=? dotplace then
          (string_of_digits (_int self ++ zeros (dotplace - len (_int self))), "")
        else
          (string_of_digits (upto (_int self) dotplace),
           "." +:+ string_of_digits (from (_int self) dotplace)) in
      let exp :=
        if leftdigits =? dotplace then ""
        else (if capitals c then "E" else "e") +:+ signed_of_int (leftdigits - dotplace) in
      sign +:+ intpart +:+ fracpart +:+ exp
  end.

(** [Decimal.__repr__]. *)
Definition __repr__ (c : Context) (self : Decimal) : string :=
  "Decimal('" +:+ __str__ c self +:+ "')".

(** [Decimal.copy_abs]. *)
Definition copy_abs (self : Decimal) : Decimal :=
  mkDecimal false (_int self) (_exp self).

(** [format(self, 'f')]: [Decimal.__format__] at the specifier ['f'], which
    has no precision, no padding and no thousands separator.  The exponent
    handed to [_format_number] is [leftdigits - dotplace = 0], so no
    exponent is appended. *)
Definition format_f (c : Context) (self : Decimal) : string :=
  let sign := if _sign self then "-" else "" in
  match _exp self with
  | ExpInt e =>
      let self :=
        if negb (nonzero self) && (0 <? e)
        then mkDecimal (_sign self) [d0] (ExpInt 0) else self in
      let e := match _exp self with ExpInt e' => e' | _ => e end in
      let leftdigits := e + len (_int self) in
      let dotplace := leftdigits in
      let '(intpart, fracpart) :=
        if dotplace <? 0 then
          ([d0], zeros (- dotplace) ++ _int self)
        else if len (_int self) <? dotplace then
          (_int self ++ zeros (dotplace - len (_int self)), [])
        else
          (or0 (upto (_int self) dotplace), from (_int self) dotplace) in
      let fracpart :=
        match fracpart with
        | [] => ""
        | _ => "." +:+ string_of_digits fracpart
        end in
      sign +:+ string_of_digits intpart +:+ fracpart
  | _ => sign +:+ __str__ c (copy_abs self)
  end.

(** [Decimal(n)] for an [int]. *)
Definition of_int (n : Z) : Decimal :=
  mkDecimal (n <? 0) (digits_of_int (Z.abs n)) (ExpInt 0).

(** The longest run of digits at the head of a string, and the rest. *)
Fixpoint span_digits (s : string) : list digit * string :=
  match s with
  | String ch s' =>
      match digit_of_char ch with
      | Some d => let '(ds, rest) := span_digits s' in (d :: ds, rest)
      | None => ([], s)
      end
  | EmptyString => ([], s)
  end.

(** ASCII lower case, for the case-insensitive words of the grammar. *)
Definition lower (ch : ascii) : ascii :=
  let n := nat_of_ascii ch in
  if (65 <=? n)%nat && (n <=? 90)%nat then ascii_of_nat (n + 32) else ch.

Fixpoint lower_string (s : string) : string :=
  match s with
  | EmptyString => EmptyString
  | String ch s' => String (lower ch) (lower_string s')
  end.

(** [str(int(ds))] for a run of digits: no leading zeros. *)
Definition canonical (ds : list digit) : list digit := or0 (lstrip0 ds).

(** An optional sign [[-+]?] at the head of a string. *)
Definition split_sign (s : string) : bool * string :=
  match s with
  | String ch t =>
      if bool_decide (ch = "-"%char) then (true, t)
      else if bool_decide (ch = "+"%char) then (false, t)
      else (false, s)
  | EmptyString => (false, s)
  end.

(** [s] without the prefix [p], when it starts with [p]. *)
Fixpoint strip_prefix (p s : string) : option string :=
  match p, s with
  | EmptyString, _ => Some s
  | String a p', String b s' =>
      if bool_decide (a = b) then strip_prefix p' s' else None
  | String _ _, EmptyString => None
  end.

(** The exponent part [(E[-+]?\d+)?\Z] of a numeric string. *)
Definition parse_exp (s : string) : option Z :=
  match s with
  | EmptyString => Some 0
  | String ch s' =>
      if bool_decide (lower ch = "e"%char) then
        let '(neg, s'') := split_sign s' in
        match span_digits s'' with
        | ((_ :: _) as ds, EmptyString) =>
            Some (if neg : bool then - int_of_digits ds else int_of_digits ds)
        | _ => None
        end
      else None
  end.

(** [Decimal(s)] for a string [s] without surrounding blanks: the grammar
    of the module's [_parser]; a string outside it raises
    [InvalidOperation] (its [ConversionSyntax] condition). *)
Definition of_string (s : string) : result Decimal :=
  let '(sign, s) := split_sign s in
  let '(intpart, s1) := span_digits s in
  let '(fracpart, s2, has_digit) :=
    match strip_prefix "." s1 with
    | Some t =>
        let '(fr, rest) := span_digits t in
        (fr, rest, negb (bool_decide (intpart = [])) || negb (bool_decide (fr = [])))
    | None => ([], s1, negb (bool_decide (intpart = [])))
    end in
  if has_digit : bool then
    match parse_exp s2 with
    | Some e =>
        Ok (mkDecimal sign (canonical (intpart ++ fracpart)) (ExpInt (e - len fracpart)))
    | None => Raise InvalidOperation
    end
  else
    let w := lower_string s in
    if bool_decide (w = "inf") || bool_decide (w = "infinity")
    then Ok (mkDecimal sign [d0] ExpF)
    else
      let '(signal, w) :=
        match strip_prefix "s" w with
        | Some t => (true, t)
        | None => (false, w)
        end in
      match strip_prefix "nan" w with
      | Some t =>
          match span_digits t with
          | (diag, EmptyString) =>
              Ok (mkDecimal sign (lstrip0 diag) (if signal : bool then ExpN else Expn))
          | _ => Raise InvalidOperation
          end
      | None => Raise InvalidOperation
      end.

(** The loop of [__truediv__] on an exact quotient: move towards the ideal
    exponent while the coefficient ends in a zero. *)
Fixpoint to_ideal (fuel : nat) (coeff e ideal_exp : Z) : Z * Z :=
  match fuel with
  | O => (coeff, e)
  | S fuel' =>
      if (e <? ideal_exp) && (coeff mod 10 =? 0)
      then to_ideal fuel' (coeff / 10) (e + 1) ideal_exp
      else (coeff, e)
  end.

(** [Decimal.__truediv__] on two [Decimal]s. *)
Definition __truediv__ (c : Context) (self other : Decimal) : result Decimal :=
  let sign := xorb (_sign self) (_sign other) in
  match _exp self, _exp other with
  | ExpN, _ | _, ExpN => Raise InvalidOperation
  | Expn, _ => Ok (_fix_nan c self)
  | _, Expn => Ok (_fix_nan c other)
  | ExpF, ExpF => Raise InvalidOperation
  | ExpF, _ => Ok (mkDecimal sign [d0] ExpF)
  | _, ExpF => Ok (mkDecimal sign [d0] (ExpInt (Etiny c)))
  | ExpInt e1, ExpInt e2 =>
      if negb (nonzero other) then
        if negb (nonzero self) then Raise InvalidOperation
        else Raise DivisionByZero
      else
        let '(coeff, e) :=
          if negb (nonzero self) then (0, e1 - e2)
          else
            let shift := len (_int other) - len (_int self) + prec c + 1 in
            let e := e1 - e2 - shift in
            let op1 := int_of_digits (_int self) in
            let op2 := int_of_digits (_int other) in
            let '(coeff, remainder) :=
              if 0 <=? shift
              then Z.div_eucl (op1 * 10 ^ shift) op2
              else Z.div_eucl op1 (op2 * 10 ^ (- shift)) in
            if negb (remainder =? 0) then
              ((if coeff mod 5 =? 0 then coeff + 1 else coeff), e)
            else
              let ideal_exp := e1 - e2 in
              to_ideal (Z.to_nat (ideal_exp - e)) coeff e ideal_exp in
        _fix c (mkDecimal sign (digits_of_int coeff) (ExpInt e))
  end.

End decimal.

(** ** Python values *)

Module builtins.
Import decimal.

(** The values that reach the module.  A [float] or [complex] is kept as
    the text [str] gives for it; a lazy translation ([Promise]) as the text it
    resolves to; a [list] as its items and the text [str] gives for it;
    an instance of any other class ([Object]) as its class name, whether
    the class is a [numbers.Number] (as [fractions.Fraction] is, and
    every class registered as one), the truth value of the instance
    (what [__bool__] or [__len__] make of it) and the text its
    [__str__] returns. *)
#[local] Set Warnings "-register-all".
Inductive object :=
| None_
| Bool (b : bool)
| Int (z : Z)
| Float (text : string)
| Complex (text : string)
| Str (s : string)
| Dec (d : Decimal)
| Promise (s : string)
| List (items : list object) (str_ : string)
| Object (cls : string) (number truth : bool) (str_ : string).
#[local] Set Warnings "register-all".

#[global] Instance object_inhabited : Inhabited object := populate None_.

(** Truth value testing.  A [float] is false when it is a zero of
    either sign, a [complex] when both of its parts are; a [list] when
    it is empty. *)
Definition truthy (v : object) : bool :=
  match v with
  | None_ => false
  | Bool b => b
  | Int z => negb (z =? 0)
  | Float r => negb (bool_decide (r = "0.0") || bool_decide (r = "-0.0"))
  | Complex r =>
      negb (bool_decide (r = "0j") || bool_decide (r = "-0j")
            || bool_decide (r = "(-0+0j)") || bool_decide (r = "(-0-0j)"))
  | Str s => negb (bool_decide (s = ""))
  | Dec d => nonzero d
  | Promise s => negb (bool_decide (s = ""))
  | List items _ => match items with [] => false | _ :: _ => true end
  | Object _ _ truth _ => truth
  end.

(** [x or y]. *)
Definition or_ (x y : object) : object := if truthy x then x else y.

(** [str(v)]. *)
Definition str (c : Context) (v : object) : string :=
  match v with
  | None_ => "None"
  | Bool b => if b then "True" else "False"
  | Int z => str_of_int z
  | Float r => r
  | Complex r => r
  | Str s => s
  | Dec d => __str__ c d
  | Promise s => s
  | List _ s => s
  | Object _ _ _ s => s
  end.

(** [isinstance(v, numbers.Number)]: [bool] is a subclass of [int],
    [Decimal] is registered as a number, and an instance of another
    class is one when its class is. *)
Definition is_Number (v : object) : bool :=
  match v with
  | Bool _ | Int _ | Float _ | Complex _ | Dec _ => true
  | Object _ number _ _ => number
  | None_ | Str _ | Promise _ | List _ _ => false
  end.

(** Keyword arguments, instance dictionaries and [dict]s keyed by name. *)
Abbreviation dict := (gmap string object).

(** [d.setdefault(k, v)]. *)
Definition setdefault (k : string) (v : object) (d : dict) : dict :=
  match d !! k with
  | Some _ => d
  | None => <[k := v]> d
  end.

(** [d.get(k)]. *)
Definition get (d : dict) (k : string) : object := default None_ (d !! k).

(** [d.pop(k, None)], for its effect on [d]. *)
Definition pop (k : string) (d : dict) : dict := delete k d.

(** [getattr(obj, name)] on an instance dictionary. *)
Definition getattr (obj : dict) (name : string) : result object :=
  match obj !! name with
  | Some v => Ok v
  | None => Raise AttributeError
  end.

(** [x > n] and [x < n] for the exponent [x] of a [DecimalTuple], which is
    an [int] or a [str], and an [int] [n].  Python 3 refuses to order a
    [str] against an [int]; Python 2 puts every [str] above every [int]. *)
Definition gt (py : Version) (x : exponent) (n : Z) : result bool :=
  match x with
  | ExpInt e => Ok (n <? e)
  | _ => match py with Python3 => Raise TypeError | Python2 => Ok true end
  end.

Definition lt (py : Version) (x : exponent) (n : Z) : result bool :=
  match x with
  | ExpInt e => Ok (e <? n)
  | _ => match py with Python3 => Raise TypeError | Python2 => Ok false end
  end.

(** [10 ** n] for an [int] [n]: an [int] when [n >= 0], else a [float]
    (whose value no caller here looks at). *)
Inductive power := PowInt (z : Z) | PowFloat.

Definition pow10 (n : Z) : power :=
  if 0 <=? n then PowInt (10 ^ n) else PowFloat.

(** [d / x] for a [Decimal] [d] and the result [x] of a power: an [int] is
    converted, a [float] is refused. *)
Definition div (c : Context) (d : Decimal) (x : power) : result Decimal :=
  match x with
  | PowInt z => __truediv__ c d (of_int z)
  | PowFloat => Raise TypeError
  end.

End builtins.

(** ** Regular expressions, as far as the identifier pattern needs them *)

Module re.

Inductive regex :=
| Void
| Eps
| Class (ranges : list (ascii * ascii))
| Cat (r1 r2 : regex)
| Alt (r1 r2 : regex)
| Star (r : regex).

(** [r+]. *)
Definition Plus (r : regex) : regex := Cat r (Star r).

Definition in_range (ch : ascii) (rg : ascii * ascii) : bool :=
  (nat_of_ascii (fst rg) <=? nat_of_ascii ch)%nat
  && (nat_of_ascii ch <=? nat_of_ascii (snd rg))%nat.

Definition in_class (ch : ascii) (ranges : list (ascii * ascii)) : bool :=
  existsb (in_range ch) ranges.

Fixpoint nullable (r : regex) : bool :=
  match r with
  | Void => false
  | Eps => true
  | Class _ => false
  | Cat r1 r2 => nullable r1 && nullable r2
  | Alt r1 r2 => nullable r1 || nullable r2
  | Star _ => true
  end.

(** The derivative of [r] by the character [ch]: what is left to match
    once [ch] has been read. *)
Fixpoint deriv (ch : ascii) (r : regex) : regex :=
  match r with
  | Void => Void
  | Eps => Void
  | Class ranges => if in_class ch ranges then Eps else Void
  | Cat r1 r2 =>
      if nullable r1
      then Alt (Cat (deriv ch r1) r2) (deriv ch r2)
      else Cat (deriv ch r1) r2
  | Alt r1 r2 => Alt (deriv ch r1) (deriv ch r2)
  | Star r1 => Cat (deriv ch r1) (Star r1)
  end.

(** [r.match(s)]: some prefix of [s] matches. *)
Fixpoint match_ (r : regex) (s : string) : bool :=
  nullable r ||
  match s with
  | EmptyString => false
  | String ch s' => match_ (deriv ch r) s'
  end.

(** [r.search(s)]: a match starting at some position of [s]. *)
Fixpoint search (r : regex) (s : string) : bool :=
  match_ r s ||
  match s with
  | EmptyString => false
  | String _ s' => search r s'
  end.

End re.

(** ** Django: the model and form field classes the module extends *)

Module django.
Import decimal builtins.

(** An item of a field's list of validators: one of the two validators
    the classes here append, or whatever the caller passed. *)
Inductive Validator :=
| MaxLengthValidator (limit : object)
| RegexValidator (regex : re.regex)
| Given (v : object).

(** [RegexValidator.__call__]: the value is rejected when the pattern is
    found nowhere in its text.  Of the other validators only the place in
    the list is modelled, not the call. *)
Definition validate (c : Context) (v : Validator) (x : object) : result unit :=
  match v with
  | RegexValidator r =>
      if re.search r (str c x) then Ok tt else Raise ValidationError
  | MaxLengthValidator _ | Given _ => Ok tt
  end.

(** A model field: its instance dictionary and its list of validators. *)
Record Field := mkField {
  attrs : dict;
  validators : list Validator
}.

(** The keyword parameters of [models.Field.__init__] that end up in an
    attribute of the instance, with their defaults (Django 1.8).  The one
    parameter left, [validators], is a list and has its place in
    [Field___init__]. *)
Definition Field_parameters : dict :=
  list_to_map
    [ ("verbose_name", None_); ("name", None_); ("primary_key", Bool false);
      ("max_length", None_); ("unique", Bool false); ("blank", Bool false);
      ("null", Bool false); ("db_index", Bool false); ("rel", None_);
      ("default",
       Object "type" false true "<class 'django.db.models.fields.NOT_PROVIDED'>");
      ("editable", Bool true); ("serialize", Bool true);
      ("unique_for_date", None_); ("unique_for_month", None_);
      ("unique_for_year", None_); ("choices", None_); ("help_text", Str "");
      ("db_column", None_); ("db_tablespace", None_);
      ("auto_created", Bool false); ("error_messages", None_) ].

(** [self.default_validators + validators]: the class has no validators
    of its own, the default for the keyword is the empty list, and a list
    takes nothing but a list behind its [+] (an instance of another class
    is taken to have no [__radd__]). *)
Definition Field_validators (kwargs : dict) : result (list Validator) :=
  match kwargs !! "validators" with
  | None => Ok []
  | Some (List items _) => Ok (Given <$> items)
  | Some _ => Raise TypeError
  end.

(** The attributes [models.Field.__init__] sets from the parameters [d]:
    [unique] is kept as [_unique], [choices] as [_choices] and with the
    empty list for a false value, [error_messages] as [_error_messages];
    the others under their own names.  Left out are the attributes whose
    value is not that of a parameter ([error_messages], which holds the
    messages of the classes merged with the caller's, [db_tablespace],
    which falls back on the settings of the project, taken to be
    configured, and the creation counter). *)
Definition Field_attributes (d : dict) : dict :=
  <["_unique" := get d "unique"]>
    (<["_choices" := or_ (get d "choices") (List [] "[]")]>
       (<["_error_messages" := get d "error_messages"]>
          (delete "unique"
             (delete "choices" (delete "error_messages" (delete "db_tablespace" d)))))).

(** The names under which an attribute holds the parameter of that name
    as it was passed. *)
Definition kept_as_passed (k : string) : bool :=
  bool_decide (k ∉ ["unique"; "_unique"; "choices"; "_choices"; "error_messages";
                    "_error_messages"; "db_tablespace"; "validators"]).

(** [models.Field.__init__] with keyword arguments: a keyword that is no
    parameter is a [TypeError], and so is a [validators] that is no list;
    otherwise the parameters are stored on the instance and the caller's
    validators make the field's list of validators. *)
Definition Field___init__ (kwargs : dict) : result Field :=
  if decide (dom (delete "validators" kwargs) ⊆ dom Field_parameters) then
    given <- Field_validators kwargs ;;
    Ok (mkField (Field_attributes (delete "validators" kwargs ∪ Field_parameters)) given)
  else Raise TypeError.

(** The [unique] property of a field. *)
Definition unique (self : Field) : result object :=
  u <- getattr (attrs self) "_unique" ;;
  p <- getattr (attrs self) "primary_key" ;;
  Ok (or_ u p).

(** [models.CharField.__init__]. *)
Definition CharField___init__ (kwargs : dict) : result Field :=
  self <- Field___init__ kwargs ;;
  m <- getattr (attrs self) "max_length" ;;
  Ok (mkField (attrs self) (validators self ++ [MaxLengthValidator m])).

(** [models.CharField.get_prep_value]: a lazy string is resolved, then
    [to_python] leaves a [str] and [None] alone and turns anything else
    into its text. *)
Definition CharField_get_prep_value (c : Context) (x : object) : object :=
  let x := match x with Promise s => Str s | _ => x end in
  match x with
  | Str _ | None_ => x
  | _ => Str (str c x)
  end.

(** [models.DecimalField.__init__]: [max_digits] and [decimal_places] are
    parameters of its own, [None] by default. *)
Definition DecimalField___init__ (kwargs : dict) : result Field :=
  self <- Field___init__ (delete "max_digits" (delete "decimal_places" kwargs)) ;;
  Ok (mkField
        (<["max_digits" := get kwargs "max_digits"]>
           (<["decimal_places" := get kwargs "decimal_places"]> (attrs self)))
        (validators self)).

(** [models.Field.value_from_object]: the attribute of [obj] named by the
    field's [attname]. *)
Definition Field_value_from_object (self : Field) (obj : dict) : result object :=
  n <- getattr (attrs self) "attname" ;;
  match n with
  | Str name => getattr obj name
  | _ => Raise TypeError
  end.

(** A form widget: whether it is a [NumberInput], and its [attrs]. *)
Record Widget := mkWidget {
  is_NumberInput : bool;
  w_attrs : dict
}.

(** A [forms.DecimalField]: each of [max_digits] and [decimal_places] is an
    [int] or [None]. *)
Record DecimalFormField := mkDecimalFormField {
  max_digits : option Z;
  decimal_places : option Z
}.

End django.

(** ** The module [oscar.models.fields.decimal] *)

Module fields.
Import decimal builtins django.

(** [RegexValidator("[a-z][a-z_]+")]. *)
Definition IdentifierValidator : Validator :=
  RegexValidator
    (re.Cat (re.Class [("a", "z")])
            (re.Plus (re.Class [("a", "z"); ("_", "_")])))%char.

Definition MONEY_FIELD_DECIMAL_PLACES : Z := 9.
Definition FORMATTED_DECIMAL_FIELD_DECIMAL_PLACES : Z := 9.
Definition FORMATTED_DECIMAL_FIELD_MAX_DIGITS : Z := 36.

Module InternalIdentifierField.

Definition __init__ (kwargs : dict) : result Field :=
  if negb (bool_decide (is_Some (kwargs !! "unique"))) then
    Raise (ValueError
      "Error! You must explicitly set the `unique` flag for `InternalIdentifierField`s.")
  else
    let kwargs := setdefault "max_length" (Int 64) kwargs in
    let kwargs := setdefault "blank" (Bool true) kwargs in
    let kwargs := setdefault "null" (Bool (truthy (get kwargs "blank"))) kwargs in
    let kwargs := setdefault "verbose_name" (Promise "internal identifier") kwargs in
    let kwargs :=
      setdefault "help_text"
        (Promise "Do not change this value if you are not sure what you are doing.")
        kwargs in
    let kwargs := setdefault "editable" (Bool false) kwargs in
    self <- CharField___init__ kwargs ;;
    Ok (mkField (attrs self) (validators self ++ [IdentifierValidator])).

Definition get_prep_value (c : Context) (self : Field) (value : object) : result object :=
  let prepared_value := CharField_get_prep_value c value in
  null <- getattr (attrs self) "null" ;;
  if truthy null then Ok (or_ prepared_value None_)
  else Ok prepared_value.

Section deconstruct.

(** [models.Field.deconstruct], whatever it returns for the field. *)
Variable super_deconstruct : Field -> object * string * list object * dict.

Definition deconstruct (self : Field) : result (object * string * list object * dict) :=
  let '(name, path, args, kwargs) := super_deconstruct self in
  null <- getattr (attrs self) "null" ;;
  let kwargs := <["null" := null]> kwargs in
  unique <- unique self ;;
  let kwargs := <["unique" := unique]> kwargs in
  blank <- getattr (attrs self) "blank" ;;
  let kwargs := <["blank" := blank]> kwargs in
  let kwargs := pop "verbose_name" kwargs in
  let kwargs := pop "help_text" kwargs in
  Ok (name, path, args, kwargs).

End deconstruct.

End InternalIdentifierField.

Module FormattedDecimalFormField.

Definition MAX_DECIMAL_PLACES_FOR_STEP : Z := 5.

Section widget_attrs.

(** [forms.DecimalField.widget_attrs], whatever it returns; it reads the
    widget and leaves it as it is. *)
Variable super_widget_attrs : DecimalFormField -> Widget -> dict.

(** The widget is changed in place: the result is the widget afterwards
    and the dictionary returned.  A [decimal_places] of [None] cannot be
    compared (Python 3) or raised to (Python 2): a [TypeError] either
    way. *)
Definition widget_attrs (c : Context) (self : DecimalFormField) (widget : Widget)
  : result (Widget * dict) :=
  widget <-
    (if is_NumberInput widget && negb (bool_decide (is_Some (w_attrs widget !! "step")))
     then
       step <-
         match decimal_places self with
         | None => Raise TypeError
         | Some dp =>
             if dp <=? MAX_DECIMAL_PLACES_FOR_STEP then
               one <- of_string "1" ;;
               q <- div c one (pow10 dp) ;;
               Ok (format_f c q)
             else Ok "any"
         end ;;
       Ok (mkWidget (is_NumberInput widget)
                    (setdefault "step" (Str step) (w_attrs widget)))
     else Ok widget) ;;
  Ok (widget, super_widget_attrs self widget).

End widget_attrs.

End FormattedDecimalFormField.

Module FormattedDecimalField.

(** [format_decimal] below its first statement, for an argument that
    passes the assertion; the defaults of [max_digits] and
    [exponent_limit] are 100. *)
Definition format_decimal (py : Version) (c : Context)
    (value : Decimal) (max_digits exponent_limit : Z) : result string :=
  val <- normalize c value ;;
  let '(sign, digits, exponent) := as_tuple val in
  too_large <- gt py exponent exponent_limit ;;
  if too_large : bool then
    Raise (ValueError
      ("Error! Exponent is too large for formatting: " +:+ __repr__ c value +:+ "."))
  else
    too_small <- lt py exponent (- exponent_limit) ;;
    if too_small : bool then
      Raise (ValueError
        ("Error! Exponent is too small for formatting: " +:+ __repr__ c value +:+ "."))
    else if max_digits <? len digits then
      Raise (ValueError
        ("Error! Too many digits for formatting: " +:+ __repr__ c value +:+ "."))
    else Ok (format_f c val).

(** [format_decimal] as it is called, with any object for [value]:
    [assert isinstance(value, decimal.Decimal)] comes first. *)
Definition format_decimal_call (py : Version) (c : Context)
    (value : object) (max_digits exponent_limit : Z) : result string :=
  match value with
  | Dec d => format_decimal py c d max_digits exponent_limit
  | _ => Raise AssertionError
  end.

Definition value_from_object (py : Version) (c : Context)
    (self : Field) (obj : dict) : result object :=
  value <- Field_value_from_object self obj ;;
  if is_Number value then
    d <- of_string (str c value) ;;
    s <- format_decimal py c d 100 100 ;;
    Ok (Str s)
  else Ok None_.

Definition __init__ (kwargs : dict) : result Field := DecimalField___init__ kwargs.

Section formfield.

Context {A : Type}.
(** [models.DecimalField.formfield]. *)
Variable super_formfield : Field -> dict -> A.

Definition formfield (self : Field) (kwargs : dict) : A :=
  let kwargs :=
    setdefault "form_class"
      (Object "type" false true
         "<class 'oscar.models.fields.decimal.FormattedDecimalFormField'>") kwargs in
  super_formfield self kwargs.

End formfield.

End FormattedDecimalField.

Module MoneyValueField.

Definition __init__ (kwargs : dict) : result Field :=
  let kwargs := setdefault "decimal_places" (Int MONEY_FIELD_DECIMAL_PLACES) kwargs in
  let kwargs := setdefault "max_digits" (Int FORMATTED_DECIMAL_FIELD_MAX_DIGITS) kwargs in
  FormattedDecimalField.__init__ kwargs.

End MoneyValueField.

Module QuantityField.

Definition __init__ (kwargs : dict) : result Field :=
  let kwargs :=
    setdefault "decimal_places" (Int FORMATTED_DECIMAL_FIELD_DECIMAL_PLACES) kwargs in
  let kwargs := setdefault "max_digits" (Int FORMATTED_DECIMAL_FIELD_MAX_DIGITS) kwargs in
  let kwargs := setdefault "default" (Int 0) kwargs in
  FormattedDecimalField.__init__ kwargs.

End QuantityField.

End fields.

(** ** Notions used in the statements *)

Import decimal builtins django fields.

(** The characters of a string. *)
Fixpoint chars (s : string) : list ascii :=
  match s with
  | EmptyString => []
  | String ch s' => ch :: chars s'
  end.

(** A character of plain fixed-point notation: a digit, the point or the
    minus sign. *)
Definition fixed_point_char (ch : ascii) : Prop :=
  is_Some (digit_of_char ch) \/ ch = "."%char \/ ch = "-"%char.

(** A coefficient as [str(int(...))] writes it: at least one digit, and a
    zero in front only when it is the single digit 0. *)
Definition no_leading_zero (ds : list digit) : Prop :=
  is_Some (head ds) /\ (head ds = Some d0 -> ds = [d0]).

(** A finite [Decimal] as the constructors of the class build it. *)
Definition well_formed (d : Decimal) : Prop := no_leading_zero (_int d).

(** The bounds Python puts on a context: a precision of at least one
    digit, [Emin <= 0] and [Emax >= 0]. *)
Definition valid_context (c : Context) : Prop :=
  1 <= prec c /\ Emin c <= 0 /\ 0 <= Emax c.

(** The same number with [k] more trailing zeros in the coefficient. *)
Definition pad (d : Decimal) (k : nat) : Decimal :=
  mkDecimal (_sign d) (_int d ++ replicate k d0)
            (match _exp d with ExpInt e => ExpInt (e - Z.of_nat k) | x => x end).

Definition finite (d : Decimal) : Prop := _is_special d = false.

(** The integer exponent of a finite [Decimal] (0 for a special one). *)
Definition exp_of (d : Decimal) : Z :=
  match _exp d with ExpInt e => e | _ => 0 end.

(** The coefficient with its sign. *)
Definition signed_int (d : Decimal) : Z :=
  if _sign d then - int_of_digits (_int d) else int_of_digits (_int d).

(** Two finite [Decimal]s stand for the same number, as [==] has it:
    equal once both are scaled to the smaller of the two exponents. *)
Definition same_number (x y : Decimal) : Prop :=
  let m := Z.min (exp_of x) (exp_of y) in
  signed_int x * 10 ^ (exp_of x - m) = signed_int y * 10 ^ (exp_of y - m).

(** Two results of [format_decimal], for the arguments [x] and [y], are
    the same up to the argument quoted in the message: the same string, or
    a [ValueError] with the same text around [repr(x)] and [repr(y)], or
    the same exception of another class. *)
Definition same_outcome (c : Context) (x y : Decimal) (rx ry : result string) : Prop :=
  match rx, ry with
  | Ok sx, Ok sy => sx = sy
  | Raise (ValueError mx), Raise (ValueError my) =>
      exists text, mx = text +:+ __repr__ c x +:+ "." /\ my = text +:+ __repr__ c y +:+ "."
  | Raise ex, Raise ey => ex = ey
  | _, _ => False
  end.

(** [1 / 10^n] written in fixed-point notation: ["1"] for [n = 0], else
    ["0."], [n - 1] zeros and a final ["1"]. *)
Definition fixed_point_fraction (n : Z) : string :=
  if n <=? 0 then "1"
  else "0." +:+ string_of_digits (zeros (n - 1)) +:+ "1".

Definition lowercase (ch : ascii) : bool := re.in_range ch ("a", "z")%char.

Definition identifier_char (ch : ascii) : bool :=
  lowercase ch || bool_decide (ch = "_"%char).

(** An identifier in the strict sense: a lower-case letter followed by at
    least one lower-case letter or underscore, and nothing else. *)
Definition is_identifier (s : string) : bool :=
  match chars s with
  | ch :: ((_ :: _) as rest) => lowercase ch && forallb identifier_char rest
  | _ => false
  end.

(** What the constructor of the identifier field hands to Django. *)
Definition identifier_kwargs (kwargs : dict) : dict :=
  let kwargs := setdefault "max_length" (Int 64) kwargs in
  let kwargs := setdefault "blank" (Bool true) kwargs in
  let kwargs := setdefault "null" (Bool (truthy (get kwargs "blank"))) kwargs in
  let kwargs := setdefault "verbose_name" (Promise "internal identifier") kwargs in
  let kwargs :=
    setdefault "help_text"
      (Promise "Do not change this value if you are not sure what you are doing.")
      kwargs in
  setdefault "editable" (Bool false) kwargs.

(** A flag of a field is set: the attribute is there and is true. *)
Definition flag_set (f : Field) (name : string) : Prop :=
  exists v, attrs f !! name = Some v /\ truthy v = true.

(** The validators the caller passes: the items of the list under
    [validators], none without the keyword. *)
Definition given_validators (kwargs : dict) : list object :=
  match kwargs !! "validators" with
  | Some (List items _) => items
  | _ => []
  end.

(** Keywords that [models.Field.__init__] takes: each is a parameter, and
    [validators], when it is there, is a list. *)
Definition Field_accepts (kwargs : dict) : Prop :=
  dom (delete "validators" kwargs) ⊆ dom Field_parameters /\
  forall v, kwargs !! "validators" = Some v -> exists items s, v = List items s.

(** The empty values of an identifier: no value, or the empty text. *)
Definition empty_value (v : object) : Prop := v = None_ \/ v = Str "".

(** The three messages of [format_decimal], for the argument [value]. *)
Definition too_large (c : Context) (value : Decimal) : string :=
  "Error! Exponent is too large for formatting: " +:+ __repr__ c value +:+ ".".

Definition too_small (c : Context) (value : Decimal) : string :=
  "Error! Exponent is too small for formatting: " +:+ __repr__ c value +:+ ".".

Definition too_many_digits (c : Context) (value : Decimal) : string :=
  "Error! Too many digits for formatting: " +:+ __repr__ c value +:+ ".".

(** The step hint the claim describes for [n] decimal places. *)
Definition step_hint (n : Z) : string :=
  if n <=? 5 then fixed_point_fraction n else "any".

(** The smallest exponent [_fix] leaves to a coefficient of this length:
    its [exp_min] after the adjustment for subnormal numbers. *)
Definition exp_floor (c : Context) (self : Decimal) : Z :=
  Z.max (len (_int self) + exp_of self - prec c) (Etiny c).

(** The rounding branch of [_fix], entered with the exponent [exp_min]. *)
Definition rounded (c : Context) (self : Decimal) (exp_min : Z) : result Decimal :=
  let digits := len (_int self) + exp_of self - exp_min in
  let '(self, digits) :=
    if digits <? 0
    then (mkDecimal (_sign self) [d1] (ExpInt (exp_min - 1)), 0)
    else (self, digits) in
  changed <- _pick_rounding_function (rounding c) self digits ;;
  let coeff := or0 (upto (_int self) digits) in
  let '(coeff, exp_min) :=
    if 0 <? changed then
      let coeff := digits_of_int (int_of_digits coeff + 1) in
      if prec c <? len coeff
      then (removelast coeff, exp_min + 1)
      else (coeff, exp_min)
    else (coeff, exp_min) in
  if Etop c <? exp_min then Raise Overflow
  else Ok (mkDecimal (_sign self) coeff (ExpInt exp_min)).

(** The part of [normalize] that follows [_fix]. *)
Definition stripped (c : Context) (dup : Decimal) : result Decimal :=
  match _exp dup with
  | ExpInt e =>
      if negb (nonzero dup) then Ok (mkDecimal (_sign dup) [d0] (ExpInt 0))
      else
        let '(end_, e') := strip_zeros (_int dup) (length (_int dup)) e (Emax c) in
        Ok (mkDecimal (_sign dup) (take end_ (_int dup)) (ExpInt e'))
  | _ => Ok dup
  end.

(** * Properties *)

(** ** The identifier field *)

Lemma setdefault_lookup k v (d : dict) k' :
  setdefault k v d !! k' =
  if decide (k = k') then Some (default v (d !! k)) else d !! k'.
Proof.
  unfold setdefault. destruct (d !! k) as [w|] eqn:E.
  - case_decide; subst; simpl; auto.
  - rewrite lookup_insert. case_decide; auto.
Qed.

Lemma setdefault_is_Some k v (d : dict) : is_Some (setdefault k v d !! k).
Proof. rewrite setdefault_lookup. case_decide; [eauto | congruence]. Qed.

Lemma setdefault_absent k v (d : dict) :
  d !! k = None -> setdefault k v d !! k = Some v.
Proof. intros E. rewrite setdefault_lookup, E. case_decide; [done | congruence]. Qed.

Lemma setdefault_other k v (d : dict) k' :
  k <> k' -> setdefault k v d !! k' = d !! k'.
Proof. intros N. rewrite setdefault_lookup. case_decide; [congruence | done]. Qed.

Lemma Field_init_inv kwargs f :
  Field___init__ kwargs = Ok f ->
  dom (delete "validators" kwargs) ⊆ dom Field_parameters /\
  exists given,
    Field_validators kwargs = Ok given /\
    f = mkField (Field_attributes (delete "validators" kwargs ∪ Field_parameters)) given.
Proof.
  unfold Field___init__. case_decide as D; [|discriminate].
  destruct (Field_validators kwargs) as [given|]; simpl; [|discriminate].
  intros [= <-]. eauto.
Qed.

Lemma kept_as_passed_ne k :
  kept_as_passed k = true ->
  k <> "unique" /\ k <> "_unique" /\ k <> "choices" /\ k <> "_choices" /\
  k <> "error_messages" /\ k <> "_error_messages" /\ k <> "db_tablespace" /\
  k <> "validators".
Proof.
  intros H. apply bool_decide_eq_true in H.
  repeat (apply not_elem_of_cons in H as [? H]). repeat split; assumption.
Qed.

Lemma Field_attributes_lookup (d : dict) k :
  kept_as_passed k = true -> Field_attributes d !! k = d !! k.
Proof.
  intros H. apply kept_as_passed_ne in H as (? & ? & ? & ? & ? & ? & ? & ?).
  unfold Field_attributes.
  rewrite !lookup_insert_ne by congruence.
  rewrite !lookup_delete_ne by congruence. reflexivity.
Qed.

Lemma without_validators_lookup (kwargs params : dict) k :
  k <> "validators" ->
  (delete "validators" kwargs ∪ params) !! k = (kwargs ∪ params) !! k.
Proof.
  intros N. rewrite !lookup_union, lookup_delete_ne by congruence. reflexivity.
Qed.

Lemma Field_init_attrs kwargs f k :
  Field___init__ kwargs = Ok f -> kept_as_passed k = true ->
  attrs f !! k = (kwargs ∪ Field_parameters) !! k.
Proof.
  intros I K. apply Field_init_inv in I as (_ & given & _ & ->). cbn [attrs].
  rewrite (Field_attributes_lookup _ k K).
  apply without_validators_lookup.
  apply kept_as_passed_ne in K. tauto.
Qed.

Lemma Field_init_unique kwargs f :
  Field___init__ kwargs = Ok f ->
  attrs f !! "_unique" = Some (get (kwargs ∪ Field_parameters) "unique").
Proof.
  intros I. apply Field_init_inv in I as (_ & given & _ & ->). cbn [attrs].
  unfold Field_attributes. rewrite lookup_insert_eq. unfold get.
  rewrite without_validators_lookup by discriminate. reflexivity.
Qed.

Lemma union_lookup_given (kwargs params : dict) k v :
  kwargs !! k = Some v -> (kwargs ∪ params) !! k = Some v.
Proof. intros E. apply lookup_union_Some_l, E. Qed.

Lemma CharField_init_attrs kwargs f :
  CharField___init__ kwargs = Ok f ->
  exists f0, Field___init__ kwargs = Ok f0 /\ attrs f = attrs f0.
Proof.
  unfold CharField___init__.
  destruct (Field___init__ kwargs) as [f0|] eqn:E; simpl; [|discriminate].
  destruct (getattr (attrs f0) "max_length"); simpl; [|discriminate].
  intros [= <-]. eauto.
Qed.

Lemma identifier_init_inv kwargs f :
  InternalIdentifierField.__init__ kwargs = Ok f ->
  is_Some (kwargs !! "unique") /\
  exists f0, Field___init__ (identifier_kwargs kwargs) = Ok f0 /\ attrs f = attrs f0.
Proof.
  unfold InternalIdentifierField.__init__.
  case_bool_decide as U; simpl; [|discriminate].
  fold (identifier_kwargs kwargs).
  destruct (CharField___init__ (identifier_kwargs kwargs)) as [f1|] eqn:E; simpl; [|discriminate].
  intros [= <-]. split; [exact U|].
  apply CharField_init_attrs in E. exact E.
Qed.

(** C3.  A constructor call whose keyword arguments lack [unique] raises
    the configuration error, a [ValueError], whatever else is passed. *)
Theorem identifier_field_requires_unique (kwargs : dict) :
  kwargs !! "unique" = None ->
  InternalIdentifierField.__init__ kwargs =
  Raise (ValueError
    "Error! You must explicitly set the `unique` flag for `InternalIdentifierField`s.").
Proof.
  intros E. unfold InternalIdentifierField.__init__.
  rewrite E. case_bool_decide as U; [|reflexivity].
  destruct U as [? U]. discriminate.
Qed.

Lemma identifier_field_requires_unique_witness :
  ({[ "blank" := Bool true; "max_length" := Int 32 ]} : dict) !! "unique" = None /\
  InternalIdentifierField.__init__ {[ "blank" := Bool true; "max_length" := Int 32 ]} =
  Raise (ValueError
    "Error! You must explicitly set the `unique` flag for `InternalIdentifierField`s.").
Proof.
  split; [reflexivity|].
  apply identifier_field_requires_unique. reflexivity.
Defined.

Lemma identifier_kwargs_blank kwargs :
  identifier_kwargs kwargs !! "blank" = Some (default (Bool true) (kwargs !! "blank")).
Proof.
  unfold identifier_kwargs.
  do 4 (rewrite setdefault_other by discriminate).
  rewrite setdefault_lookup. case_decide; [|congruence].
  rewrite setdefault_other by discriminate. reflexivity.
Qed.

Lemma identifier_kwargs_null kwargs :
  identifier_kwargs kwargs !! "null" =
  Some (default (Bool (truthy (default (Bool true) (kwargs !! "blank")))) (kwargs !! "null")).
Proof.
  unfold identifier_kwargs.
  do 3 (rewrite setdefault_other by discriminate).
  rewrite setdefault_lookup. case_decide; [|congruence].
  do 2 (rewrite setdefault_other by discriminate).
  unfold get. rewrite setdefault_lookup. case_decide; [|congruence].
  rewrite setdefault_other by discriminate. reflexivity.
Qed.

Lemma identifier_field_attr kwargs f k v :
  InternalIdentifierField.__init__ kwargs = Ok f ->
  kept_as_passed k = true ->
  identifier_kwargs kwargs !! k = Some v ->
  attrs f !! k = Some v.
Proof.
  intros I K E. apply identifier_init_inv in I as (_ & f0 & I & ->).
  rewrite (Field_init_attrs _ _ _ I K). apply union_lookup_given, E.
Qed.

Lemma get_prep_value_of_null c f null value :
  attrs f !! "null" = Some null ->
  InternalIdentifierField.get_prep_value c f value =
  Ok (if truthy null then or_ (CharField_get_prep_value c value) None_
      else CharField_get_prep_value c value).
Proof.
  intros E. unfold InternalIdentifierField.get_prep_value, getattr.
  rewrite E. simpl. destruct (truthy null); reflexivity.
Qed.

Lemma CharField_get_prep_value_text c value :
  CharField_get_prep_value c value = None_ \/
  exists s, CharField_get_prep_value c value = Str s.
Proof. destruct value; simpl; eauto. Qed.

(** C4, as the code has it.  The field stores null for an empty value
    when its [null] flag is set, which is how the constructor leaves a
    field that permits blank values unless the caller passes a [null] of
    their own; and whatever the flags and the value, the prepared value is
    a string or null. *)
Theorem get_prep_value_null_for_empty c kwargs f value :
  InternalIdentifierField.__init__ kwargs = Ok f ->
  (flag_set f "null" -> empty_value value ->
   InternalIdentifierField.get_prep_value c f value = Ok None_) /\
  (kwargs !! "null" = None -> flag_set f "blank" -> empty_value value ->
   InternalIdentifierField.get_prep_value c f value = Ok None_) /\
  (exists r, InternalIdentifierField.get_prep_value c f value = Ok r /\
             (r = None_ \/ exists s, r = Str s)).
Proof.
  intros I.
  assert (Hnull : attrs f !! "null" =
    Some (default (Bool (truthy (default (Bool true) (kwargs !! "blank")))) (kwargs !! "null"))).
  { apply (identifier_field_attr kwargs); [exact I|reflexivity|].
    apply identifier_kwargs_null. }
  assert (Hblank : attrs f !! "blank" = Some (default (Bool true) (kwargs !! "blank"))).
  { apply (identifier_field_attr kwargs); [exact I|reflexivity|].
    apply identifier_kwargs_blank. }
  assert (Hset : flag_set f "null" -> empty_value value ->
                 InternalIdentifierField.get_prep_value c f value = Ok None_).
  { intros (n & En & Tn) Ev.
    rewrite (get_prep_value_of_null c f n value En), Tn.
    destruct Ev as [-> | ->]; reflexivity. }
  split; [exact Hset|]. split.
  - intros Enull (b & Eb & Tb). apply Hset.
    rewrite Enull in Hnull. simpl in Hnull.
    rewrite Hblank in Eb. injection Eb as <-.
    exists (Bool (truthy (default (Bool true) (kwargs !! "blank")))).
    split; [exact Hnull | exact Tb].
  - clear Hset Hblank. revert Hnull. generalize (default
      (Bool (truthy (default (Bool true) (kwargs !! "blank")))) (kwargs !! "null")).
    intros n Hnull.
    rewrite (get_prep_value_of_null c f n value Hnull).
    eexists. split; [reflexivity|].
    destruct (CharField_get_prep_value_text c value) as [E | [s E]]; rewrite E.
    + destruct (truthy n); eauto.
    + unfold or_. destruct (truthy n); [destruct (truthy (Str s))|]; eauto.
Qed.

Lemma get_prep_value_null_for_empty_witness :
  exists f,
    InternalIdentifierField.__init__ {[ "unique" := Bool true ]} = Ok f /\
    InternalIdentifierField.get_prep_value DefaultContext f (Str "") = Ok None_.
Proof.
  eexists. split; [vm_compute; reflexivity|].
  eapply (get_prep_value_null_for_empty DefaultContext {[ "unique" := Bool true ]}).
  - vm_compute. reflexivity.
  - reflexivity.
  - eexists. split; vm_compute; reflexivity.
  - right. reflexivity.
Defined.

(** C4, as the claim has it, fails: a field built with [blank=True] and
    [null=False] permits blank values and stores the empty string. *)
Lemma blank_field_stores_empty_string :
  exists f,
    InternalIdentifierField.__init__
      {[ "unique" := Bool true; "blank" := Bool true; "null" := Bool false ]} = Ok f /\
    flag_set f "blank" /\
    InternalIdentifierField.get_prep_value DefaultContext f (Str "") = Ok (Str "").
Proof.
  eexists. split; [vm_compute; reflexivity|]. split.
  - eexists. split; vm_compute; reflexivity.
  - vm_compute. reflexivity.
Qed.

Lemma identifier_field_has kwargs f k :
  InternalIdentifierField.__init__ kwargs = Ok f ->
  kept_as_passed k = true -> is_Some (Field_parameters !! k) ->
  is_Some (attrs f !! k).
Proof.
  intros I K [v P]. apply identifier_init_inv in I as (_ & f0 & I & ->).
  rewrite (Field_init_attrs _ _ _ I K).
  destruct (identifier_kwargs kwargs !! k) as [w|] eqn:E.
  - exists w. apply union_lookup_given, E.
  - exists v. rewrite lookup_union_r; [exact P | exact E].
Qed.

Lemma identifier_field_unique kwargs f :
  InternalIdentifierField.__init__ kwargs = Ok f ->
  is_Some (attrs f !! "_unique").
Proof.
  intros I. apply identifier_init_inv in I as (_ & f0 & I & ->).
  rewrite (Field_init_unique _ _ I). eauto.
Qed.

(** C10.  For a field that was constructed, from whatever arguments,
    [deconstruct] returns keyword arguments that hold the field's [null],
    [unique] and [blank] as they are now, and no [verbose_name] and no
    [help_text], whatever [models.Field.deconstruct] came up with. *)
Theorem deconstruct_keywords
    (super_deconstruct : Field -> object * string * list object * dict)
    (kwargs0 : dict) (self : Field) :
  InternalIdentifierField.__init__ kwargs0 = Ok self ->
  exists name path args kwargs null uniq blank,
    InternalIdentifierField.deconstruct super_deconstruct self
      = Ok (name, path, args, kwargs) /\
    getattr (attrs self) "null" = Ok null /\
    unique self = Ok uniq /\
    getattr (attrs self) "blank" = Ok blank /\
    kwargs !! "null" = Some null /\
    kwargs !! "unique" = Some uniq /\
    kwargs !! "blank" = Some blank /\
    kwargs !! "verbose_name" = None /\
    kwargs !! "help_text" = None.
Proof.
  intros I.
  destruct (identifier_field_has kwargs0 self "null" I) as [null En];
    [reflexivity | vm_compute; eauto |].
  destruct (identifier_field_has kwargs0 self "blank" I) as [blank Eb];
    [reflexivity | vm_compute; eauto |].
  destruct (identifier_field_has kwargs0 self "primary_key" I) as [pk Ep];
    [reflexivity | vm_compute; eauto |].
  destruct (identifier_field_unique kwargs0 self I) as [u Eu].
  unfold InternalIdentifierField.deconstruct, unique, getattr.
  destruct (super_deconstruct self) as [[[name path] args] kwargs].
  rewrite En, Eb, Eu, Ep. simpl.
  exists name, path, args. eexists. exists null, (or_ u pk), blank.
  split; [reflexivity|].
  repeat split; unfold pop.
  - do 2 (rewrite lookup_delete_ne by discriminate).
    do 2 (rewrite lookup_insert_ne by discriminate). apply lookup_insert_eq.
  - do 2 (rewrite lookup_delete_ne by discriminate).
    rewrite lookup_insert_ne by discriminate. apply lookup_insert_eq.
  - do 2 (rewrite lookup_delete_ne by discriminate). apply lookup_insert_eq.
  - rewrite lookup_delete_ne by discriminate. apply lookup_delete_eq.
  - apply lookup_delete_eq.
Qed.

Lemma deconstruct_keywords_witness :
  exists self,
    InternalIdentifierField.__init__
      {[ "unique" := Bool true; "verbose_name" := Str "code" ]} = Ok self /\
    exists name path args kwargs,
      InternalIdentifierField.deconstruct
        (fun f => (None_, "oscar.models.fields.decimal.InternalIdentifierField", [],
                   attrs f))
        self = Ok (name, path, args, kwargs) /\
      kwargs !! "unique" = Some (Bool true) /\
      kwargs !! "verbose_name" = None.
Proof.
  eexists. split; [vm_compute; reflexivity|].
  edestruct (deconstruct_keywords
    (fun f => (None_, "oscar.models.fields.decimal.InternalIdentifierField", [],
               attrs f))
    {[ "unique" := Bool true; "verbose_name" := Str "code" ]})
    as (name & path & args & kwargs & null & uniq & blank & D & _ & U & _ & _ & Ku & _ & Kv & _).
  - vm_compute. reflexivity.
  - exists name, path, args, kwargs. split; [exact D|]. split; [|exact Kv].
    rewrite Ku. f_equal.
    vm_compute in U. injection U as <-. reflexivity.
Defined.

(** ** Money and quantity fields *)

Lemma DecimalField_init_inv kwargs f :
  DecimalField___init__ kwargs = Ok f ->
  attrs f !! "max_digits" = Some (get kwargs "max_digits") /\
  attrs f !! "decimal_places" = Some (get kwargs "decimal_places") /\
  exists f0, Field___init__ (delete "max_digits" (delete "decimal_places" kwargs)) = Ok f0 /\
    forall k, k <> "max_digits" -> k <> "decimal_places" -> attrs f !! k = attrs f0 !! k.
Proof.
  unfold DecimalField___init__.
  destruct (Field___init__ _) as [f0|] eqn:E; simpl; [|discriminate].
  intros [= <-]. simpl. split; [apply lookup_insert_eq|]. split.
  - rewrite lookup_insert_ne by discriminate. apply lookup_insert_eq.
  - exists f0. split; [reflexivity|]. intros k N1 N2.
    rewrite !lookup_insert_ne by congruence. reflexivity.
Qed.

Lemma Field_init_accepts kwargs :
  dom kwargs ⊆ dom Field_parameters ->
  Field___init__ kwargs = Ok (mkField (Field_attributes (kwargs ∪ Field_parameters)) []).
Proof.
  intros Hdom.
  assert (V : kwargs !! "validators" = None).
  { apply not_elem_of_dom. intros Hk. apply Hdom, elem_of_dom in Hk as [v Hk].
    vm_compute in Hk. discriminate. }
  unfold Field___init__, Field_validators. rewrite V, (delete_id _ _ V).
  case_decide; [reflexivity | contradiction].
Qed.

Lemma DecimalField_init_accepts kwargs :
  dom kwargs ⊆ dom Field_parameters ∪ {[ "max_digits"; "decimal_places" ]} ->
  exists f, DecimalField___init__ kwargs = Ok f.
Proof.
  intros Hdom. unfold DecimalField___init__.
  rewrite Field_init_accepts; [simpl; eauto|].
  intros k Hk.
  apply elem_of_dom in Hk as [v Hk].
  apply lookup_delete_Some in Hk as [N1 Hk].
  apply lookup_delete_Some in Hk as [N2 Hk].
  specialize (Hdom k (elem_of_dom_2 _ _ _ Hk)).
  apply elem_of_union in Hdom as [Hdom|Hdom]; [exact Hdom|].
  apply elem_of_union in Hdom as [Hdom|Hdom];
    apply elem_of_singleton in Hdom; congruence.
Qed.

Lemma accepted_keywords (kwargs kwargs' : dict) :
  dom kwargs ⊆ dom Field_parameters ->
  (forall k, is_Some (kwargs' !! k) ->
     is_Some (kwargs !! k) \/ k = "max_digits" \/ k = "decimal_places" \/ k = "default") ->
  dom kwargs' ⊆ dom Field_parameters ∪ {[ "max_digits"; "decimal_places" ]}.
Proof.
  intros Hdom Hk k Hin. apply elem_of_dom in Hin.
  destruct (Hk k Hin) as [H | [-> | [-> | ->]]].
  - apply elem_of_union_l, Hdom, elem_of_dom, H.
  - apply elem_of_union_r, elem_of_union_l, elem_of_singleton. reflexivity.
  - apply elem_of_union_r, elem_of_union_r, elem_of_singleton. reflexivity.
  - apply elem_of_union_l, elem_of_dom. vm_compute. eauto.
Qed.

(** C7.  When the caller passes none of [decimal_places], [max_digits]
    and [default], a money field gets 9 decimal places and 36 digits, and
    a quantity field gets 9 decimal places, 36 digits and the default 0;
    and the constructors succeed once Django accepts the other keywords. *)
Theorem money_and_quantity_defaults (kwargs : dict) :
  kwargs !! "decimal_places" = None ->
  kwargs !! "max_digits" = None ->
  kwargs !! "default" = None ->
  (forall f, MoneyValueField.__init__ kwargs = Ok f ->
     attrs f !! "decimal_places" = Some (Int 9) /\
     attrs f !! "max_digits" = Some (Int 36)) /\
  (forall f, QuantityField.__init__ kwargs = Ok f ->
     attrs f !! "decimal_places" = Some (Int 9) /\
     attrs f !! "max_digits" = Some (Int 36) /\
     attrs f !! "default" = Some (Int 0)) /\
  (dom kwargs ⊆ dom Field_parameters ->
     (exists f, MoneyValueField.__init__ kwargs = Ok f) /\
     (exists f, QuantityField.__init__ kwargs = Ok f)).
Proof.
  intros Edp Emd Edf. split; [|split].
  - intros f I. unfold MoneyValueField.__init__, FormattedDecimalField.__init__ in I.
    apply DecimalField_init_inv in I as (Hmd & Hdp & _).
    rewrite Hmd, Hdp. unfold get.
    rewrite setdefault_absent by (rewrite setdefault_other by discriminate; exact Emd).
    rewrite setdefault_other by discriminate.
    rewrite setdefault_absent by exact Edp. done.
  - intros f I. unfold QuantityField.__init__, FormattedDecimalField.__init__ in I.
    apply DecimalField_init_inv in I as (Hmd & Hdp & f0 & I0 & Hrest).
    rewrite Hmd, Hdp. unfold get.
    rewrite !(setdefault_other "default") by discriminate.
    rewrite setdefault_absent by (rewrite setdefault_other by discriminate; exact Emd).
    rewrite setdefault_other by discriminate.
    rewrite setdefault_absent by exact Edp.
    split; [done|]. split; [done|].
    rewrite Hrest by discriminate.
    rewrite (Field_init_attrs _ _ _ I0) by reflexivity.
    apply union_lookup_given.
    rewrite !lookup_delete_ne by discriminate.
    apply setdefault_absent.
    rewrite !setdefault_other by discriminate. exact Edf.
  - intros Hdom. split.
    + apply DecimalField_init_accepts, (accepted_keywords kwargs); [exact Hdom|].
      intros k Hk. rewrite !setdefault_lookup in Hk.
      repeat case_decide; subst; auto.
    + apply DecimalField_init_accepts, (accepted_keywords kwargs); [exact Hdom|].
      intros k Hk. rewrite !setdefault_lookup in Hk.
      repeat case_decide; subst; auto.
Qed.

Lemma money_and_quantity_defaults_witness :
  exists f,
    QuantityField.__init__ {[ "null" := Bool true ]} = Ok f /\
    attrs f !! "decimal_places" = Some (Int 9) /\
    attrs f !! "max_digits" = Some (Int 36) /\
    attrs f !! "default" = Some (Int 0).
Proof.
  destruct (money_and_quantity_defaults {[ "null" := Bool true ]})
    as (_ & Q & S); [reflexivity..|].
  destruct S as (_ & f & I).
  - intros k Hk. apply elem_of_dom in Hk as [v Hk].
    apply lookup_singleton_Some in Hk as [<- _].
    apply elem_of_dom. vm_compute. eauto.
  - exists f. split; [exact I|]. apply Q, I.
Defined.

(** ** The formatted decimal field *)

(** C8.  When the value stored on the object is no number, be it null, a
    string or an instance of some other class, [value_from_object] returns
    null; a number, and nothing else, is turned into a [Decimal] through
    its text and formatted. *)
Theorem value_from_object_of_non_number py c (self : Field) (obj : dict) (value : object) :
  Field_value_from_object self obj = Ok value ->
  (is_Number value = false ->
   FormattedDecimalField.value_from_object py c self obj = Ok None_) /\
  (is_Number value = true ->
   FormattedDecimalField.value_from_object py c self obj =
   (d <- of_string (str c value) ;;
    s <- FormattedDecimalField.format_decimal py c d 100 100 ;;
    Ok (Str s))).
Proof.
  intros E. unfold FormattedDecimalField.value_from_object.
  rewrite E. simpl. split; intros ->; reflexivity.
Qed.

Lemma value_from_object_of_non_number_witness :
  FormattedDecimalField.value_from_object Python3 DefaultContext
    (mkField {[ "attname" := Str "price" ]} [])
    {[ "price" := Str "12.50" ]} = Ok None_.
Proof.
  apply (value_from_object_of_non_number Python3 DefaultContext
           (mkField {[ "attname" := Str "price" ]} [])
           {[ "price" := Str "12.50" ]} (Str "12.50")); reflexivity.
Defined.

Example value_from_object_of_number :
  FormattedDecimalField.value_from_object Python3 DefaultContext
    (mkField {[ "attname" := Str "price" ]} [])
    {[ "price" := Float "1.25e-07" ]} = Ok (Str "0.000000125").
Proof. vm_compute. reflexivity. Qed.

Example value_from_object_of_null :
  FormattedDecimalField.value_from_object Python3 DefaultContext
    (mkField {[ "attname" := Str "price" ]} [])
    {[ "price" := None_ ]} = Ok None_.
Proof. vm_compute. reflexivity. Qed.

(** A number of a class other than the built-in ones, a
    [fractions.Fraction] say, goes the way of the numbers: through its
    text, which [Decimal] takes or refuses. *)
Example value_from_object_of_fraction :
  FormattedDecimalField.value_from_object Python3 DefaultContext
    (mkField {[ "attname" := Str "price" ]} [])
    {[ "price" := Object "Fraction" true true "3" ]} = Ok (Str "3") /\
  FormattedDecimalField.value_from_object Python3 DefaultContext
    (mkField {[ "attname" := Str "price" ]} [])
    {[ "price" := Object "Fraction" true true "1/3" ]} = Raise InvalidOperation /\
  FormattedDecimalField.value_from_object Python3 DefaultContext
    (mkField {[ "attname" := Str "price" ]} [])
    {[ "price" := Object "Money" false true "3" ]} = Ok None_.
Proof. repeat split; vm_compute; reflexivity. Qed.

(** ** The identifier validator *)

(** C5 does not hold of the code: the pattern is searched for, not matched
    against the whole text, so a text that merely contains a lower-case
    letter followed by a lower-case letter or underscore is accepted. *)
Theorem IdentifierValidator_accepts_non_identifier :
  validate DefaultContext IdentifierValidator (Str "1ab") = Ok tt /\
  is_identifier "1ab" = false /\
  validate DefaultContext IdentifierValidator (Str "Not an identifier!") = Ok tt /\
  is_identifier "Not an identifier!" = false.
Proof. vm_compute. repeat split; reflexivity. Qed.

(** ** Formatting *)

Lemma chars_app (s t : string) : chars (s +:+ t) = chars s ++ chars t.
Proof. induction s as [|ch s IH]; simpl; [reflexivity|]. f_equal. exact IH. Qed.

Lemma chars_digits (ds : list digit) :
  Forall fixed_point_char (chars (string_of_digits ds)).
Proof.
  induction ds as [|d ds IH]; simpl; constructor; [|exact IH].
  left. destruct d; simpl; eauto.
Qed.

Lemma len_map {A B} (f : A -> B) (l : list A) : len (map f l) = len l.
Proof. unfold len. rewrite length_map. reflexivity. Qed.

Lemma format_f_fixed_point c (d : Decimal) :
  finite d -> Forall fixed_point_char (chars (format_f c d)).
Proof.
  unfold finite, _is_special, format_f. destruct (_exp d) as [e| | |]; try discriminate.
  intros _.
  set (d' := if negb (nonzero d) && (0 <? e) then _ else d).
  set (e' := match _exp d' with ExpInt x => x | _ => e end).
  assert (Hsign : Forall fixed_point_char (chars (if _sign d then "-" else ""))).
  { destruct (_sign d); simpl; [|constructor].
    apply Forall_cons. split; [|constructor]. right. right. reflexivity. }
  assert (Hfrac : forall ds, Forall fixed_point_char
            (chars match ds with [] => "" | _ => "." +:+ string_of_digits ds end)).
  { intros [|x ds]; [constructor|].
    rewrite chars_app. apply Forall_app. split; [|apply chars_digits].
    simpl. apply Forall_cons. split; [|constructor]. right. left. reflexivity. }
  destruct (e' + len (_int d') <? 0); [|destruct (len (_int d') <? e' + len (_int d'))];
    rewrite !chars_app, !Forall_app; auto using chars_digits.
Qed.

Lemma fixed_point_no_exponent (s : string) :
  Forall fixed_point_char (chars s) ->
  ("E"%char ∉ chars s) /\ ("e"%char ∉ chars s).
Proof.
  intros H. rewrite Forall_forall in H.
  split; intros Hin; apply H in Hin as [[d Hd] | [Hd | Hd]]; discriminate.
Qed.

(** What [format_decimal] does once the argument has been normalized to a
    finite number. *)
Lemma format_decimal_finite py c value max_digits exponent_limit val e :
  normalize c value = Ok val -> _exp val = ExpInt e ->
  FormattedDecimalField.format_decimal py c value max_digits exponent_limit =
  if exponent_limit <? e then Raise (ValueError (too_large c value))
  else if e <? - exponent_limit then Raise (ValueError (too_small c value))
  else if max_digits <? len (_int val) then Raise (ValueError (too_many_digits c value))
  else Ok (format_f c val).
Proof.
  intros N E. unfold FormattedDecimalField.format_decimal, as_tuple.
  rewrite N. simpl. rewrite E. simpl. rewrite len_map.
  destruct (exponent_limit <? e); [reflexivity|].
  simpl. destruct (e <? - exponent_limit); reflexivity.
Qed.

(** C1.  When the normalized value has an exponent within the exponent
    limit and no more digits than the digit limit, [format_decimal]
    returns a string, the fixed-point rendering of the normalized value:
    digits, at most one point and a leading minus sign, and neither [E]
    nor [e]. *)
Theorem format_decimal_never_scientific
    py c (value : Decimal) (max_digits exponent_limit : Z)
    (val : Decimal) (sign : bool) (digits : list Z) (e : Z) :
  normalize c value = Ok val ->
  as_tuple val = (sign, digits, ExpInt e) ->
  Z.abs e <= exponent_limit ->
  len digits <= max_digits ->
  exists s,
    FormattedDecimalField.format_decimal py c value max_digits exponent_limit = Ok s /\
    s = format_f c val /\
    Forall fixed_point_char (chars s) /\
    ("E"%char ∉ chars s) /\ ("e"%char ∉ chars s).
Proof.
  intros N T He Hd. unfold as_tuple in T. injection T as <- <- E.
  rewrite len_map in Hd.
  exists (format_f c val).
  rewrite (format_decimal_finite py c value max_digits exponent_limit val e N E).
  assert (F : Forall fixed_point_char (chars (format_f c val))).
  { apply format_f_fixed_point. unfold finite, _is_special. rewrite E. reflexivity. }
  destruct (Z.ltb_spec exponent_limit e); [lia|].
  destruct (Z.ltb_spec e (- exponent_limit)); [lia|].
  destruct (Z.ltb_spec max_digits (len (_int val))); [lia|].
  split; [reflexivity|]. split; [reflexivity|]. split; [exact F|].
  apply fixed_point_no_exponent, F.
Qed.

Lemma format_decimal_never_scientific_witness :
  FormattedDecimalField.format_decimal Python3 DefaultContext
    (mkDecimal true [d1; d2; d5; d0; d0] (ExpInt (-12))) 100 100
  = Ok "-0.0000000125".
Proof.
  destruct (format_decimal_never_scientific Python3 DefaultContext
              (mkDecimal true [d1; d2; d5; d0; d0] (ExpInt (-12))) 100 100
              (mkDecimal true [d1; d2; d5] (ExpInt (-10))) true [1; 2; 5] (-10))
    as (s & -> & -> & _); [reflexivity | reflexivity | lia | vm_compute; discriminate |].
  reflexivity.
Defined.

(** C2, as the code has it.  For an argument that [normalize] returns
    as a finite number [val] with exponent [e], and as the same number
    (it was neither rounded to the precision of the context nor out of
    its range), [format_decimal] raises exactly when that number is out of
    range, and then a [ValueError]: the exponent too large when [e] is
    above the limit; else the exponent too small when [e] is below the
    negated limit; else too many digits when the coefficient is longer
    than [max_digits]; and otherwise it returns the fixed-point string.

    The module raises these three and the configuration error of the
    identifier field, and [format_decimal] asserts that its argument is a
    [Decimal]; whatever else comes out of a method of the module has come
    out of a call it makes: of [normalize], of the comparison of an
    exponent that is a letter, of Django's constructors and attributes,
    of [Decimal] and its division. *)
Theorem format_decimal_errors py c :
  (forall (value val : Decimal) (max_digits exponent_limit e : Z),
     normalize c value = Ok val -> _exp val = ExpInt e -> same_number val value ->
     let r := FormattedDecimalField.format_decimal py c value max_digits exponent_limit in
     (exponent_limit < e -> r = Raise (ValueError (too_large c value))) /\
     (e <= exponent_limit -> e < - exponent_limit ->
      r = Raise (ValueError (too_small c value))) /\
     (- exponent_limit <= e <= exponent_limit -> max_digits < len (_int val) ->
      r = Raise (ValueError (too_many_digits c value))) /\
     (- exponent_limit <= e <= exponent_limit -> len (_int val) <= max_digits ->
      r = Ok (format_f c val)) /\
     ((exists err, r = Raise err) <->
      exponent_limit < e \/ e < - exponent_limit \/ max_digits < len (_int val)) /\
     (forall err, r = Raise err -> exists msg, err = ValueError msg)) /\
  (forall (value : object) (max_digits exponent_limit : Z) err,
     FormattedDecimalField.format_decimal_call py c value max_digits exponent_limit
     = Raise err ->
     ((forall d, value <> Dec d) /\ err = AssertionError) \/
     exists d, value = Dec d /\
       (err = ValueError (too_large c d) \/ err = ValueError (too_small c d) \/
        err = ValueError (too_many_digits c d) \/
        normalize c d = Raise err \/
        exists val, normalize c d = Ok val /\
          (gt py (_exp val) exponent_limit = Raise err \/
           lt py (_exp val) (- exponent_limit) = Raise err))) /\
  (forall (kwargs : dict) err,
     InternalIdentifierField.__init__ kwargs = Raise err ->
     (kwargs !! "unique" = None /\
      err = ValueError
        "Error! You must explicitly set the `unique` flag for `InternalIdentifierField`s.")
     \/ CharField___init__ (identifier_kwargs kwargs) = Raise err) /\
  (forall (f : Field) (value : object) err,
     InternalIdentifierField.get_prep_value c f value = Raise err ->
     getattr (attrs f) "null" = Raise err) /\
  (forall (super_deconstruct : Field -> object * string * list object * dict)
          (f : Field) err,
     InternalIdentifierField.deconstruct super_deconstruct f = Raise err ->
     getattr (attrs f) "null" = Raise err \/ unique f = Raise err \/
     getattr (attrs f) "blank" = Raise err) /\
  (forall (super_widget_attrs : DecimalFormField -> Widget -> dict)
          (self : DecimalFormField) (widget : Widget) err,
     FormattedDecimalFormField.widget_attrs super_widget_attrs c self widget = Raise err ->
     match decimal_places self with
     | None => err = TypeError
     | Some dp => (one <- of_string "1" ;; div c one (pow10 dp)) = Raise err
     end) /\
  (forall (f : Field) (obj : dict) err,
     FormattedDecimalField.value_from_object py c f obj = Raise err ->
     Field_value_from_object f obj = Raise err \/
     exists v, Field_value_from_object f obj = Ok v /\
       (of_string (str c v) = Raise err \/
        exists d, of_string (str c v) = Ok d /\
          FormattedDecimalField.format_decimal py c d 100 100 = Raise err)) /\
  (forall (kwargs : dict) err,
     MoneyValueField.__init__ kwargs = Raise err \/
     QuantityField.__init__ kwargs = Raise err ->
     exists kwargs', DecimalField___init__ kwargs' = Raise err).
Proof.
  split; [|split; [|split; [|split; [|split; [|split; [|split]]]]]].
  - intros value val max_digits exponent_limit e N E _ r. subst r.
    rewrite (format_decimal_finite py c value max_digits exponent_limit val e N E).
    destruct (Z.ltb_spec exponent_limit e);
      [|destruct (Z.ltb_spec e (- exponent_limit));
        [|destruct (Z.ltb_spec max_digits (len (_int val)))]].
    all: repeat split; try (intros; lia); try reflexivity; eauto.
    all: try (intros [err H']; discriminate).
    all: try (intros err [= <-]; eauto).
    all: try discriminate.
  - intros value max_digits exponent_limit err.
    destruct value as [| | | | | |d| | |];
      try (intros [= <-]; left; split; [discriminate | reflexivity]).
    cbn [FormattedDecimalField.format_decimal_call]. intros H. right. exists d.
    split; [reflexivity|]. revert H.
    unfold FormattedDecimalField.format_decimal, as_tuple.
    destruct (normalize c d) as [val|e0]; cbn [bind]; [|intros [= <-]; auto].
    destruct (gt py (_exp val) exponent_limit) as [[]|e1] eqn:G; cbn [bind];
      [intros [= <-]; auto | | intros [= <-]; eauto 10].
    destruct (lt py (_exp val) (- exponent_limit)) as [[]|e2] eqn:L; cbn [bind];
      [intros [= <-]; auto | | intros [= <-]; eauto 10].
    destruct (max_digits <? _); [intros [= <-]; auto | discriminate].
  - intros kwargs err. unfold InternalIdentifierField.__init__.
    case_bool_decide as U; cbn [negb].
    + fold (identifier_kwargs kwargs).
      destruct (CharField___init__ (identifier_kwargs kwargs)); cbn [bind];
        [discriminate | intros [= <-]; auto].
    + intros [= <-]. left. split; [|reflexivity].
      destruct (kwargs !! "unique"); [exfalso; apply U; eauto | reflexivity].
  - intros f value err. unfold InternalIdentifierField.get_prep_value.
    destruct (getattr (attrs f) "null") as [n|]; cbn [bind]; [|intros [= <-]; reflexivity].
    destruct (truthy n); discriminate.
  - intros super_deconstruct f err. unfold InternalIdentifierField.deconstruct.
    destruct (super_deconstruct f) as [[[name path] args] kwargs].
    destruct (getattr (attrs f) "null"); cbn [bind]; [|intros [= <-]; auto].
    destruct (unique f); cbn [bind]; [|intros [= <-]; auto].
    destruct (getattr (attrs f) "blank"); cbn [bind]; [discriminate | intros [= <-]; auto].
  - intros super_widget_attrs self widget err.
    unfold FormattedDecimalFormField.widget_attrs.
    destruct (is_NumberInput widget && _); cbn [bind]; [|discriminate].
    destruct (decimal_places self) as [dp|]; cbn [bind]; [|intros [= <-]; reflexivity].
    destruct (dp <=? _); cbn [bind]; [|discriminate].
    destruct (of_string "1") as [one|]; cbn [bind]; [|intros [= <-]; reflexivity].
    destruct (div c one (pow10 dp)); cbn [bind]; [discriminate | intros [= <-]; reflexivity].
  - intros f obj err. unfold FormattedDecimalField.value_from_object.
    destruct (Field_value_from_object f obj) as [v|]; cbn [bind]; [|intros [= <-]; auto].
    destruct (is_Number v); [|discriminate].
    intros H. right. exists v. split; [reflexivity|]. revert H.
    destruct (of_string (str c v)) as [d|]; cbn [bind]; [|intros [= <-]; auto].
    destruct (FormattedDecimalField.format_decimal py c d 100 100) eqn:F; cbn [bind];
      [discriminate | intros [= <-]; eauto].
  - intros kwargs err [H | H]; eexists; exact H.
Qed.

Lemma format_decimal_errors_witness :
  FormattedDecimalField.format_decimal Python3 DefaultContext
    (mkDecimal false [d5; d0] (ExpInt 100)) 100 100
  = Raise (ValueError
      "Error! Exponent is too large for formatting: Decimal('5.0E+101').").
Proof.
  apply (proj1 (format_decimal_errors Python3 DefaultContext)
           (mkDecimal false [d5; d0] (ExpInt 100))
           (mkDecimal false [d5] (ExpInt 101)) 100 100 101);
    [reflexivity | reflexivity | reflexivity | lia].
Defined.

(** C2, as the claim has it, fails.  A [Decimal] beyond the exponent range
    of the arithmetic context does not get as far as the checks: its
    normalization raises [decimal.Overflow], which is no [ValueError].
    And an argument that is no [Decimal] stops at the assertion, an error
    of the module's own that is none of the four. *)
Lemma format_decimal_raises_Overflow :
  let value := mkDecimal false [d1] (ExpInt 1000000) in
  finite value /\ well_formed value /\ 100 < exp_of value /\
  FormattedDecimalField.format_decimal Python3 DefaultContext value 100 100 = Raise Overflow /\
  (forall msg, Overflow <> ValueError msg) /\
  FormattedDecimalField.format_decimal_call Python3 DefaultContext (Str "1.5") 100 100
  = Raise AssertionError /\
  (forall msg, AssertionError <> ValueError msg).
Proof.
  repeat split; try discriminate; vm_compute; eauto.
Qed.

(** Left out of C2: a number of more digits than the precision of the
    context is rounded by [normalize] before its digits are counted, and
    formatted as the number it was rounded to. *)
Example format_decimal_rounds :
  FormattedDecimalField.format_decimal Python3 DefaultContext
    (mkDecimal false (replicate 30 d7) (ExpInt 0)) 100 100
  = Ok "777777777777777777777777777800".
Proof. vm_compute. reflexivity. Qed.

(** The special values do not reach the checks either: a signaling NaN
    stops in [normalize]; an infinity and a quiet NaN have a letter for an
    exponent, which Python 3 refuses to compare with the limit and
    Python 2 takes for larger than it. *)
Example format_decimal_sNaN :
  FormattedDecimalField.format_decimal Python3 DefaultContext
    (mkDecimal false [] ExpN) 100 100 = Raise InvalidOperation.
Proof. reflexivity. Qed.

Example format_decimal_Infinity :
  FormattedDecimalField.format_decimal Python3 DefaultContext
    (mkDecimal false [d0] ExpF) 100 100 = Raise TypeError /\
  FormattedDecimalField.format_decimal Python2 DefaultContext
    (mkDecimal false [d0] ExpF) 100 100
  = Raise (ValueError
      "Error! Exponent is too large for formatting: Decimal('Infinity').").
Proof. split; reflexivity. Qed.

(** ** The step of a number input *)

Lemma div_eucl_pair (a b : Z) : Z.div_eucl a b = (a / b, a mod b).
Proof. unfold Z.div, Z.modulo. destruct (Z.div_eucl a b). reflexivity. Qed.

Lemma div_eucl_pow10 (a b : Z) :
  0 <= a <= b -> Z.div_eucl (1 * 10 ^ b) (10 ^ a) = (10 ^ (b - a), 0).
Proof.
  intros H. rewrite div_eucl_pair, Z.mul_1_l.
  replace (10 ^ b) with (10 ^ (b - a) * 10 ^ a)
    by (rewrite <- Z.pow_add_r by lia; f_equal; lia).
  assert (10 ^ a <> 0) by (apply Z.pow_nonzero; lia).
  rewrite Z.div_mul by assumption. rewrite Z.mod_mul by assumption. reflexivity.
Qed.

Lemma to_ideal_pow10 (k : nat) : forall (fuel : nat) (e ideal_exp : Z),
  (k <= fuel)%nat -> e + Z.of_nat k <= ideal_exp ->
  to_ideal fuel (10 ^ Z.of_nat k) e ideal_exp = (1, e + Z.of_nat k).
Proof.
  induction k as [|k IH]; intros fuel e ideal_exp Hf He.
  - replace (e + Z.of_nat 0) with e by lia.
    destruct fuel; simpl; [reflexivity|].
    rewrite andb_false_r. reflexivity.
  - destruct fuel as [|fuel]; [lia|]. cbn [to_ideal].
    replace (10 ^ Z.of_nat (S k)) with (10 ^ Z.of_nat k * 10)
      by (rewrite Nat2Z.inj_succ, Z.pow_succ_r by lia; lia).
    rewrite Z.mod_mul, Z.div_mul by lia.
    destruct (Z.ltb_spec e ideal_exp); [|lia]. simpl.
    rewrite IH by lia. f_equal. lia.
Qed.

Lemma fix_one c (n : Z) :
  1 <= prec c -> 0 <= Emax c -> Etiny c <= - n -> 0 <= n ->
  _fix c (mkDecimal false [d1] (ExpInt (- n))) = Ok (mkDecimal false [d1] (ExpInt (- n))).
Proof.
  intros Hp Hmax Htiny Hn. unfold _fix, Etop, Etiny in *. simpl.
  change (len [d1]) with 1.
  destruct (Z.ltb_spec (Emax c - prec c + 1) (1 + - n - prec c)); [lia|].
  destruct (Z.ltb_spec (1 + - n - prec c) (Emin c - prec c + 1)).
  - destruct (Z.ltb_spec (- n) (Emin c - prec c + 1)); [lia | reflexivity].
  - destruct (Z.ltb_spec (- n) (1 + - n - prec c)); [lia | reflexivity].
Qed.

(** [Decimal('1') / 10 ** n] is exactly [1E-n] when the context can hold
    it, whatever its precision. *)
Lemma one_over_pow10 c (n : Z) :
  1 <= prec c -> 0 <= Emax c -> Etiny c <= - n -> 0 <= n <= 5 ->
  div c (mkDecimal false [d1] (ExpInt 0)) (pow10 n)
  = Ok (mkDecimal false [d1] (ExpInt (- n))).
Proof.
  intros Hp Hmax Htiny Hn. unfold pow10.
  destruct (Z.leb_spec 0 n); [|lia]. unfold div, __truediv__.
  assert (Hof : of_int (10 ^ n) = mkDecimal false (d1 :: zeros n) (ExpInt 0)
                /\ int_of_digits (d1 :: zeros n) = 10 ^ n
                /\ len (d1 :: zeros n) = n + 1).
  { assert (n = 0 \/ n = 1 \/ n = 2 \/ n = 3 \/ n = 4 \/ n = 5) as Hc by lia.
    destruct Hc as [-> | [-> | [-> | [-> | [-> | ->]]]]]; vm_compute; auto. }
  destruct Hof as (-> & Hint & Hlen). cbn [_exp _sign _int xorb].
  assert (Hnz : nonzero (mkDecimal false (d1 :: zeros n) (ExpInt 0)) = true).
  { unfold nonzero. cbn [_is_special _exp _int orb].
    rewrite bool_decide_eq_false_2; [reflexivity|]. intros [=]. }
  rewrite Hnz. cbn [negb nonzero _is_special _exp _int orb].
  change (bool_decide ([d1] = [d0])) with false. cbn [negb].
  rewrite Hint, Hlen. change (len [d1]) with 1. change (int_of_digits [d1]) with 1.
  set (shift := n + 1 - 1 + prec c + 1).
  destruct (Z.leb_spec 0 shift); [|lia].
  rewrite div_eucl_pow10 by lia. change (0 =? 0) with true. cbn [negb].
  replace (shift - n) with (Z.of_nat (Z.to_nat (prec c + 1))) by lia.
  rewrite to_ideal_pow10 by lia.
  replace (0 - 0 - shift + Z.of_nat (Z.to_nat (prec c + 1))) with (- n) by lia.
  change (digits_of_int 1) with [d1].
  apply fix_one; lia.
Qed.

Lemma format_f_fraction c (n : Z) :
  0 <= n <= 5 ->
  format_f c (mkDecimal false [d1] (ExpInt (- n))) = fixed_point_fraction n.
Proof.
  intros Hn.
  assert (n = 0 \/ n = 1 \/ n = 2 \/ n = 3 \/ n = 4 \/ n = 5) as Hc by lia.
  destruct Hc as [-> | [-> | [-> | [-> | [-> | ->]]]]]; reflexivity.
Qed.

(** C6, as the code has it.  On a number input without a [step], a form
    field whose [decimal_places] is a number [dp] of places, zero or
    more, sets the widget's [step] to [1/10^dp] in fixed-point notation
    when [dp] is at most 5 and to ["any"] when it is more, and hands the
    widget on to [forms.DecimalField.widget_attrs].  The arithmetic
    context is any that holds five decimal places, as the default one
    does. *)
Theorem widget_attrs_step
    (super_widget_attrs : DecimalFormField -> Widget -> dict)
    (c : Context) (self : DecimalFormField) (widget : Widget) (dp : Z) :
  1 <= prec c -> 0 <= Emax c -> Etiny c <= -5 ->
  is_NumberInput widget = true ->
  w_attrs widget !! "step" = None ->
  decimal_places self = Some dp ->
  0 <= dp ->
  let widget' :=
    mkWidget true (<["step" := Str (step_hint dp)]> (w_attrs widget)) in
  FormattedDecimalFormField.widget_attrs super_widget_attrs c self widget
  = Ok (widget', super_widget_attrs self widget') /\
  (dp <= 5 -> step_hint dp = fixed_point_fraction dp) /\
  (5 < dp -> step_hint dp = "any") /\
  step_hint dp ∈ ["1"; "0.1"; "0.01"; "0.001"; "0.0001"; "0.00001"; "any"].
Proof.
  intros Hp Hmax Htiny Hnum Hstep Hdp Hnn widget'.
  split; [|split; [|split]].
  - unfold FormattedDecimalFormField.widget_attrs.
    rewrite Hnum, Hstep, Hdp. simpl.
    unfold FormattedDecimalFormField.MAX_DECIMAL_PLACES_FOR_STEP, step_hint in *.
    subst widget'. unfold step_hint.
    destruct (Z.leb_spec dp 5).
    + change (of_string "1") with (Ok (mkDecimal false [d1] (ExpInt 0))).
      cbn [bind]. rewrite one_over_pow10 by lia. cbn [bind].
      rewrite format_f_fraction by lia.
      unfold setdefault. rewrite Hstep. reflexivity.
    + cbn [bind]. unfold setdefault. rewrite Hstep. reflexivity.
  - unfold step_hint. destruct (Z.leb_spec dp 5); [reflexivity | lia].
  - unfold step_hint. destruct (Z.leb_spec dp 5); [lia | reflexivity].
  - unfold step_hint. destruct (Z.leb_spec dp 5).
    + assert (dp = 0 \/ dp = 1 \/ dp = 2 \/ dp = 3 \/ dp = 4 \/ dp = 5) as Hc by lia.
      destruct Hc as [-> | [-> | [-> | [-> | [-> | ->]]]]]; vm_compute;
        repeat (first [apply list_elem_of_here | apply list_elem_of_further]).
    + repeat (first [apply list_elem_of_here | apply list_elem_of_further]).
Qed.

Lemma widget_attrs_step_witness :
  FormattedDecimalFormField.widget_attrs (fun _ _ => ∅) DefaultContext
    (mkDecimalFormField (Some 36) (Some 2))
    (mkWidget true {[ "class" := Str "amount" ]})
  = Ok (mkWidget true (<["step" := Str "0.01"]> {[ "class" := Str "amount" ]}), ∅).
Proof.
  refine (proj1 (widget_attrs_step (fun _ _ => ∅) DefaultContext
           (mkDecimalFormField (Some 36) (Some 2))
           (mkWidget true {[ "class" := Str "amount" ]}) 2 _ _ _ _ _ _ _));
    [vm_compute; discriminate | vm_compute; discriminate | vm_compute; discriminate
    | reflexivity | reflexivity | reflexivity | lia].
Defined.

(** C6, as the claim has it, fails, in two ways.  The quotient is
    computed in the arithmetic context of the thread: in a context of one
    digit that has no negative exponent, one tenth is rounded to zero, and
    the step for one decimal place is ["0"].  And a form field without
    [decimal_places], which is how [forms.DecimalField] is built when
    none is given, raises [TypeError] and sets no step at all. *)
Lemma widget_attrs_step_not_for_every_field :
  FormattedDecimalFormField.widget_attrs (fun _ _ => ∅)
    (mkContext 1 ROUND_HALF_EVEN 0 0 true)
    (mkDecimalFormField None (Some 1)) (mkWidget true ∅)
  = Ok (mkWidget true {[ "step" := Str "0" ]}, ∅) /\
  fixed_point_fraction 1 = "0.1" /\
  FormattedDecimalFormField.widget_attrs (fun _ _ => ∅) DefaultContext
    (mkDecimalFormField None None) (mkWidget true ∅) = Raise TypeError.
Proof. repeat split; vm_compute; reflexivity. Qed.

(** Outside the case of the claim: a widget that is no number input, or
    has a [step] already, is left as it is; a field without
    [decimal_places], or with a negative one, raises [TypeError]. *)
Lemma widget_attrs_untouched
    (super_widget_attrs : DecimalFormField -> Widget -> dict)
    (c : Context) (self : DecimalFormField) (widget : Widget) :
  is_NumberInput widget = false \/ is_Some (w_attrs widget !! "step") ->
  FormattedDecimalFormField.widget_attrs super_widget_attrs c self widget
  = Ok (widget, super_widget_attrs self widget).
Proof.
  intros H. unfold FormattedDecimalFormField.widget_attrs.
  destruct H as [-> | H]; [reflexivity|].
  rewrite (bool_decide_eq_true_2 _ H), andb_false_r. reflexivity.
Qed.

Example widget_attrs_without_decimal_places :
  FormattedDecimalFormField.widget_attrs (fun _ _ => ∅) DefaultContext
    (mkDecimalFormField None None) (mkWidget true ∅) = Raise TypeError /\
  FormattedDecimalFormField.widget_attrs (fun _ _ => ∅) DefaultContext
    (mkDecimalFormField None (Some (-1))) (mkWidget true ∅) = Raise TypeError.
Proof. split; reflexivity. Qed.

(** ** Digits and the numbers they write *)

Lemma len_nonneg {A} (l : list A) : 0 <= len l.
Proof. unfold len. lia. Qed.

Lemma len_cons {A} (x : A) (l : list A) : len (x :: l) = len l + 1.
Proof. unfold len. simpl. lia. Qed.

Lemma len_app {A} (l k : list A) : len (l ++ k) = len l + len k.
Proof. unfold len. rewrite length_app. lia. Qed.

Lemma len_replicate {A} (n : nat) (x : A) : len (replicate n x) = Z.of_nat n.
Proof. unfold len. rewrite length_replicate. reflexivity. Qed.

Lemma digit_to_Z_range (d : digit) : 0 <= digit_to_Z d <= 9.
Proof. destruct d; simpl; lia. Qed.

Lemma digit_to_Z_inj (d d' : digit) : digit_to_Z d = digit_to_Z d' -> d = d'.
Proof. destruct d, d'; simpl; intros H; try reflexivity; discriminate. Qed.

Lemma fold_digits (ds : list digit) (acc : Z) :
  fold_left (fun a d => 10 * a + digit_to_Z d) ds acc
  = acc * 10 ^ len ds + int_of_digits ds.
Proof.
  unfold int_of_digits. revert acc.
  induction ds as [|d ds IH]; intros acc; simpl.
  - change (len []) with 0. lia.
  - rewrite IH, (IH (10 * 0 + digit_to_Z d)), len_cons.
    rewrite Z.pow_add_r by (pose proof (len_nonneg ds); lia). lia.
Qed.

Lemma int_of_digits_cons (d : digit) (ds : list digit) :
  int_of_digits (d :: ds) = digit_to_Z d * 10 ^ len ds + int_of_digits ds.
Proof.
  unfold int_of_digits at 1. simpl. rewrite fold_digits. lia.
Qed.

Lemma int_of_digits_app (ds ds' : list digit) :
  int_of_digits (ds ++ ds') = int_of_digits ds * 10 ^ len ds' + int_of_digits ds'.
Proof.
  unfold int_of_digits at 1. rewrite fold_left_app.
  rewrite fold_digits. reflexivity.
Qed.

Lemma int_of_digits_bound (ds : list digit) : 0 <= int_of_digits ds < 10 ^ len ds.
Proof.
  induction ds as [|d ds IH].
  - change (int_of_digits []) with 0. change (len []) with 0. simpl. lia.
  - rewrite int_of_digits_cons, len_cons.
    rewrite Z.pow_add_r by (pose proof (len_nonneg ds); lia).
    pose proof (digit_to_Z_range d). nia.
Qed.

Lemma int_of_zeros (k : nat) : int_of_digits (replicate k d0) = 0.
Proof.
  induction k as [|k IH]; [reflexivity|].
  simpl. rewrite int_of_digits_cons, IH. simpl. lia.
Qed.

Lemma int_of_digits_pad (ds : list digit) (k : nat) :
  int_of_digits (ds ++ replicate k d0) = int_of_digits ds * 10 ^ Z.of_nat k.
Proof. rewrite int_of_digits_app, int_of_zeros, len_replicate. lia. Qed.

Lemma int_of_digits_inj_len (ds : list digit) : forall ds',
  length ds = length ds' -> int_of_digits ds = int_of_digits ds' -> ds = ds'.
Proof.
  induction ds as [|d ds IH]; intros [|d' ds'] Hl Hv; try discriminate; [reflexivity|].
  injection Hl as Hl. rewrite !int_of_digits_cons in Hv.
  assert (Hlen : len ds = len ds') by (unfold len; lia). rewrite Hlen in Hv.
  pose proof (int_of_digits_bound ds) as B. rewrite Hlen in B.
  pose proof (int_of_digits_bound ds') as B'.
  pose proof (digit_to_Z_range d). pose proof (digit_to_Z_range d').
  assert (digit_to_Z d = digit_to_Z d') by nia.
  f_equal; [apply digit_to_Z_inj; assumption|].
  apply IH; [exact Hl | nia].
Qed.

Lemma int_of_digits_lower (d : digit) (ds : list digit) :
  d <> d0 -> 10 ^ len ds <= int_of_digits (d :: ds).
Proof.
  intros N. rewrite int_of_digits_cons.
  pose proof (int_of_digits_bound ds).
  assert (1 <= digit_to_Z d) by (destruct d; simpl; try lia; congruence).
  nia.
Qed.

Lemma no_leading_zero_cases (ds : list digit) :
  no_leading_zero ds ->
  ds = [d0] \/ exists d ds', ds = d :: ds' /\ d <> d0.
Proof.
  intros [[d H] Z]. destruct ds as [|x ds']; [discriminate|].
  simpl in *. injection H as ->.
  destruct (decide (d = d0)) as [->|N]; [left; apply Z; reflexivity|].
  right. eauto.
Qed.

Lemma no_leading_zero_zero (ds : list digit) :
  no_leading_zero ds -> int_of_digits ds = 0 -> ds = [d0].
Proof.
  intros W V. destruct (no_leading_zero_cases ds W) as [-> | (d & ds' & -> & N)];
    [reflexivity|].
  pose proof (int_of_digits_lower d ds' N).
  assert (0 < 10 ^ len ds') by (apply Z.pow_pos_nonneg; [lia | apply len_nonneg]).
  lia.
Qed.

(** A number has one coefficient without leading zeros. *)
Lemma int_of_digits_inj (ds ds' : list digit) :
  no_leading_zero ds -> no_leading_zero ds' ->
  int_of_digits ds = int_of_digits ds' -> ds = ds'.
Proof.
  intros W W' V.
  destruct (no_leading_zero_cases ds W) as [-> | (d & t & -> & N)].
  { symmetry. apply no_leading_zero_zero; [exact W' | rewrite <- V; reflexivity]. }
  destruct (no_leading_zero_cases ds' W') as [-> | (d' & t' & -> & N')].
  { apply no_leading_zero_zero; [exact W | rewrite V; reflexivity]. }
  apply int_of_digits_inj_len; [|exact V].
  pose proof (int_of_digits_lower d t N) as L.
  pose proof (int_of_digits_lower d' t' N') as L'.
  pose proof (int_of_digits_bound (d :: t)) as B.
  pose proof (int_of_digits_bound (d' :: t')) as B'.
  rewrite len_cons in B, B'. rewrite V in L, B.
  assert (len t < len t' + 1).
  { apply (Z.pow_lt_mono_r_iff 10); [lia | pose proof (len_nonneg t'); lia | lia]. }
  assert (len t' < len t + 1).
  { apply (Z.pow_lt_mono_r_iff 10); [lia | pose proof (len_nonneg t); lia | lia]. }
  simpl. unfold len in *. lia.
Qed.

Lemma no_leading_zero_pad (ds : list digit) (k : nat) :
  no_leading_zero ds -> ds <> [d0] -> no_leading_zero (ds ++ replicate k d0).
Proof.
  intros W N. destruct (no_leading_zero_cases ds W) as [-> | (d & t & -> & Nd)];
    [congruence|].
  split; simpl; [eauto|]. intros [= ->]. congruence.
Qed.

Lemma same_number_pad (x y : Decimal) (ex ey : Z) :
  _exp x = ExpInt ex -> _exp y = ExpInt ey ->
  well_formed x -> well_formed y ->
  _sign x = _sign y ->
  ex <= ey ->
  int_of_digits (_int x) = int_of_digits (_int y) * 10 ^ (ey - ex) ->
  (_int x = [d0] /\ _int y = [d0]) \/ (exists k, x = pad y k /\ _int y <> [d0]).
Proof.
  intros Ex Ey Wx Wy S Hle V.
  destruct (decide (_int y = [d0])) as [Zy | Ny].
  - left. split; [|exact Zy]. apply no_leading_zero_zero; [exact Wx|].
    rewrite V, Zy. reflexivity.
  - right. exists (Z.to_nat (ey - ex)). split; [|exact Ny].
    assert (D : _int x = _int y ++ replicate (Z.to_nat (ey - ex)) d0).
    { apply int_of_digits_inj; [exact Wx | apply no_leading_zero_pad; assumption |].
      rewrite int_of_digits_pad, V. f_equal. f_equal. lia. }
    destruct x as [sx dx expx], y as [sy dy expy]. unfold pad. simpl in *.
    subst. f_equal. f_equal. lia.
Qed.

(** Two well-formed finite [Decimal]s of one sign that stand for the same
    number are both zero, or one is the other with trailing zeros. *)
Lemma same_number_shape (x y : Decimal) :
  finite x -> finite y -> well_formed x -> well_formed y ->
  _sign x = _sign y -> same_number x y ->
  (_int x = [d0] /\ _int y = [d0]) \/
  (exists k, x = pad y k /\ _int y <> [d0]) \/
  (exists k, y = pad x k /\ _int x <> [d0]).
Proof.
  unfold finite, _is_special. intros Fx Fy Wx Wy S V.
  destruct (_exp x) as [ex| | |] eqn:Ex; try discriminate.
  destruct (_exp y) as [ey| | |] eqn:Ey; try discriminate.
  unfold same_number, exp_of, signed_int in V. rewrite Ex, Ey, S in V.
  assert (V' : int_of_digits (_int x) * 10 ^ (ex - Z.min ex ey)
               = int_of_digits (_int y) * 10 ^ (ey - Z.min ex ey)).
  { destruct (_sign y); lia. }
  clear V. destruct (Z.le_ge_cases ex ey) as [Hle | Hge].
  - rewrite Z.min_l in V' by lia. rewrite Z.sub_diag, Z.pow_0_r, Z.mul_1_r in V'.
    destruct (same_number_pad x y ex ey Ex Ey Wx Wy S Hle V') as [H | H]; auto.
  - rewrite Z.min_r in V' by lia. rewrite Z.sub_diag, Z.pow_0_r, Z.mul_1_r in V'.
    destruct (same_number_pad y x ey ex Ey Ex Wy Wx (eq_sym S) Hge (eq_sym V'))
      as [[H1 H2] | H]; auto.
Qed.

(** ** Rounding sees no trailing zeros *)

Lemma forallb_zeros (k : nat) :
  forallb (fun d => bool_decide (d = d0)) (replicate k d0) = true.
Proof. induction k as [|k IH]; [reflexivity|]. simpl. exact IH. Qed.

Lemma from_pad (ds : list digit) (k : nat) (p : Z) :
  from (ds ++ replicate k d0) p
  = from ds p ++ replicate (k - (Z.to_nat p - length ds)) d0.
Proof. unfold from. rewrite drop_app, drop_replicate. reflexivity. Qed.

Lemma all_zeros_pad (ds : list digit) (k : nat) (p : Z) :
  _all_zeros (ds ++ replicate k d0) p = _all_zeros ds p.
Proof.
  unfold _all_zeros. rewrite from_pad, forallb_app, forallb_zeros.
  apply andb_true_r.
Qed.

Lemma from_nonempty (ds : list digit) (p : Z) :
  0 <= p < len ds -> exists d rest, from ds p = d :: rest /\ ds !! Z.to_nat p = Some d.
Proof.
  intros H. unfold from, len in *.
  destruct (lookup_lt_is_Some_2 ds (Z.to_nat p)) as [d Hd]; [lia|].
  exists d, (drop (S (Z.to_nat p)) ds). split; [|exact Hd].
  apply drop_S. exact Hd.
Qed.

Lemma exact_half_pad (ds : list digit) (k : nat) (p : Z) :
  0 <= p < len ds ->
  _exact_half (ds ++ replicate k d0) p = _exact_half ds p.
Proof.
  intros H. unfold _exact_half. rewrite from_pad.
  destruct (from_nonempty ds p H) as (d & rest & -> & _). simpl.
  destruct d; try reflexivity.
  rewrite forallb_app, forallb_zeros. apply andb_true_r.
Qed.

Lemma index_pad (ds : list digit) (k : nat) (i : Z) :
  0 <= i < len ds -> index (ds ++ replicate k d0) i = index ds i.
Proof.
  intros H. unfold index, len in *.
  rewrite lookup_app_l by lia. reflexivity.
Qed.

Lemma index_in_range (ds : list digit) (i : Z) :
  0 <= i < len ds -> exists d, index ds i = Ok d.
Proof.
  intros H. unfold index, len in *.
  destruct (Z.ltb_spec i 0); [lia|].
  destruct (lookup_lt_is_Some_2 ds (Z.to_nat i)) as [d Hd]; [lia|].
  rewrite Hd. eauto.
Qed.

(** The rounding functions read the sign and the coefficient only, and of
    the coefficient nothing that trailing zeros change. *)
Lemma rounding_pad (r : Rounding) (s : bool) (ds : list digit) (k : nat)
    (x y : exponent) (p : Z) :
  0 <= p < len ds ->
  _pick_rounding_function r (mkDecimal s (ds ++ replicate k d0) x) p
  = _pick_rounding_function r (mkDecimal s ds y) p.
Proof.
  intros H.
  assert (Hup : _round_half_up (mkDecimal s (ds ++ replicate k d0) x) p
                = _round_half_up (mkDecimal s ds y) p).
  { unfold _round_half_up. cbn [_int].
    rewrite index_pad, all_zeros_pad by exact H. reflexivity. }
  assert (Hdown : _round_down (mkDecimal s (ds ++ replicate k d0) x) p
                  = _round_down (mkDecimal s ds y) p).
  { unfold _round_down. cbn [_int]. rewrite all_zeros_pad. reflexivity. }
  assert (Hrup : _round_up (mkDecimal s (ds ++ replicate k d0) x) p
                 = _round_up (mkDecimal s ds y) p).
  { unfold _round_up. rewrite Hdown. reflexivity. }
  destruct r; cbn [_pick_rounding_function]; auto.
  - unfold _round_half_even. cbn [_int].
    rewrite exact_half_pad, Hup by exact H.
    destruct (Z.eqb_spec p 0); [reflexivity|].
    rewrite index_pad by lia. reflexivity.
  - unfold _round_ceiling. cbn [_sign]. rewrite Hdown, Hrup. reflexivity.
  - unfold _round_floor. cbn [_sign]. rewrite Hdown, Hrup. reflexivity.
  - unfold _round_half_down. cbn [_int].
    rewrite exact_half_pad, Hup by exact H. reflexivity.
  - unfold _round_05up. cbn [_int]. rewrite Hdown, Hrup.
    destruct (Z.eqb_spec p 0); [reflexivity|].
    rewrite index_pad by lia. reflexivity.
Qed.

(** Cutting a coefficient inside its trailing zeros changes nothing:
    every rounding function answers 0. *)
Lemma rounding_in_zeros (r : Rounding) (s : bool) (ds : list digit) (k : nat)
    (x : exponent) (p : Z) :
  1 <= len ds -> len ds <= p < len ds + Z.of_nat k ->
  _pick_rounding_function r (mkDecimal s (ds ++ replicate k d0) x) p = Ok 0.
Proof.
  intros H1 H.
  assert (Hz : _all_zeros (ds ++ replicate k d0) p = true).
  { unfold _all_zeros. rewrite from_pad. unfold from, len in *.
    rewrite drop_ge by lia. apply forallb_zeros. }
  assert (Hi : index (ds ++ replicate k d0) p = Ok d0).
  { unfold index, len in *. destruct (Z.ltb_spec p 0); [lia|].
    rewrite lookup_app_r by lia.
    rewrite (proj2 (lookup_replicate k d0 d0 _)); [reflexivity|]. split; [reflexivity|lia]. }
  assert (Hh : _exact_half (ds ++ replicate k d0) p = false).
  { unfold _exact_half. rewrite from_pad. unfold from, len in *.
    rewrite drop_ge by lia. simpl.
    destruct (k - (Z.to_nat p - length ds))%nat; reflexivity. }
  assert (Hdown : _round_down (mkDecimal s (ds ++ replicate k d0) x) p = Ok 0).
  { unfold _round_down. cbn [_int]. rewrite Hz. reflexivity. }
  assert (Hrup : _round_up (mkDecimal s (ds ++ replicate k d0) x) p = Ok 0).
  { unfold _round_up. rewrite Hdown. reflexivity. }
  assert (Hup : _round_half_up (mkDecimal s (ds ++ replicate k d0) x) p = Ok 0).
  { unfold _round_half_up. cbn [_int]. rewrite Hi, Hz. reflexivity. }
  destruct r; cbn [_pick_rounding_function]; auto.
  - unfold _round_half_even. cbn [_int]. rewrite Hh. exact Hup.
  - unfold _round_ceiling. destruct s; assumption.
  - unfold _round_floor. destruct s; assumption.
  - unfold _round_half_down. cbn [_int]. rewrite Hh. exact Hup.
  - unfold _round_05up. cbn [_int]. rewrite Hdown, Hrup.
    destruct (Z.eqb_spec p 0); [reflexivity|].
    destruct (index_in_range (ds ++ replicate k d0) (p - 1)) as [d ->].
    { rewrite len_app, len_replicate. lia. }
    simpl. destruct (_ || _); reflexivity.
Qed.

(** Within the coefficient every rounding function has an answer. *)
Lemma rounding_total (r : Rounding) (self : Decimal) (p : Z) :
  0 <= p < len (_int self) ->
  exists z, _pick_rounding_function r self p = Ok z.
Proof.
  intros H.
  destruct (index_in_range (_int self) p H) as [d Hd].
  assert (Hup : exists z, _round_half_up self p = Ok z).
  { unfold _round_half_up. rewrite Hd. simpl.
    destruct (5 <=? digit_to_Z d); [eauto|]. destruct (_all_zeros _ _); eauto. }
  assert (Hdown : exists z, _round_down self p = Ok z) by (unfold _round_down; eauto).
  assert (Hrup : exists z, _round_up self p = Ok z) by (unfold _round_up, _round_down; simpl; eauto).
  assert (Hprev : p <> 0 -> exists d', index (_int self) (p - 1) = Ok d').
  { intros N. apply index_in_range. lia. }
  destruct r; cbn [_pick_rounding_function]; auto.
  - unfold _round_half_even. destruct (_exact_half _ _); [|exact Hup].
    destruct (Z.eqb_spec p 0); [eauto|].
    destruct (Hprev n) as [d' ->]. simpl. destruct (Z.even _); eauto.
  - unfold _round_ceiling. destruct (_sign self); assumption.
  - unfold _round_floor. destruct (_sign self); assumption.
  - unfold _round_half_down. destruct (_exact_half _ _); eauto.
  - unfold _round_05up. destruct (Z.eqb_spec p 0); [exact Hrup|].
    destruct (Hprev n) as [d' ->]. simpl. destruct (_ || _); assumption.
Qed.

(** ** [_fix] and [normalize] on a finite number *)

Lemma fix_nonzero c (self : Decimal) (e : Z) :
  nonzero self = true -> _exp self = ExpInt e ->
  _fix c self =
  if Etop c <? len (_int self) + e - prec c then Raise Overflow
  else if e <? exp_floor c self then rounded c self (exp_floor c self)
  else Ok self.
Proof.
  intros NZ E. unfold _fix, exp_floor, rounded, exp_of. rewrite E, NZ. cbn [negb].
  destruct (Etop c <? len (_int self) + e - prec c); [reflexivity|].
  destruct (Z.ltb_spec (len (_int self) + e - prec c) (Etiny c)).
  - rewrite Z.max_r by lia. reflexivity.
  - rewrite Z.max_l by lia. reflexivity.
Qed.

Lemma normalize_finite_unfold c (self : Decimal) (e : Z) :
  _exp self = ExpInt e ->
  normalize c self = (dup <- _fix c self ;; stripped c dup).
Proof. intros E. unfold normalize, stripped. rewrite E. reflexivity. Qed.

Lemma nonzero_finite (d : Decimal) (e : Z) :
  _exp d = ExpInt e -> nonzero d = negb (bool_decide (_int d = [d0])).
Proof. intros E. unfold nonzero, _is_special. rewrite E. reflexivity. Qed.

Lemma nonzero_pad (d : Decimal) (e : Z) (k : nat) :
  _exp d = ExpInt e -> well_formed d -> _int d <> [d0] -> nonzero (pad d k) = true.
Proof.
  intros E W N. unfold nonzero, _is_special, pad. rewrite E. simpl.
  rewrite bool_decide_eq_false_2; [reflexivity|].
  destruct (no_leading_zero_cases _ W) as [Z | (x & t & Hx & Nx)]; [congruence|].
  rewrite Hx. simpl. intros [= -> _]. congruence.
Qed.

(** A zero normalizes to the zero of its sign with exponent 0. *)
Lemma normalize_zero c (d : Decimal) (e : Z) :
  _exp d = ExpInt e -> _int d = [d0] ->
  normalize c d = Ok (mkDecimal (_sign d) [d0] (ExpInt 0)).
Proof.
  intros E Z. rewrite (normalize_finite_unfold c d e E).
  unfold _fix. rewrite E, (nonzero_finite d e E), Z.
  rewrite bool_decide_eq_true_2 by reflexivity. cbn [negb].
  destruct (negb _); cbn [bind]; unfold stripped, nonzero, _is_special; simpl.
  - reflexivity.
  - rewrite E, Z. simpl. reflexivity.
Qed.

Lemma strip_zeros_ext (n : nat) : forall (l l' : list digit) (e m : Z),
  (forall i, (i < n)%nat -> l !! i = l' !! i) ->
  strip_zeros l n e m = strip_zeros l' n e m.
Proof.
  induction n as [|n IH]; intros l l' e m H; [reflexivity|].
  simpl. rewrite (H n) by lia.
  destruct (_ && _); [|reflexivity].
  apply IH. intros i Hi. apply H. lia.
Qed.

Lemma strip_zeros_le (n : nat) : forall (l : list digit) (e m : Z),
  (fst (strip_zeros l n e m) <= n)%nat.
Proof.
  induction n as [|n IH]; intros l e m; simpl; [lia|].
  destruct (_ && _); simpl; [|lia].
  specialize (IH l (e + 1) m). lia.
Qed.

(** The loop runs through a block of zeros as long as the exponent has
    room. *)
Lemma strip_zeros_run (j : nat) : forall (l : list digit) (n : nat) (e m : Z),
  (forall i, (n <= i < n + j)%nat -> l !! i = Some d0) ->
  e + Z.of_nat j <= m ->
  strip_zeros l (n + j) e m = strip_zeros l n (e + Z.of_nat j) m.
Proof.
  induction j as [|j IH]; intros l n e m Hz He.
  - rewrite Nat.add_0_r. f_equal. simpl. lia.
  - replace (n + S j)%nat with (S (n + j)) by lia. simpl.
    rewrite (Hz (n + j)%nat) by lia.
    rewrite bool_decide_eq_true_2 by reflexivity.
    destruct (Z.ltb_spec e m); [|lia]. simpl.
    rewrite IH; [f_equal; lia | intros i Hi; apply Hz; lia | lia].
Qed.

Lemma stripped_pad c (d : Decimal) (e : Z) (j : nat) :
  _exp d = ExpInt e -> well_formed d -> _int d <> [d0] -> e <= Emax c ->
  stripped c (pad d j) = stripped c d.
Proof.
  intros E W N He. unfold stripped.
  rewrite (nonzero_pad d e j E W N).
  assert (NZ : nonzero d = true).
  { rewrite (nonzero_finite d e E). rewrite bool_decide_eq_false_2; auto. }
  rewrite NZ, E. unfold pad. rewrite E. cbn [_exp _int _sign negb].
  rewrite length_app, length_replicate.
  rewrite strip_zeros_run.
  - replace (e - Z.of_nat j + Z.of_nat j) with e by lia.
    rewrite (strip_zeros_ext (length (_int d)) _ (_int d)).
    + pose proof (strip_zeros_le (length (_int d)) (_int d) e (Emax c)) as Hle.
      destruct (strip_zeros (_int d) (length (_int d)) e (Emax c)) as [end_ e'].
      simpl in Hle. rewrite take_app_le by lia. reflexivity.
    + intros i Hi. apply lookup_app_l. exact Hi.
  - intros i Hi. rewrite lookup_app_r by lia.
    apply lookup_replicate. split; [reflexivity | lia].
  - lia.
Qed.

Lemma pad_int (d : Decimal) (k : nat) : _int (pad d k) = _int d ++ replicate k d0.
Proof. reflexivity. Qed.

Lemma pad_exp (d : Decimal) (e : Z) (k : nat) :
  _exp d = ExpInt e -> _exp (pad d k) = ExpInt (e - Z.of_nat k).
Proof. intros E. unfold pad. rewrite E. reflexivity. Qed.

(** [_fix] on a number with trailing zeros: the same result as without
    them, or the number itself with some of the zeros. *)
Lemma fix_pad c (d : Decimal) (e : Z) (k : nat) :
  valid_context c ->
  _exp d = ExpInt e -> well_formed d -> _int d <> [d0] ->
  _fix c (pad d k) = _fix c d \/
  (exists j, _fix c (pad d k) = Ok (pad d j) /\ _fix c d = Ok d /\ e <= Emax c).
Proof.
  intros (Hp & Hmin & Hmax) E W N.
  assert (NZ : nonzero d = true).
  { rewrite (nonzero_finite d e E). rewrite bool_decide_eq_false_2; auto. }
  assert (L1 : 1 <= len (_int d)).
  { destruct W as [[x Hx] _]. destruct (_int d); [discriminate|]. rewrite len_cons.
    pose proof (len_nonneg l). lia. }
  rewrite (fix_nonzero c (pad d k) (e - Z.of_nat k) (nonzero_pad d e k E W N) (pad_exp d e k E)).
  rewrite (fix_nonzero c d e NZ E).
  assert (F : exp_floor c (pad d k) = exp_floor c d).
  { unfold exp_floor, exp_of. rewrite (pad_exp d e k E), E, pad_int, len_app, len_replicate.
    f_equal. lia. }
  rewrite F, pad_int, len_app, len_replicate.
  replace (len (_int d) + Z.of_nat k + (e - Z.of_nat k) - prec c)
    with (len (_int d) + e - prec c) by lia.
  destruct (Z.ltb_spec (Etop c) (len (_int d) + e - prec c)) as [|Hfit]; [left; reflexivity|].
  set (m := exp_floor c d).
  assert (Hm : m <= Etop c).
  { subst m. unfold exp_floor, exp_of, Etop, Etiny in *. rewrite E. lia. }
  assert (HeM : e <= Emax c) by (unfold Etop in Hfit; lia).
  destruct (Z.ltb_spec e m) as [Hlow | Hhigh].
  - (* both are rounded, at the same place *)
    left. destruct (Z.ltb_spec (e - Z.of_nat k) m); [|lia].
    unfold rounded, exp_of. rewrite (pad_exp d e k E), E, pad_int, len_app, len_replicate.
    replace (len (_int d) + Z.of_nat k + (e - Z.of_nat k) - m)
      with (len (_int d) + e - m) by lia.
    destruct (Z.ltb_spec (len (_int d) + e - m) 0); [reflexivity|].
    destruct d as [s ds x]. unfold pad. cbn [_sign _int _exp] in *.
    rewrite (rounding_pad _ s ds k _ x) by lia.
    unfold upto. rewrite take_app_le by (unfold len in *; lia). reflexivity.
  - destruct (Z.ltb_spec (e - Z.of_nat k) m) as [Hcut | Hkeep].
    + (* the padded number is cut inside its zeros *)
      right. exists (Z.to_nat (e - m)). split; [|split; [reflexivity | exact HeM]].
      unfold rounded, exp_of. rewrite (pad_exp d e k E), pad_int, len_app, len_replicate.
      replace (len (_int d) + Z.of_nat k + (e - Z.of_nat k) - m)
        with (len (_int d) + e - m) by lia.
      destruct (Z.ltb_spec (len (_int d) + e - m) 0); [lia|].
      destruct d as [s ds x]. unfold pad. cbn [_sign _int _exp] in *. subst x.
      rewrite rounding_in_zeros by lia. cbn [bind].
      change (0 <? 0) with false. cbv iota.
      destruct (Z.ltb_spec (Etop c) m); [lia|].
      cbn [_sign _int _exp]. do 2 f_equal.
      * unfold upto. rewrite take_app_ge by (unfold len in *; lia).
        rewrite take_replicate.
        assert (Hj : (Z.to_nat (len ds + e - m) - length ds)%nat = Z.to_nat (e - m))
          by (unfold len; lia).
        rewrite Hj, Nat.min_l by lia.
        destruct ds; [unfold len in L1; simpl in L1; lia|]. reflexivity.
      * f_equal. lia.
    + right. exists k. split; [reflexivity | split; [reflexivity | exact HeM]].
Qed.

(** Trailing zeros in the coefficient do not change the normal form. *)
Lemma normalize_pad c (d : Decimal) (e : Z) (k : nat) :
  valid_context c ->
  _exp d = ExpInt e -> well_formed d -> _int d <> [d0] ->
  normalize c (pad d k) = normalize c d.
Proof.
  intros V E W N.
  rewrite (normalize_finite_unfold c (pad d k) _ (pad_exp d e k E)).
  rewrite (normalize_finite_unfold c d e E).
  destruct (fix_pad c d e k V E W N) as [-> | (j & -> & -> & He)]; [reflexivity|].
  cbn [bind]. apply (stripped_pad c d e j E W N He).
Qed.

Lemma rounded_cases c (self : Decimal) (m : Z) :
  exp_of self < m ->
  rounded c self m = Raise Overflow \/
  exists coeff m', rounded c self m = Ok (mkDecimal (_sign self) coeff (ExpInt m')).
Proof.
  intros H. unfold rounded.
  destruct (Z.ltb_spec (len (_int self) + exp_of self - m) 0).
  - destruct (rounding_total (rounding c)
                (mkDecimal (_sign self) [d1] (ExpInt (m - 1))) 0) as [z ->].
    { cbn [_int]. change (len [d1]) with 1. lia. }
    cbn [bind _sign _int].
    destruct (if 0 <? z then _ else _) as [coeff m'].
    destruct (Etop c <? m'); eauto.
  - destruct (rounding_total (rounding c) self (len (_int self) + exp_of self - m))
      as [z ->]; [lia|].
    cbn [bind].
    destruct (if 0 <? z then _ else _) as [coeff m'].
    destruct (Etop c <? m'); eauto.
Qed.

(** On a finite number [_fix] returns a finite number of the same sign or
    raises [Overflow]. *)
Lemma fix_finite c (d : Decimal) (e : Z) :
  _exp d = ExpInt e ->
  _fix c d = Raise Overflow \/
  exists coeff e', _fix c d = Ok (mkDecimal (_sign d) coeff (ExpInt e')).
Proof.
  intros E. destruct (nonzero d) eqn:NZ.
  - rewrite (fix_nonzero c d e NZ E).
    destruct (Etop c <? _); [left; reflexivity|].
    destruct (Z.ltb_spec e (exp_floor c d)).
    + apply rounded_cases. unfold exp_of. rewrite E. assumption.
    + right. exists (_int d), e. destruct d; simpl in *. subst. reflexivity.
  - right. unfold _fix. rewrite E, NZ. cbn [negb].
    destruct (negb _); [eauto|].
    exists (_int d), e. destruct d; simpl in *. subst. reflexivity.
Qed.

Lemma stripped_finite c (dup : Decimal) (e : Z) :
  _exp dup = ExpInt e ->
  exists coeff e', stripped c dup = Ok (mkDecimal (_sign dup) coeff (ExpInt e')).
Proof.
  intros E. unfold stripped. rewrite E.
  destruct (negb (nonzero dup)); [eauto|].
  destruct (strip_zeros _ _ _ _) as [end_ e']. eauto.
Qed.

(** A finite number has a finite normal form of the same sign, unless it
    is beyond the exponent range of the context. *)
Lemma normalize_finite c (d : Decimal) :
  finite d ->
  normalize c d = Raise Overflow \/
  exists coeff e', normalize c d = Ok (mkDecimal (_sign d) coeff (ExpInt e')).
Proof.
  unfold finite, _is_special. destruct (_exp d) as [e| | |] eqn:E; try discriminate.
  intros _. rewrite (normalize_finite_unfold c d e E).
  destruct (fix_finite c d e E) as [-> | (coeff & e' & ->)]; [left; reflexivity|].
  right. cbn [bind].
  apply (stripped_finite c (mkDecimal (_sign d) coeff (ExpInt e')) e'). reflexivity.
Qed.

(** The normal form is a function of the sign and the number. *)
Lemma normalize_same_number c (x y : Decimal) :
  valid_context c ->
  finite x -> finite y -> well_formed x -> well_formed y ->
  _sign x = _sign y -> same_number x y ->
  normalize c x = normalize c y.
Proof.
  intros V Fx Fy Wx Wy S N.
  destruct (same_number_shape x y Fx Fy Wx Wy S N)
    as [[Zx Zy] | [(k & -> & Ny) | (k & -> & Nx)]].
  - unfold finite, _is_special in Fx, Fy.
    destruct (_exp x) as [ex| | |] eqn:Ex; try discriminate.
    destruct (_exp y) as [ey| | |] eqn:Ey; try discriminate.
    rewrite (normalize_zero c x ex Ex Zx), (normalize_zero c y ey Ey Zy), S. reflexivity.
  - unfold finite, _is_special in Fy.
    destruct (_exp y) as [ey| | |] eqn:Ey; try discriminate.
    apply (normalize_pad c y ey k V Ey Wy Ny).
  - unfold finite, _is_special in Fx.
    destruct (_exp x) as [ex| | |] eqn:Ex; try discriminate.
    symmetry. apply (normalize_pad c x ex k V Ex Wx Nx).
Qed.

(** Two arguments with one normal form fare the same in
    [format_decimal]. *)
Lemma same_outcome_of_normalize py c (x y : Decimal) (max_digits exponent_limit : Z) :
  finite y -> normalize c x = normalize c y ->
  same_outcome c x y
    (FormattedDecimalField.format_decimal py c x max_digits exponent_limit)
    (FormattedDecimalField.format_decimal py c y max_digits exponent_limit).
Proof.
  intros Fy Hn.
  destruct (normalize_finite c y Fy) as [Ho | (coeff & e & Hy)].
  - unfold FormattedDecimalField.format_decimal. rewrite Hn, Ho. simpl. reflexivity.
  - rewrite (format_decimal_finite py c x max_digits exponent_limit _ e
               (eq_trans Hn Hy) eq_refl).
    rewrite (format_decimal_finite py c y max_digits exponent_limit _ e Hy eq_refl).
    destruct (exponent_limit <? e); [simpl; eexists; split; reflexivity|].
    destruct (e <? - exponent_limit); [simpl; eexists; split; reflexivity|].
    destruct (max_digits <? _); [simpl; eexists; split; reflexivity|].
    simpl. reflexivity.
Qed.

(** On a finite argument [format_decimal] raises one of its three
    [ValueError]s or, from [normalize], [Overflow]. *)
Lemma format_decimal_finite_errors py c (value : Decimal) (max_digits exponent_limit : Z) err :
  finite value ->
  FormattedDecimalField.format_decimal py c value max_digits exponent_limit = Raise err ->
  err = Overflow \/ err = ValueError (too_large c value) \/
  err = ValueError (too_small c value) \/ err = ValueError (too_many_digits c value).
Proof.
  intros F.
  destruct (normalize_finite c value F) as [Ho | (coeff & e & Hv)].
  - unfold FormattedDecimalField.format_decimal. rewrite Ho. simpl. intros [= <-]. auto.
  - rewrite (format_decimal_finite py c value max_digits exponent_limit _ e Hv eq_refl).
    destruct (exponent_limit <? e); [intros [= <-]; auto|].
    destruct (e <? - exponent_limit); [intros [= <-]; auto|].
    destruct (max_digits <? _); [intros [= <-]; auto | discriminate].
Qed.

(** Trailing zeros in the coefficient do not count: with or without them
    the argument is checked, and formatted, in the same normal form. *)
Lemma format_decimal_pad py c (x : Decimal) (k : nat) (max_digits exponent_limit : Z) :
  valid_context c -> finite x -> well_formed x -> _int x <> [d0] ->
  normalize c (pad x k) = normalize c x /\
  same_outcome c (pad x k) x
    (FormattedDecimalField.format_decimal py c (pad x k) max_digits exponent_limit)
    (FormattedDecimalField.format_decimal py c x max_digits exponent_limit).
Proof.
  intros V F W N. unfold finite, _is_special in F.
  destruct (_exp x) as [e| | |] eqn:E; try discriminate.
  pose proof (normalize_pad c x e k V E W N) as Hn.
  split; [exact Hn|]. apply same_outcome_of_normalize; [|exact Hn].
  unfold finite, _is_special. rewrite E. reflexivity.
Qed.

(** ** What the identifier validator accepts *)

Lemma match_Void (s : string) : re.match_ re.Void s = false.
Proof. induction s as [|ch s IH]; simpl; [reflexivity | exact IH]. Qed.

Lemma match_Cat_Void (r : re.regex) (s : string) :
  re.match_ (re.Cat re.Void r) s = false.
Proof. induction s as [|ch s IH]; simpl; [reflexivity | exact IH]. Qed.

Lemma match_Alt (s : string) : forall r1 r2,
  re.match_ (re.Alt r1 r2) s = re.match_ r1 s || re.match_ r2 s.
Proof.
  induction s as [|ch s IH]; intros r1 r2; simpl.
  - rewrite !orb_false_r. reflexivity.
  - rewrite IH. destruct (re.nullable r1), (re.nullable r2); simpl;
      rewrite ?orb_true_r; try reflexivity.
Qed.

Lemma match_Cat_Eps (r : re.regex) (s : string) :
  re.match_ (re.Cat re.Eps r) s = re.match_ r s.
Proof.
  destruct s as [|ch s]; simpl; [reflexivity|].
  rewrite match_Alt, match_Cat_Void. reflexivity.
Qed.

Lemma in_range_underscore (ch : ascii) :
  re.in_range ch ("_", "_")%char = bool_decide (ch = "_"%char).
Proof.
  unfold re.in_range. cbn [fst snd].
  change (nat_of_ascii "_"%char) with 95%nat.
  assert (E : nat_of_ascii ch = 95%nat <-> ch = "_"%char).
  { split; [|intros ->; reflexivity].
    intros H. rewrite <- (ascii_nat_embedding ch), H. reflexivity. }
  case_bool_decide as H.
  - apply E in H. rewrite H. reflexivity.
  - apply andb_false_iff.
    destruct (Nat.leb_spec 95 (nat_of_ascii ch)); [|auto].
    destruct (Nat.leb_spec (nat_of_ascii ch) 95); [|auto].
    exfalso. apply H, E. lia.
Qed.

(** The pattern at the head of a text: two characters decide. *)
Lemma match_identifier_pattern (s : string) :
  re.match_
    (re.Cat (re.Class [("a", "z")])
            (re.Plus (re.Class [("a", "z"); ("_", "_")])))%char s
  = match s with
    | String a (String b _) => lowercase a && identifier_char b
    | _ => false
    end.
Proof.
  unfold re.Plus. destruct s as [|a s]; [reflexivity|].
  cbn [re.match_ re.nullable re.deriv andb orb re.in_class existsb].
  fold (lowercase a). rewrite orb_false_r.
  destruct (lowercase a); [|rewrite match_Cat_Void; destruct s; reflexivity].
  rewrite match_Cat_Eps.
  destruct s as [|b s]; [reflexivity|].
  cbn [re.match_ re.nullable re.deriv andb orb re.in_class existsb].
  fold (lowercase b). rewrite in_range_underscore, orb_false_r.
  fold (identifier_char b).
  destruct (identifier_char b); [|apply match_Cat_Void].
  rewrite match_Cat_Eps. destruct s; reflexivity.
Qed.

(** The validator accepts a text exactly when it holds, anywhere, a
    lower-case letter followed by a lower-case letter or an underscore. *)
Lemma IdentifierValidator_accepts c (s : string) :
  validate c IdentifierValidator (Str s) = Ok tt <->
  exists before a b after,
    s = before +:+ String a (String b after) /\
    lowercase a = true /\ identifier_char b = true.
Proof.
  unfold validate, IdentifierValidator. cbn [str].
  set (r := re.Cat _ _).
  assert (S : re.search r s = true <->
    exists before a b after,
      s = before +:+ String a (String b after) /\
      lowercase a = true /\ identifier_char b = true).
  { induction s as [|ch s IH].
    - simpl. split; [discriminate|].
      intros (before & a & b & after & E & _). destruct before; discriminate.
    - cbn [re.search]. rewrite orb_true_iff. subst r.
      rewrite match_identifier_pattern. split.
      + intros [M | M].
        * destruct s as [|b after]; [discriminate|].
          apply andb_true_iff in M as [Ha Hb].
          exists "", ch, b, after. auto.
        * apply IH in M as (before & a & b & after & -> & Ha & Hb).
          exists (String ch before), a, b, after. auto.
      + intros (before & a & b & after & E & Ha & Hb).
        destruct before as [|x before]; simpl in E; injection E as -> ->.
        * left. rewrite Ha, Hb. reflexivity.
        * right. apply IH. eauto 8. }
  destruct (re.search r s); split; intros H; try reflexivity; try discriminate.
  - apply S. reflexivity.
  - apply S in H. discriminate.
Qed.

(** Every identifier in the strict sense is accepted; the converse is
    what fails. *)
Lemma IdentifierValidator_accepts_identifiers c (s : string) :
  is_identifier s = true -> validate c IdentifierValidator (Str s) = Ok tt.
Proof.
  intros H. apply IdentifierValidator_accepts.
  unfold is_identifier in H.
  destruct s as [|a [|b after]]; try discriminate. simpl in H.
  apply andb_true_iff in H as [Ha H]. apply andb_true_iff in H as [Hb _].
  exists "", a, b, after. auto.
Qed.

(** ** The digits of an integer *)

Lemma digits_of_int_go_length (n : nat) : forall (fuel : nat) (z : Z) (acc : list digit),
  0 <= z < 10 ^ Z.of_nat (S n) ->
  (length (digits_of_int_go fuel z acc) <= length acc + S n)%nat.
Proof.
  induction n as [|n IH]; intros fuel z acc Hz; destruct fuel as [|fuel]; simpl; try lia.
  - assert (z / 10 = 0) as -> by (apply Z.div_small; simpl in Hz; lia).
    simpl. lia.
  - destruct (Z.eqb_spec (z / 10) 0); [simpl; lia|].
    etransitivity; [apply IH|simpl; lia].
    rewrite Nat2Z.inj_succ, Z.pow_succ_r in Hz by lia.
    split; [apply Z.div_pos; lia | apply Z.div_lt_upper_bound; lia].
Qed.

Lemma digit_of_Z_nonzero (z : Z) : 0 < z < 10 -> digit_of_Z z <> d0.
Proof.
  intros H.
  assert (z = 1 \/ z = 2 \/ z = 3 \/ z = 4 \/ z = 5 \/ z = 6 \/ z = 7 \/ z = 8 \/ z = 9)
    as Hc by lia.
  destruct Hc as [-> | [-> | [-> | [-> | [-> | [-> | [-> | [-> | ->]]]]]]]]; discriminate.
Qed.

Lemma digits_of_int_go_head (fuel : nat) : forall (z : Z) (acc : list digit),
  0 < z < 10 ^ Z.of_nat fuel ->
  exists d rest, digits_of_int_go fuel z acc = d :: rest /\ d <> d0.
Proof.
  induction fuel as [|fuel IH]; intros z acc Hz; [simpl in Hz; lia|].
  rewrite Nat2Z.inj_succ, Z.pow_succ_r in Hz by lia. simpl.
  destruct (Z.eqb_spec (z / 10) 0) as [E | N].
  - exists (digit_of_Z (z mod 10)), acc. split; [reflexivity|].
    assert (z < 10).
    { destruct (Z.lt_ge_cases z 10); [assumption|].
      assert (1 <= z / 10) by (apply Z.div_le_lower_bound; lia). lia. }
    rewrite Z.mod_small by lia. apply digit_of_Z_nonzero. lia.
  - apply IH. split.
    + assert (0 <= z / 10) by (apply Z.div_pos; lia). lia.
    + apply Z.div_lt_upper_bound; lia.
Qed.

Lemma log2_fuel (z : Z) : 0 < z -> z < 10 ^ Z.of_nat (S (Z.to_nat (Z.log2 z))).
Proof.
  intros H. pose proof (Z.log2_spec z H) as [_ Hu].
  pose proof (Z.log2_nonneg z).
  rewrite Nat2Z.inj_succ, Z2Nat.id by assumption.
  eapply Z.lt_le_trans; [exact Hu|].
  apply Z.pow_le_mono_l. lia.
Qed.

(** [str(z)] has no leading zero. *)
Lemma digits_of_int_no_leading_zero (z : Z) :
  0 <= z -> no_leading_zero (digits_of_int z).
Proof.
  intros H. destruct (Z.eq_dec z 0) as [-> | N].
  - split; [simpl; eauto | reflexivity].
  - destruct (digits_of_int_go_head (S (Z.to_nat (Z.log2 z))) z [])
      as (d & rest & E & Nd); [split; [lia | apply log2_fuel; lia]|].
    unfold digits_of_int. rewrite E. split; simpl; [eauto|].
    intros [= ->]. congruence.
Qed.

(** A number below [10^n], for [n >= 1], has at most [n] digits. *)
Lemma digits_of_int_length (z : Z) (n : nat) :
  0 <= z < 10 ^ Z.of_nat (S n) -> (length (digits_of_int z) <= S n)%nat.
Proof.
  intros H. unfold digits_of_int.
  pose proof (digits_of_int_go_length n (S (Z.to_nat (Z.log2 z))) z [] H). simpl in *. lia.
Qed.

Lemma no_leading_zero_take (ds : list digit) (n : nat) :
  no_leading_zero ds -> ds <> [d0] ->
  no_leading_zero (or0 (take n ds)) /\ (length (or0 (take n ds)) <= Nat.max 1 n)%nat.
Proof.
  intros W N. destruct (no_leading_zero_cases ds W) as [-> | (d & t & -> & Nd)];
    [congruence|].
  destruct n as [|n]; simpl.
  - split; [split; [simpl; eauto | reflexivity] | lia].
  - split.
    + split; simpl; [eauto|]. intros [= ->]. congruence.
    + rewrite length_take. lia.
Qed.

Lemma no_leading_zero_removelast (ds : list digit) :
  no_leading_zero ds -> (2 <= length ds)%nat ->
  no_leading_zero (removelast ds) /\ length (removelast ds) = (length ds - 1)%nat.
Proof.
  intros W L. destruct (no_leading_zero_cases ds W) as [-> | (d & t & -> & Nd)];
    [simpl in L; lia|].
  destruct t as [|x t]; [simpl in L; lia|].
  split.
  - split; simpl; [eauto|]. intros [= ->]. congruence.
  - rewrite removelast_firstn_len. rewrite length_firstn. simpl. lia.
Qed.

(** ** The normal form carries no trailing zero *)

Lemma round_finish c (s : bool) (coeff0 : list digit) (z m : Z) (dup : Decimal) :
  1 <= prec c -> no_leading_zero coeff0 -> len coeff0 <= prec c ->
  (let '(coeff, exp_min) :=
     if 0 <? z then
       let coeff := digits_of_int (int_of_digits coeff0 + 1) in
       if prec c <? len coeff
       then (removelast coeff, m + 1)
       else (coeff, m)
     else (coeff0, m) in
   if Etop c <? exp_min then Raise Overflow
   else Ok (mkDecimal s coeff (ExpInt exp_min))) = Ok dup ->
  exists e', _exp dup = ExpInt e' /\ well_formed dup /\
             len (_int dup) + e' - 1 <= Emax c.
Proof.
  intros Hp W L H.
  assert (Done : forall coeff e',
    no_leading_zero coeff -> len coeff <= prec c ->
    (if Etop c <? e' then Raise Overflow else Ok (mkDecimal s coeff (ExpInt e'))) = Ok dup ->
    exists e', _exp dup = ExpInt e' /\ well_formed dup /\
               len (_int dup) + e' - 1 <= Emax c).
  { intros coeff e' Wc Lc Hd.
    destruct (Z.ltb_spec (Etop c) e'); [discriminate|].
    injection Hd as <-. exists e'. unfold well_formed, Etop in *. simpl.
    split; [reflexivity|]. split; [exact Wc | lia]. }
  destruct (0 <? z); [|apply (Done coeff0 m W L H)].
  cbv zeta in H.
  set (coeff1 := digits_of_int (int_of_digits coeff0 + 1)) in *.
  pose proof (int_of_digits_bound coeff0) as B.
  assert (W1 : no_leading_zero coeff1) by (apply digits_of_int_no_leading_zero; lia).
  assert (L1 : (length coeff1 <= S (length coeff0))%nat).
  { apply digits_of_int_length. rewrite Nat2Z.inj_succ, Z.pow_succ_r by lia.
    unfold len in B. lia. }
  destruct (Z.ltb_spec (prec c) (len coeff1)).
  - destruct (no_leading_zero_removelast coeff1 W1) as [Wr Lr];
      [unfold len in *; lia|].
    apply (Done (removelast coeff1) (m + 1) Wr); [unfold len in *; lia | exact H].
  - apply (Done coeff1 m W1); assumption.
Qed.

Lemma rounded_well_formed c (self : Decimal) (m : Z) (dup : Decimal) :
  1 <= prec c -> well_formed self -> _int self <> [d0] ->
  len (_int self) + exp_of self - m <= prec c ->
  rounded c self m = Ok dup ->
  exists e', _exp dup = ExpInt e' /\ well_formed dup /\
             len (_int dup) + e' - 1 <= Emax c.
Proof.
  intros Hp W N G H. unfold rounded in H.
  destruct (Z.ltb_spec (len (_int self) + exp_of self - m) 0).
  - destruct (_pick_rounding_function _ _ _) as [z|]; [|discriminate].
    cbn [bind _int _sign] in H.
    apply (round_finish c _ _ z m dup Hp) in H; [exact H | |].
    + split; [simpl; eauto | reflexivity].
    + change (len (or0 (upto [d1] 0))) with 1. lia.
  - destruct (_pick_rounding_function _ _ _) as [z|]; [|discriminate].
    cbn [bind] in H.
    destruct (no_leading_zero_take (_int self)
                (Z.to_nat (len (_int self) + exp_of self - m)) W N) as [Wt Lt].
    apply (round_finish c _ _ z m dup Hp) in H; [exact H | exact Wt |].
    unfold upto, len in *. lia.
Qed.

(** What [_fix] returns for a well-formed number is well-formed and fits
    below [Emax]. *)
Lemma fix_well_formed c (d : Decimal) (e : Z) (dup : Decimal) :
  valid_context c ->
  _exp d = ExpInt e -> well_formed d -> _int d <> [d0] ->
  _fix c d = Ok dup ->
  exists e', _exp dup = ExpInt e' /\ well_formed dup /\
             len (_int dup) + e' - 1 <= Emax c.
Proof.
  intros (Hp & Hmin & Hmax) E W N H.
  assert (NZ : nonzero d = true).
  { rewrite (nonzero_finite d e E). rewrite bool_decide_eq_false_2; auto. }
  rewrite (fix_nonzero c d e NZ E) in H.
  destruct (Z.ltb_spec (Etop c) (len (_int d) + e - prec c)); [discriminate|].
  destruct (Z.ltb_spec e (exp_floor c d)).
  - apply (rounded_well_formed c d (exp_floor c d) dup Hp W N); [|exact H].
    unfold exp_floor, exp_of. rewrite E. lia.
  - injection H as <-. exists e. unfold Etop in *. split; [exact E|]. split; [exact W | lia].
Qed.

(** Where the loop of [normalize] stops: behind it there are zeros only,
    and it stops at the start, at a digit that is no zero, or at the top
    of the exponent range. *)
Lemma strip_zeros_stop (n : nat) : forall (l : list digit) (e m : Z) (end_ : nat) (e' : Z),
  strip_zeros l n e m = (end_, e') ->
  e' = e + Z.of_nat (n - end_) /\ (end_ <= n)%nat /\
  (forall i, (end_ <= i < n)%nat -> l !! i = Some d0) /\
  (end_ = 0%nat \/
   exists end', end_ = S end' /\
     (l !! end' <> Some d0 \/ (l !! end' = Some d0 /\ m <= e'))).
Proof.
  induction n as [|n IH]; intros l e m end_ e' H; simpl in H.
  - injection H as <- <-. split; [simpl; lia|]. split; [lia|].
    split; [intros i Hi; lia | left; reflexivity].
  - destruct (bool_decide (l !! n = Some d0)) eqn:B;
      [destruct (Z.ltb_spec e m)|]; simpl in H.
    + destruct (IH l (e + 1) m end_ e' H) as (He & Hle & Hz & Hstop).
      split; [lia|]. split; [lia|]. split; [|exact Hstop].
      intros i Hi. destruct (decide (i = n)) as [-> | Hn];
        [apply bool_decide_eq_true in B; exact B | apply Hz; lia].
    + injection H as <- <-. split; [lia|]. split; [lia|].
      split; [intros i Hi; lia|].
      right. exists n. split; [reflexivity|]. right.
      split; [apply bool_decide_eq_true in B; exact B | lia].
    + injection H as <- <-. split; [lia|]. split; [lia|].
      split; [intros i Hi; lia|].
      right. exists n. split; [reflexivity|]. left.
      apply bool_decide_eq_false in B. exact B.
Qed.

Lemma last_take (l : list digit) (n : nat) :
  (n < length l)%nat -> last (take (S n) l) = l !! n.
Proof.
  intros H. rewrite last_lookup, length_take.
  replace (Init.Nat.pred (S n `min` length l)) with n by lia.
  apply lookup_take_lt. lia.
Qed.

(** Trailing zeros never reach the digit count that [format_decimal]
    checks: the normal form of a well-formed number is well-formed, and
    it is the single digit 0 or ends in a digit that is no zero. *)
Lemma normalize_no_trailing_zero c (d val : Decimal) :
  valid_context c -> finite d -> well_formed d ->
  normalize c d = Ok val ->
  well_formed val /\
  (_int val = [d0] \/ exists d', last (_int val) = Some d' /\ d' <> d0).
Proof.
  intros V F W H. unfold finite, _is_special in F.
  destruct (_exp d) as [e| | |] eqn:E; try discriminate.
  destruct (decide (_int d = [d0])) as [Z | N].
  { rewrite (normalize_zero c d e E Z) in H. injection H as <-.
    split; [split; [simpl; eauto | reflexivity] | left; reflexivity]. }
  rewrite (normalize_finite_unfold c d e E) in H.
  destruct (_fix c d) as [dup|] eqn:Hfix; [|discriminate]. cbn [bind] in H.
  destruct (fix_well_formed c d e dup V E W N Hfix) as (e1 & E1 & W1 & A1).
  unfold stripped in H. rewrite E1, (nonzero_finite dup e1 E1) in H.
  case_bool_decide as Z1; cbn [negb] in H.
  { injection H as <-. split; [split; [simpl; eauto | reflexivity] | left; reflexivity]. }
  destruct (strip_zeros _ _ _ _) as [end_ e'] eqn:Hs. injection H as <-.
  cbn [_int].
  destruct (strip_zeros_stop _ _ _ _ _ _ Hs) as (He & Hle & Hz & Hstop).
  destruct (no_leading_zero_cases _ W1) as [? | (x & t & Hx & Nx)]; [congruence|].
  rewrite Hx in *. clear Hx.
  assert (H0 : (x :: t) !! 0%nat <> Some d0) by (simpl; congruence).
  assert (Hend : exists end', end_ = S end' /\ (x :: t) !! end' <> Some d0).
  { destruct Hstop as [-> | (end' & -> & [Hd | [Hd Htop]])].
    - exfalso. apply H0, Hz. simpl. lia.
    - eauto.
    - exfalso. assert (end' = 0%nat) as -> by (unfold len in *; simpl in *; lia).
      apply H0, Hd. }
  destruct Hend as (end' & -> & Hd). split.
  - split; simpl; [eauto|]. intros [= ->]. congruence.
  - right. rewrite last_take by lia.
    destruct (lookup_lt_is_Some_2 (x :: t) end') as [d' Hd']; [lia|].
    exists d'. split; [exact Hd'|]. intros ->. apply Hd, Hd'.
Qed.

(** ** The result depends on the sign and the number only *)

(** C9, as the code has it.  Two well-formed finite [Decimal]s with the
    same sign and the same number have the same normal form, so that
    [format_decimal] gives the same string for both, or fails on both in
    the same way: the same message up to the argument it quotes.  The
    digits that are counted are those of the normal form, which ends in
    no zero. *)
Theorem format_decimal_of_same_number
    py c (x y : Decimal) (max_digits exponent_limit : Z) :
  valid_context c ->
  finite x -> finite y -> well_formed x -> well_formed y ->
  _sign x = _sign y ->
  same_number x y ->
  normalize c x = normalize c y /\
  same_outcome c x y
    (FormattedDecimalField.format_decimal py c x max_digits exponent_limit)
    (FormattedDecimalField.format_decimal py c y max_digits exponent_limit) /\
  (forall val, normalize c x = Ok val ->
     _int val = [d0] \/ exists d, last (_int val) = Some d /\ d <> d0).
Proof.
  intros V Fx Fy Wx Wy S N.
  pose proof (normalize_same_number c x y V Fx Fy Wx Wy S N) as Hn.
  split; [exact Hn|]. split; [apply same_outcome_of_normalize; assumption|].
  intros val Hv. apply (normalize_no_trailing_zero c x val V Fx Wx Hv).
Qed.

Lemma format_decimal_of_same_number_witness :
  normalize DefaultContext (mkDecimal false [d1; d2; d3; d0; d0] (ExpInt (-4)))
  = normalize DefaultContext (mkDecimal false [d1; d2; d3] (ExpInt (-2))) /\
  same_outcome DefaultContext
    (mkDecimal false [d1; d2; d3; d0; d0] (ExpInt (-4)))
    (mkDecimal false [d1; d2; d3] (ExpInt (-2)))
    (Ok "1.23") (Ok "1.23").
Proof.
  refine (let H := format_decimal_of_same_number Python3 DefaultContext
    (mkDecimal false [d1; d2; d3; d0; d0] (ExpInt (-4)))
    (mkDecimal false [d1; d2; d3] (ExpInt (-2))) 100 100 _ _ _ _ _ _ _ in
    conj (proj1 H) (proj1 (proj2 H))).
  - unfold valid_context. simpl. lia.
  - reflexivity.
  - reflexivity.
  - split; [simpl; eauto | discriminate].
  - split; [simpl; eauto | discriminate].
  - reflexivity.
  - reflexivity.
Defined.

(** C9, as the claim has it, fails: 0 and -0 are the same number and are
    formatted differently. *)
Lemma format_decimal_tells_signed_zeros_apart :
  let zero := mkDecimal false [d0] (ExpInt 0) in
  let minus_zero := mkDecimal true [d0] (ExpInt 0) in
  same_number zero minus_zero /\
  FormattedDecimalField.format_decimal Python3 DefaultContext zero 100 100 = Ok "0" /\
  FormattedDecimalField.format_decimal Python3 DefaultContext minus_zero 100 100 = Ok "-0".
Proof. repeat split. Qed.

(** ** The constructors build well-formed numbers *)

Lemma lstrip0_head (ds : list digit) : head (lstrip0 ds) <> Some d0.
Proof.
  induction ds as [|d ds IH]; simpl; [discriminate|].
  destruct d; simpl; try discriminate. exact IH.
Qed.

Lemma canonical_no_leading_zero (ds : list digit) : no_leading_zero (canonical ds).
Proof.
  unfold canonical. pose proof (lstrip0_head ds) as H.
  destruct (lstrip0 ds) as [|d t]; simpl.
  - split; [simpl; eauto | reflexivity].
  - split; simpl; [eauto|]. intros [= ->]. simpl in H. congruence.
Qed.

(** [Decimal(s)], when it is a finite number, is well-formed. *)
Lemma of_string_well_formed (s : string) (d : Decimal) :
  of_string s = Ok d -> finite d -> well_formed d.
Proof.
  unfold of_string. destruct (split_sign s) as [sign s0].
  destruct (span_digits s0) as [intpart s1].
  destruct (match strip_prefix "." s1 with Some _ => _ | None => _ end)
    as [[fracpart s2] has_digit].
  destruct has_digit.
  - destruct (parse_exp s2); [|discriminate].
    intros [= <-] _. apply canonical_no_leading_zero.
  - destruct (_ || _); [intros [= <-]; discriminate|].
    destruct (match strip_prefix "s" (lower_string s0) with Some _ => _ | None => _ end)
      as [signal w].
    destruct (strip_prefix "nan" w) as [t|]; [|discriminate].
    destruct (span_digits t) as [diag [|]]; [|discriminate].
    intros [= <-]. destruct signal; discriminate.
Qed.

(** [Decimal(n)] for an integer is well-formed. *)
Lemma of_int_well_formed (n : Z) : well_formed (of_int n).
Proof. apply digits_of_int_no_leading_zero. lia. Qed.

(** * Further properties *)

(** ** The identifier field: construction *)

Lemma identifier_kwargs_given kwargs k v :
  kwargs !! k = Some v -> identifier_kwargs kwargs !! k = Some v.
Proof.
  intros E. unfold identifier_kwargs.
  rewrite !setdefault_lookup.
  repeat (case_decide; subst; [rewrite ?setdefault_lookup; repeat case_decide; subst;
                               rewrite ?E; simpl; try reflexivity; try congruence|]).
  exact E.
Qed.

Lemma identifier_kwargs_dom kwargs :
  dom (identifier_kwargs kwargs) ⊆ dom Field_parameters <->
  dom kwargs ⊆ dom Field_parameters.
Proof.
  split; intros H k Hk; apply elem_of_dom in Hk as [v Hk].
  - apply H, elem_of_dom. exists v. apply identifier_kwargs_given, Hk.
  - unfold identifier_kwargs in Hk. rewrite !setdefault_lookup in Hk.
    repeat (case_decide; subst; [apply elem_of_dom; vm_compute; eauto|]).
    apply H, elem_of_dom. eauto.
Qed.

Lemma identifier_kwargs_max_length kwargs :
  identifier_kwargs kwargs !! "max_length"
  = Some (default (Int 64) (kwargs !! "max_length")).
Proof.
  unfold identifier_kwargs.
  do 5 (rewrite setdefault_other by discriminate).
  rewrite setdefault_lookup. case_decide; [reflexivity | congruence].
Qed.

Lemma identifier_kwargs_validators kwargs :
  identifier_kwargs kwargs !! "validators" = kwargs !! "validators".
Proof.
  unfold identifier_kwargs. do 6 (rewrite setdefault_other by discriminate). reflexivity.
Qed.

Lemma identifier_kwargs_dom_validators kwargs :
  dom (delete "validators" (identifier_kwargs kwargs)) ⊆ dom Field_parameters <->
  dom (delete "validators" kwargs) ⊆ dom Field_parameters.
Proof.
  split; intros H k Hk; apply elem_of_dom in Hk as [v Hk];
    apply lookup_delete_Some in Hk as [N Hk].
  - apply H, elem_of_dom. exists v. apply lookup_delete_Some. split; [exact N|].
    apply identifier_kwargs_given, Hk.
  - unfold identifier_kwargs in Hk. rewrite !setdefault_lookup in Hk.
    repeat (case_decide; subst; [apply elem_of_dom; vm_compute; eauto|]).
    apply H, elem_of_dom. exists v. apply lookup_delete_Some. auto.
Qed.

Lemma Field_validators_inv kwargs given :
  Field_validators kwargs = Ok given ->
  given = Given <$> given_validators kwargs /\
  forall v, kwargs !! "validators" = Some v -> exists items s, v = List items s.
Proof.
  unfold Field_validators, given_validators.
  destruct (kwargs !! "validators") as [[]|]; try discriminate; intros [= <-];
    (split; [reflexivity|]); intros v [= <-]; eauto.
Qed.

Lemma Field_validators_accepts kwargs :
  (forall v, kwargs !! "validators" = Some v -> exists items s, v = List items s) ->
  Field_validators kwargs = Ok (Given <$> given_validators kwargs).
Proof.
  unfold Field_validators, given_validators. intros H.
  destruct (kwargs !! "validators") as [v|]; [|reflexivity].
  destruct (H v eq_refl) as (items & s & ->). reflexivity.
Qed.

Lemma Field_validators_rejects kwargs :
  ~ (forall v, kwargs !! "validators" = Some v -> exists items s, v = List items s) ->
  Field_validators kwargs = Raise TypeError.
Proof.
  unfold Field_validators. intros H.
  destruct (kwargs !! "validators") as [v|].
  - destruct v; try reflexivity. exfalso. apply H. intros v [= <-]. eauto.
  - exfalso. apply H. intros v [=].
Qed.

(** What the constructor does with keywords that hold [unique]. *)
Lemma identifier_init_outcome kwargs :
  is_Some (kwargs !! "unique") ->
  InternalIdentifierField.__init__ kwargs =
  if decide (dom (delete "validators" kwargs) ⊆ dom Field_parameters) then
    given <- Field_validators kwargs ;;
    Ok (mkField
          (Field_attributes
             (delete "validators" (identifier_kwargs kwargs) ∪ Field_parameters))
          (given ++ [MaxLengthValidator (default (Int 64) (kwargs !! "max_length"));
                     IdentifierValidator]))
  else Raise TypeError.
Proof.
  intros U. unfold InternalIdentifierField.__init__.
  rewrite (bool_decide_eq_true_2 _ U). cbn [negb].
  fold (identifier_kwargs kwargs).
  unfold CharField___init__, Field___init__.
  destruct (decide (dom (delete "validators" kwargs) ⊆ dom Field_parameters)) as [D | D].
  - rewrite decide_True by (apply identifier_kwargs_dom_validators, D).
    unfold Field_validators. rewrite identifier_kwargs_validators.
    fold (Field_validators kwargs).
    destruct (Field_validators kwargs) as [given|]; [|reflexivity].
    cbn [bind attrs validators]. unfold getattr.
    rewrite Field_attributes_lookup by reflexivity.
    rewrite without_validators_lookup by discriminate.
    rewrite (union_lookup_given _ _ _ _ (identifier_kwargs_max_length kwargs)).
    cbn [bind attrs validators]. rewrite <- app_assoc. reflexivity.
  - rewrite decide_False by (rewrite identifier_kwargs_dom_validators; exact D).
    reflexivity.
Qed.

(** What the constructor returns, when Django takes the keywords. *)
Lemma identifier_init_accepted kwargs :
  is_Some (kwargs !! "unique") -> Field_accepts kwargs ->
  InternalIdentifierField.__init__ kwargs =
  Ok (mkField
        (Field_attributes
           (delete "validators" (identifier_kwargs kwargs) ∪ Field_parameters))
        ((Given <$> given_validators kwargs) ++
         [MaxLengthValidator (default (Int 64) (kwargs !! "max_length"));
          IdentifierValidator])).
Proof.
  intros U [D V]. rewrite (identifier_init_outcome kwargs U).
  rewrite decide_True by exact D.
  rewrite (Field_validators_accepts kwargs V). reflexivity.
Qed.

Lemma identifier_init_rejected kwargs :
  is_Some (kwargs !! "unique") -> ~ Field_accepts kwargs ->
  InternalIdentifierField.__init__ kwargs = Raise TypeError.
Proof.
  intros U NA. rewrite (identifier_init_outcome kwargs U).
  case_decide as D; [|reflexivity].
  rewrite Field_validators_rejects; [reflexivity|].
  intros V. apply NA. split; assumption.
Qed.

Lemma Field_accepts_dec kwargs : Field_accepts kwargs \/ ~ Field_accepts kwargs.
Proof.
  unfold Field_accepts.
  destruct (decide (dom (delete "validators" kwargs) ⊆ dom Field_parameters)) as [D | D];
    [|right; tauto].
  destruct (kwargs !! "validators") as [v|]; [|left; split; [exact D | intros v [=]]].
  destruct v;
    try (right; intros [_ H]; destruct (H _ eq_refl) as (? & ? & ?); discriminate).
  left. split; [exact D|]. intros v [= <-]. eauto.
Qed.

Lemma identifier_init_keywords kwargs f :
  InternalIdentifierField.__init__ kwargs = Ok f ->
  is_Some (kwargs !! "unique") /\ Field_accepts kwargs.
Proof.
  intros I. pose proof (identifier_init_inv kwargs f I) as [U _].
  split; [exact U|].
  destruct (Field_accepts_dec kwargs) as [A | A]; [exact A|].
  rewrite (identifier_init_rejected kwargs U A) in I. discriminate.
Qed.

(** Keywords that are all parameters hold no [validators]. *)
Lemma Field_accepts_parameters kwargs :
  dom kwargs ⊆ dom Field_parameters ->
  Field_accepts kwargs /\ given_validators kwargs = [].
Proof.
  intros D.
  assert (V : kwargs !! "validators" = None).
  { apply not_elem_of_dom. intros Hk. apply D, elem_of_dom in Hk as [v Hk].
    vm_compute in Hk. discriminate. }
  unfold Field_accepts, given_validators. rewrite V, (delete_id _ _ V).
  split; [split; [exact D | intros v [=]] | reflexivity].
Qed.

Lemma identifier_kwargs_verbose_name kwargs :
  identifier_kwargs kwargs !! "verbose_name"
  = Some (default (Promise "internal identifier") (kwargs !! "verbose_name")).
Proof.
  unfold identifier_kwargs.
  do 2 (rewrite setdefault_other by discriminate).
  rewrite setdefault_lookup. case_decide; [|congruence].
  do 3 (rewrite setdefault_other by discriminate). reflexivity.
Qed.

Lemma identifier_kwargs_help_text kwargs :
  identifier_kwargs kwargs !! "help_text"
  = Some (default
            (Promise "Do not change this value if you are not sure what you are doing.")
            (kwargs !! "help_text")).
Proof.
  unfold identifier_kwargs.
  rewrite setdefault_other by discriminate.
  rewrite setdefault_lookup. case_decide; [|congruence].
  do 4 (rewrite setdefault_other by discriminate). reflexivity.
Qed.

(** X1.  Without [error_messages] among the keywords, the constructor
    of the identifier field fails in two ways only, and in this order:
    without [unique] it raises the configuration error, whatever the
    other keywords are; with [unique] it raises Django's [TypeError]
    exactly when some keyword is none of [models.Field]'s or
    [validators] is no list; otherwise it returns a field. *)
Theorem identifier_field_constructor_outcome (kwargs : dict) :
  kwargs !! "error_messages" = None ->
  match InternalIdentifierField.__init__ kwargs with
  | Ok _ => is_Some (kwargs !! "unique") /\ Field_accepts kwargs
  | Raise e =>
      (kwargs !! "unique" = None /\
       e = ValueError
         "Error! You must explicitly set the `unique` flag for `InternalIdentifierField`s.")
      \/ (is_Some (kwargs !! "unique") /\ ~ Field_accepts kwargs /\ e = TypeError)
  end.
Proof.
  intros _. destruct (decide (is_Some (kwargs !! "unique"))) as [U | U].
  - destruct (Field_accepts_dec kwargs) as [D | D].
    + rewrite (identifier_init_accepted kwargs U D). split; assumption.
    + rewrite (identifier_init_rejected kwargs U D). right. auto.
  - unfold InternalIdentifierField.__init__.
    rewrite (bool_decide_eq_false_2 _ U). cbn [negb].
    left. split; [|reflexivity].
    destruct (kwargs !! "unique"); [exfalso; apply U; eauto | reflexivity].
Qed.

Lemma identifier_field_constructor_outcome_witness :
  exists f,
    InternalIdentifierField.__init__
      {[ "unique" := Bool true; "validators" := List [] "[]" ]} = Ok f /\
    Field_accepts {[ "unique" := Bool true; "validators" := List [] "[]" ]}.
Proof.
  pose proof (identifier_field_constructor_outcome
                {[ "unique" := Bool true; "validators" := List [] "[]" ]} eq_refl) as H.
  destruct (InternalIdentifierField.__init__
              {[ "unique" := Bool true; "validators" := List [] "[]" ]}) as [f|e] eqn:I.
  - exists f. split; [reflexivity | apply H].
  - vm_compute in I. discriminate.
Defined.

(** X2.  A field that was constructed has each setting as the caller
    gave it, and otherwise the module's default: 64 for [max_length],
    true for [blank], false for [editable], the lazy texts for
    [verbose_name] and [help_text], and for [null] the truth value of
    [blank]. *)
Theorem identifier_field_settings (kwargs : dict) (f : Field) :
  InternalIdentifierField.__init__ kwargs = Ok f ->
  attrs f !! "max_length" = Some (default (Int 64) (kwargs !! "max_length")) /\
  attrs f !! "blank" = Some (default (Bool true) (kwargs !! "blank")) /\
  attrs f !! "null" =
    Some (default (Bool (truthy (default (Bool true) (kwargs !! "blank"))))
                  (kwargs !! "null")) /\
  attrs f !! "verbose_name" =
    Some (default (Promise "internal identifier") (kwargs !! "verbose_name")) /\
  attrs f !! "help_text" =
    Some (default
            (Promise "Do not change this value if you are not sure what you are doing.")
            (kwargs !! "help_text")) /\
  attrs f !! "editable" = Some (default (Bool false) (kwargs !! "editable")) /\
  attrs f !! "_unique" = kwargs !! "unique".
Proof.
  intros I.
  assert (A : forall k v, kept_as_passed k = true ->
              identifier_kwargs kwargs !! k = Some v -> attrs f !! k = Some v)
    by (intros k v; apply (identifier_field_attr kwargs f k v I)).
  repeat split.
  - apply A; [reflexivity|]. apply identifier_kwargs_max_length.
  - apply A; [reflexivity|]. apply identifier_kwargs_blank.
  - apply A; [reflexivity|]. apply identifier_kwargs_null.
  - apply A; [reflexivity|]. unfold identifier_kwargs.
    do 2 (rewrite setdefault_other by discriminate).
    rewrite setdefault_lookup. case_decide; [|congruence].
    do 3 (rewrite setdefault_other by discriminate). reflexivity.
  - apply A; [reflexivity|]. unfold identifier_kwargs.
    rewrite setdefault_other by discriminate.
    rewrite setdefault_lookup. case_decide; [|congruence].
    do 4 (rewrite setdefault_other by discriminate). reflexivity.
  - apply A; [reflexivity|]. unfold identifier_kwargs.
    rewrite setdefault_lookup. case_decide; [|congruence].
    do 5 (rewrite setdefault_other by discriminate). reflexivity.
  - pose proof I as I'. apply identifier_init_inv in I' as ([u U] & f0 & I0 & ->).
    rewrite (Field_init_unique _ _ I0). unfold get.
    rewrite (union_lookup_given _ _ "unique" u (identifier_kwargs_given kwargs _ _ U)).
    rewrite U. reflexivity.
Qed.

Lemma identifier_field_settings_witness :
  exists f,
    InternalIdentifierField.__init__
      {[ "unique" := Bool false; "blank" := Bool false; "max_length" := Int 20 ]} = Ok f /\
    attrs f !! "max_length" = Some (Int 20) /\
    attrs f !! "null" = Some (Bool false) /\
    attrs f !! "editable" = Some (Bool false).
Proof.
  destruct (InternalIdentifierField.__init__
              {[ "unique" := Bool false; "blank" := Bool false; "max_length" := Int 20 ]})
    as [f|] eqn:I; [|vm_compute in I; discriminate].
  exists f. split; [reflexivity|].
  destruct (identifier_field_settings _ f I) as (M & _ & N & _ & _ & E & _).
  rewrite M, N, E. repeat split.
Defined.

(** A [blank] that is an empty list is false, and so is the [null] made
    of it. *)
Example identifier_field_blank_list :
  exists f,
    InternalIdentifierField.__init__
      {[ "unique" := Bool true; "blank" := List [] "[]" ]} = Ok f /\
    attrs f !! "null" = Some (Bool false).
Proof. eexists. split; vm_compute; reflexivity. Qed.

(** X3.  Every identifier field that was constructed validates with the
    validators the caller passed, in their order, then with Django's
    length validator for its [max_length] and last with the identifier
    validator, and with nothing else. *)
Theorem identifier_field_validators (kwargs : dict) (f : Field) :
  InternalIdentifierField.__init__ kwargs = Ok f ->
  validators f =
  (Given <$> given_validators kwargs) ++
  [MaxLengthValidator (default (Int 64) (kwargs !! "max_length")); IdentifierValidator].
Proof.
  intros I. destruct (identifier_init_keywords kwargs f I) as [U D].
  rewrite (identifier_init_accepted kwargs U D) in I. injection I as <-. reflexivity.
Qed.

Lemma identifier_field_validators_witness :
  exists f,
    InternalIdentifierField.__init__
      {[ "unique" := Bool true;
         "validators" := List [Object "function" false true "<function no_spaces>"]
                              "[<function no_spaces>]" ]} = Ok f /\
    validators f =
    [Given (Object "function" false true "<function no_spaces>");
     MaxLengthValidator (Int 64); IdentifierValidator].
Proof.
  destruct (InternalIdentifierField.__init__
              {[ "unique" := Bool true;
                 "validators" := List [Object "function" false true "<function no_spaces>"]
                                      "[<function no_spaces>]" ]})
    as [f|] eqn:I; [|vm_compute in I; discriminate].
  exists f. split; [reflexivity|].
  rewrite (identifier_field_validators _ f I). reflexivity.
Defined.

(** ** The identifier field: preparing a value *)

Lemma truthy_Str (s : string) : truthy (Str s) = negb (bool_decide (s = "")).
Proof. reflexivity. Qed.

(** X4.  A field whose [null] flag is set never stores the empty string,
    whatever it is given: a lazy empty text and an object whose text is
    empty become null as well. *)
Theorem get_prep_value_never_empty c (f : Field) (value r : object) :
  flag_set f "null" ->
  InternalIdentifierField.get_prep_value c f value = Ok r ->
  r <> Str "".
Proof.
  intros (n & En & Tn) H.
  rewrite (get_prep_value_of_null c f n value En), Tn in H. injection H as <-.
  unfold or_. destruct (truthy (CharField_get_prep_value c value)) eqn:T; [|discriminate].
  intros E. rewrite E in T. discriminate.
Qed.

Lemma get_prep_value_never_empty_witness :
  exists f r,
    InternalIdentifierField.__init__ {[ "unique" := Bool true ]} = Ok f /\
    InternalIdentifierField.get_prep_value DefaultContext f (Promise "") = Ok r /\
    r <> Str "".
Proof.
  destruct (InternalIdentifierField.__init__ {[ "unique" := Bool true ]})
    as [f|] eqn:I; [|vm_compute in I; discriminate].
  assert (N : attrs f !! "null" = Some (Bool true)).
  { apply (identifier_field_attr _ f "null" _ I); [reflexivity|].
    rewrite identifier_kwargs_null. reflexivity. }
  exists f, None_. split; [reflexivity|].
  assert (G : InternalIdentifierField.get_prep_value DefaultContext f (Promise "") = Ok None_).
  { rewrite (get_prep_value_of_null DefaultContext f _ _ N). reflexivity. }
  split; [exact G|].
  apply (get_prep_value_never_empty DefaultContext f (Promise "") None_); [|exact G].
  eexists. split; [exact N | reflexivity].
Defined.

(** X5.  Preparing a value twice is preparing it once: what
    [get_prep_value] returns is returned unchanged when given back. *)
Theorem get_prep_value_idempotent c (f : Field) (value r : object) :
  InternalIdentifierField.get_prep_value c f value = Ok r ->
  InternalIdentifierField.get_prep_value c f r = Ok r.
Proof.
  unfold InternalIdentifierField.get_prep_value, getattr.
  destruct (attrs f !! "null") as [n|]; [|discriminate]. cbn [bind].
  destruct (CharField_get_prep_value_text c value) as [E | [s E]]; rewrite E.
  - destruct (truthy n); intros [= <-]; reflexivity.
  - destruct (truthy n) eqn:T.
    + unfold or_ at 1. destruct (truthy (Str s)) eqn:Ts; intros [= <-].
      * cbn [CharField_get_prep_value]. unfold or_. rewrite Ts. reflexivity.
      * reflexivity.
    + intros [= <-]. reflexivity.
Qed.

Lemma get_prep_value_idempotent_witness :
  InternalIdentifierField.get_prep_value DefaultContext
    (mkField {[ "null" := Bool true ]} []) (Str "sku_code") = Ok (Str "sku_code").
Proof.
  apply (get_prep_value_idempotent DefaultContext
           (mkField {[ "null" := Bool true ]} []) (Promise "sku_code") (Str "sku_code")).
  reflexivity.
Defined.

(** X6.  A value that is not null and whose text is not empty is stored
    as that text, whatever the flags of the field: a string as it is, a
    lazy string resolved, anything else through [str]. *)
Theorem get_prep_value_text c (f : Field) (n value : object) :
  attrs f !! "null" = Some n ->
  value <> None_ ->
  str c value <> "" ->
  InternalIdentifierField.get_prep_value c f value = Ok (Str (str c value)).
Proof.
  intros En Nv Ns. rewrite (get_prep_value_of_null c f n value En).
  assert (P : CharField_get_prep_value c value = Str (str c value)).
  { destruct value; try reflexivity. congruence. }
  rewrite P. unfold or_. rewrite truthy_Str.
  rewrite bool_decide_eq_false_2 by exact Ns. cbn [negb].
  destruct (truthy n); reflexivity.
Qed.

Lemma get_prep_value_text_witness :
  InternalIdentifierField.get_prep_value DefaultContext
    (mkField {[ "null" := Bool true ]} []) (Int (-42)) = Ok (Str "-42").
Proof.
  apply (get_prep_value_text DefaultContext
           (mkField {[ "null" := Bool true ]} []) (Bool true) (Int (-42)));
    [reflexivity | discriminate | vm_compute; discriminate].
Defined.

(** X7.  The other side of the null rule: a field constructed with a
    false [blank] and no [null] of the caller's has its [null] flag off,
    and stores what Django prepared as it is, the empty string as the
    empty string. *)
Theorem get_prep_value_of_required_field c (kwargs : dict) (f : Field) (blank value : object) :
  InternalIdentifierField.__init__ kwargs = Ok f ->
  kwargs !! "null" = None ->
  kwargs !! "blank" = Some blank ->
  truthy blank = false ->
  attrs f !! "null" = Some (Bool false) /\
  InternalIdentifierField.get_prep_value c f value = Ok (CharField_get_prep_value c value) /\
  InternalIdentifierField.get_prep_value c f (Str "") = Ok (Str "").
Proof.
  intros I En Eb Tb.
  assert (N := identifier_field_attr kwargs f "null" _ I
                 eq_refl (identifier_kwargs_null kwargs)).
  rewrite En, Eb in N. simpl in N. rewrite Tb in N.
  split; [exact N|].
  rewrite !(get_prep_value_of_null c f _ _ N). split; reflexivity.
Qed.

Lemma get_prep_value_of_required_field_witness :
  exists f,
    InternalIdentifierField.__init__ {[ "unique" := Bool true; "blank" := Bool false ]} = Ok f /\
    InternalIdentifierField.get_prep_value DefaultContext f (Str "") = Ok (Str "").
Proof.
  destruct (InternalIdentifierField.__init__
              {[ "unique" := Bool true; "blank" := Bool false ]})
    as [f|] eqn:I; [|vm_compute in I; discriminate].
  exists f. split; [reflexivity|].
  apply (get_prep_value_of_required_field DefaultContext _ f (Bool false) None_ I);
    reflexivity.
Defined.

(** ** The identifier field: deconstruction *)

Lemma deconstruct_inv
    (super_deconstruct : Field -> object * string * list object * dict)
    (self : Field) name path args kwargs :
  InternalIdentifierField.deconstruct super_deconstruct self = Ok (name, path, args, kwargs) ->
  exists null uniq blank,
    getattr (attrs self) "null" = Ok null /\
    unique self = Ok uniq /\
    getattr (attrs self) "blank" = Ok blank /\
    super_deconstruct self =
      (name, path, args, (super_deconstruct self).2) /\
    kwargs =
      pop "help_text" (pop "verbose_name"
        (<["blank" := blank]> (<["unique" := uniq]> (<["null" := null]>
           (super_deconstruct self).2)))).
Proof.
  unfold InternalIdentifierField.deconstruct.
  destruct (super_deconstruct self) as [[[name0 path0] args0] kwargs0].
  destruct (getattr (attrs self) "null") as [null|]; [|discriminate]. cbn [bind].
  destruct (unique self) as [uniq|]; [|discriminate]. cbn [bind].
  destruct (getattr (attrs self) "blank") as [blank|]; [|discriminate]. cbn [bind].
  intros [= <- <- <- <-]. exists null, uniq, blank. auto.
Qed.

Lemma deconstruct_total
    (super_deconstruct : Field -> object * string * list object * dict)
    (kwargs0 : dict) (self : Field) :
  InternalIdentifierField.__init__ kwargs0 = Ok self ->
  exists name path args kwargs,
    InternalIdentifierField.deconstruct super_deconstruct self
    = Ok (name, path, args, kwargs).
Proof.
  intros I.
  destruct (identifier_field_has kwargs0 self "null" I) as [null En];
    [reflexivity | vm_compute; eauto |].
  destruct (identifier_field_has kwargs0 self "blank" I) as [blank Eb];
    [reflexivity | vm_compute; eauto |].
  destruct (identifier_field_has kwargs0 self "primary_key" I) as [pk Ep];
    [reflexivity | vm_compute; eauto |].
  destruct (identifier_field_unique kwargs0 self I) as [u Eu].
  unfold InternalIdentifierField.deconstruct, unique, getattr.
  destruct (super_deconstruct self) as [[[name path] args] kwargs].
  rewrite En, Eb, Eu, Ep. simpl. eauto 6.
Qed.

(** X8.  [deconstruct] hands on what [models.Field.deconstruct] returned:
    the name, the path, the positional arguments and every keyword other
    than [null], [unique], [blank], [verbose_name] and [help_text]. *)
Theorem deconstruct_passes_on
    (super_deconstruct : Field -> object * string * list object * dict)
    (self : Field) name path args kwargs :
  InternalIdentifierField.deconstruct super_deconstruct self = Ok (name, path, args, kwargs) ->
  super_deconstruct self = (name, path, args, (super_deconstruct self).2) /\
  forall k, k ∉ ["null"; "unique"; "blank"; "verbose_name"; "help_text"] ->
            kwargs !! k = (super_deconstruct self).2 !! k.
Proof.
  intros H. apply deconstruct_inv in H as (null & uniq & blank & _ & _ & _ & S & ->).
  split; [exact S|]. intros k Hk.
  assert (N : k <> "null" /\ k <> "unique" /\ k <> "blank" /\
              k <> "verbose_name" /\ k <> "help_text").
  { repeat split; intros ->; apply Hk;
      repeat (first [apply list_elem_of_here | apply list_elem_of_further]). }
  destruct N as (N1 & N2 & N3 & N4 & N5). unfold pop.
  rewrite !lookup_delete_ne by congruence.
  rewrite !lookup_insert_ne by congruence. reflexivity.
Qed.

Lemma deconstruct_passes_on_witness :
  exists kwargs,
    InternalIdentifierField.deconstruct
      (fun f => (Str "code", "oscar.models.fields.decimal.InternalIdentifierField", [],
                 {[ "max_length" := Int 64; "help_text" := Str "x" ]}))
      (mkField {[ "null" := Bool true; "blank" := Bool true;
                  "_unique" := Bool true; "primary_key" := Bool false ]} [])
    = Ok (Str "code", "oscar.models.fields.decimal.InternalIdentifierField", [], kwargs) /\
    kwargs !! "max_length" = Some (Int 64).
Proof.
  eexists. split; [reflexivity|].
  refine (eq_trans (proj2 (deconstruct_passes_on
    (fun f => (Str "code", "oscar.models.fields.decimal.InternalIdentifierField", [],
               {[ "max_length" := Int 64; "help_text" := Str "x" ]}))
    (mkField {[ "null" := Bool true; "blank" := Bool true;
                "_unique" := Bool true; "primary_key" := Bool false ]} [])
    _ _ _ _ eq_refl) "max_length" _) _).
  - intros H. repeat (apply elem_of_cons in H as [H | H]; [discriminate|]).
    apply elem_of_nil in H. exact H.
  - reflexivity.
Defined.

(** X9.  What [deconstruct] returns builds the field again: the keywords
    always hold [unique], so the constructor never raises its
    configuration error on them; and when the keywords that
    [models.Field.deconstruct] came up with are keywords of [models.Field],
    the constructor returns a field with the same [null] and [blank],
    with the original's [unique] for its [unique] argument, and with the
    module's [verbose_name] and [help_text]. *)
Theorem deconstruct_then_construct
    (super_deconstruct : Field -> object * string * list object * dict)
    (kwargs0 : dict) (self : Field) name path args kwargs :
  InternalIdentifierField.__init__ kwargs0 = Ok self ->
  InternalIdentifierField.deconstruct super_deconstruct self = Ok (name, path, args, kwargs) ->
  (forall msg, InternalIdentifierField.__init__ kwargs <> Raise (ValueError msg)) /\
  (dom (super_deconstruct self).2 ⊆ dom Field_parameters ->
   exists self' uniq,
     InternalIdentifierField.__init__ kwargs = Ok self' /\
     attrs self' !! "null" = attrs self !! "null" /\
     attrs self' !! "blank" = attrs self !! "blank" /\
     unique self = Ok uniq /\ attrs self' !! "_unique" = Some uniq /\
     attrs self' !! "verbose_name" = Some (Promise "internal identifier") /\
     attrs self' !! "help_text" =
       Some (Promise "Do not change this value if you are not sure what you are doing.")).
Proof.
  intros I H.
  apply deconstruct_inv in H as (null & uniq & blank & Gn & Gu & Gb & _ & ->).
  set (k0 := (super_deconstruct self).2).
  set (kwargs := pop "help_text" _).
  assert (Kn : kwargs !! "null" = Some null).
  { subst kwargs. unfold pop. rewrite !lookup_delete_ne by discriminate.
    rewrite !lookup_insert_ne by discriminate. apply lookup_insert_eq. }
  assert (Ku : kwargs !! "unique" = Some uniq).
  { subst kwargs. unfold pop. rewrite !lookup_delete_ne by discriminate.
    rewrite lookup_insert_ne by discriminate. apply lookup_insert_eq. }
  assert (Kb : kwargs !! "blank" = Some blank).
  { subst kwargs. unfold pop. rewrite !lookup_delete_ne by discriminate.
    apply lookup_insert_eq. }
  assert (Kv : kwargs !! "verbose_name" = None).
  { subst kwargs. unfold pop. rewrite lookup_delete_ne by discriminate.
    apply lookup_delete_eq. }
  assert (Kh : kwargs !! "help_text" = None).
  { subst kwargs. unfold pop. apply lookup_delete_eq. }
  assert (U : is_Some (kwargs !! "unique")) by (rewrite Ku; eauto).
  split.
  - intros msg E.
    destruct (Field_accepts_dec kwargs) as [D | D].
    + rewrite (identifier_init_accepted kwargs U D) in E. discriminate.
    + rewrite (identifier_init_rejected kwargs U D) in E. discriminate.
  - intros D0.
    assert (D : dom kwargs ⊆ dom Field_parameters).
    { intros k Hk. apply elem_of_dom in Hk as [v Hk]. subst kwargs. unfold pop in Hk.
      apply lookup_delete_Some in Hk as [_ Hk].
      apply lookup_delete_Some in Hk as [_ Hk].
      rewrite !lookup_insert in Hk.
      repeat (case_decide; subst; [apply elem_of_dom; vm_compute; eauto|]).
      apply D0, elem_of_dom. eauto. }
    destruct (InternalIdentifierField.__init__ kwargs) as [self'|] eqn:I';
      [|rewrite (identifier_init_accepted kwargs U (proj1 (Field_accepts_parameters _ D)))
          in I'; discriminate].
    exists self', uniq.
    assert (A : forall k v, kept_as_passed k = true ->
                identifier_kwargs kwargs !! k = Some v -> attrs self' !! k = Some v)
      by (intros k v; apply (identifier_field_attr kwargs self' k v I')).
    unfold getattr in Gn, Gb.
    destruct (attrs self !! "null") as [n|] eqn:En; [|discriminate].
    destruct (attrs self !! "blank") as [b|] eqn:Eb; [|discriminate].
    injection Gn as ->. injection Gb as ->.
    split; [reflexivity|]. repeat split.
    + apply A; [reflexivity|]. rewrite identifier_kwargs_null, Kn. reflexivity.
    + apply A; [reflexivity|]. rewrite identifier_kwargs_blank, Kb. reflexivity.
    + exact Gu.
    + apply identifier_init_inv in I' as (_ & f0 & I0 & ->).
      rewrite (Field_init_unique _ _ I0). unfold get.
      rewrite (union_lookup_given _ _ "unique" uniq (identifier_kwargs_given kwargs _ _ Ku)).
      reflexivity.
    + apply A; [reflexivity|]. rewrite identifier_kwargs_verbose_name, Kv. reflexivity.
    + apply A; [reflexivity|]. rewrite identifier_kwargs_help_text, Kh. reflexivity.
Qed.

Lemma deconstruct_then_construct_witness :
  exists self name path args kwargs self',
    InternalIdentifierField.__init__
      {[ "unique" := Bool true; "verbose_name" := Str "code" ]} = Ok self /\
    InternalIdentifierField.deconstruct
      (fun f => (None_, "oscar.models.fields.decimal.InternalIdentifierField", [],
                 {[ "max_length" := Int 64; "verbose_name" := Str "code" ]}))
      self = Ok (name, path, args, kwargs) /\
    InternalIdentifierField.__init__ kwargs = Ok self' /\
    attrs self' !! "null" = attrs self !! "null".
Proof.
  destruct (InternalIdentifierField.__init__
              {[ "unique" := Bool true; "verbose_name" := Str "code" ]})
    as [self|] eqn:I; [|vm_compute in I; discriminate].
  destruct (deconstruct_total
    (fun f => (None_, "oscar.models.fields.decimal.InternalIdentifierField", [],
               {[ "max_length" := Int 64; "verbose_name" := Str "code" ]}))
    _ self I) as (name & path & args & kwargs & D).
  destruct (deconstruct_then_construct _ _ self name path args kwargs I D) as [_ R].
  destruct R as (self' & uniq & I' & N & _).
  { intros k Hk. apply elem_of_dom in Hk as [v Hk]. cbn [snd] in Hk.
    apply elem_of_dom.
    destruct (decide (k = "max_length")) as [-> | N1]; [vm_compute; eauto|].
    destruct (decide (k = "verbose_name")) as [-> | N2]; [vm_compute; eauto|].
    rewrite lookup_insert_ne in Hk by congruence.
    rewrite lookup_singleton_ne in Hk by congruence. discriminate. }
  exists self, name, path, args, kwargs, self'. auto.
Defined.

(** ** The identifier validator on any value *)

(** X10.  What the validator accepts, for a value of any type: exactly
    the values whose text holds, somewhere, a lower-case letter followed
    by a lower-case letter or an underscore. *)
Theorem validator_accepts_exactly c (x : object) :
  validate c IdentifierValidator x = Ok tt <->
  exists before a b after,
    str c x = before +:+ String a (String b after) /\
    lowercase a = true /\ identifier_char b = true.
Proof. apply (IdentifierValidator_accepts c (str c x)). Qed.

Lemma validate_identifier_outcome c (x : object) :
  validate c IdentifierValidator x = Ok tt \/
  validate c IdentifierValidator x = Raise ValidationError.
Proof.
  unfold validate, IdentifierValidator. destruct (re.search _ _); auto.
Qed.

Lemma chars_length (s : string) : length (chars s) = String.length s.
Proof. induction s as [|ch s IH]; simpl; [reflexivity | f_equal; exact IH]. Qed.

(** X11.  What the validator rejects, with a [ValidationError]: every
    value whose text has fewer than two characters, the empty string
    among them, and every value whose text has no lower-case letter. *)
Theorem validator_rejects c (x : object) :
  (String.length (str c x) < 2)%nat \/
  (forall ch, ch ∈ chars (str c x) -> lowercase ch = false) ->
  validate c IdentifierValidator x = Raise ValidationError.
Proof.
  intros H.
  destruct (validate_identifier_outcome c x) as [A | R]; [|exact R].
  exfalso. apply (IdentifierValidator_accepts c (str c x)) in A
    as (before & a & b & after & E & La & Lb).
  destruct H as [H | H].
  - rewrite <- chars_length, E, chars_app, length_app in H. simpl in H. lia.
  - rewrite (H a) in La; [discriminate|].
    rewrite E, chars_app. apply elem_of_app. right. simpl. apply list_elem_of_here.
Qed.

Lemma validator_rejects_witness :
  validate DefaultContext IdentifierValidator (Str "") = Raise ValidationError /\
  validate DefaultContext IdentifierValidator (Int 2024) = Raise ValidationError.
Proof.
  split.
  - apply (validator_rejects DefaultContext (Str "")). left. simpl. lia.
  - apply (validator_rejects DefaultContext (Int 2024)). right.
    intros ch H. vm_compute in H.
    repeat (apply elem_of_cons in H as [-> | H]; [reflexivity|]).
    apply elem_of_nil in H. destruct H.
Defined.

(** X12.  The half of the identifier rule that the code keeps: a value
    whose text is an identifier in the strict sense is accepted. *)
Theorem validator_accepts_identifiers c (x : object) :
  is_identifier (str c x) = true -> validate c IdentifierValidator x = Ok tt.
Proof. apply (IdentifierValidator_accepts_identifiers c (str c x)). Qed.

Lemma validator_accepts_identifiers_witness :
  validate DefaultContext IdentifierValidator (Promise "order_status") = Ok tt.
Proof.
  apply (validator_accepts_identifiers DefaultContext (Promise "order_status")).
  reflexivity.
Defined.

(** ** The step of a number input: what else the method does *)

(** The two ways [widget_attrs] returns: the widget as it was, or the
    widget with a [step] it did not have. *)
Lemma widget_attrs_inv
    (super_widget_attrs : DecimalFormField -> Widget -> dict)
    (c : Context) (self : DecimalFormField) (widget widget' : Widget) (a : dict) :
  FormattedDecimalFormField.widget_attrs super_widget_attrs c self widget = Ok (widget', a) ->
  a = super_widget_attrs self widget' /\
  ((is_NumberInput widget = false \/ is_Some (w_attrs widget !! "step")) /\ widget' = widget
   \/ exists step,
        is_NumberInput widget = true /\ w_attrs widget !! "step" = None /\
        widget' = mkWidget true (<["step" := Str step]> (w_attrs widget))).
Proof.
  unfold FormattedDecimalFormField.widget_attrs.
  destruct (is_NumberInput widget) eqn:N; cbn [andb].
  - destruct (w_attrs widget !! "step") as [v|] eqn:S.
    + rewrite bool_decide_eq_true_2 by eauto. cbn [negb bind].
      intros [= <- <-]. split; [reflexivity|]. left. split; [eauto | reflexivity].
    + rewrite bool_decide_eq_false_2 by (intros [? ?]; discriminate). cbn [negb].
      destruct (match decimal_places self with Some _ => _ | None => _ end) as [step|];
        [|discriminate].
      cbn [bind]. unfold setdefault. rewrite S.
      intros [= <- <-]. split; [reflexivity|]. right. exists step. auto.
  - cbn [bind]. intros [= <- <-]. split; [reflexivity|]. left. auto.
Qed.

(** X13.  The method touches the [step] of the widget and nothing else:
    the widget stays the kind it was, every other attribute stays as it
    was, a [step] that was there stays, and the dictionary returned is
    that of [forms.DecimalField.widget_attrs] for the widget as it is
    afterwards. *)
Theorem widget_attrs_changes_step_only
    (super_widget_attrs : DecimalFormField -> Widget -> dict)
    (c : Context) (self : DecimalFormField) (widget widget' : Widget) (a : dict) :
  FormattedDecimalFormField.widget_attrs super_widget_attrs c self widget = Ok (widget', a) ->
  is_NumberInput widget' = is_NumberInput widget /\
  (forall k, k <> "step" -> w_attrs widget' !! k = w_attrs widget !! k) /\
  (forall v, w_attrs widget !! "step" = Some v -> w_attrs widget' !! "step" = Some v) /\
  a = super_widget_attrs self widget'.
Proof.
  intros H. apply widget_attrs_inv in H as [-> [[_ ->] | (step & N & S & ->)]].
  - auto.
  - cbn [is_NumberInput w_attrs]. repeat split.
    + symmetry. exact N.
    + intros k Hk. apply lookup_insert_ne. congruence.
    + intros v Hv. rewrite S in Hv. discriminate.
Qed.

Lemma widget_attrs_changes_step_only_witness :
  exists widget' a,
    FormattedDecimalFormField.widget_attrs (fun _ w => w_attrs w) DefaultContext
      (mkDecimalFormField None (Some 7))
      (mkWidget true {[ "class" := Str "qty" ]}) = Ok (widget', a) /\
    w_attrs widget' !! "class" = Some (Str "qty").
Proof.
  eexists. eexists. split; [reflexivity|].
  refine (eq_trans (proj1 (proj2 (widget_attrs_changes_step_only
    (fun _ w => w_attrs w) DefaultContext (mkDecimalFormField None (Some 7))
    (mkWidget true {[ "class" := Str "qty" ]}) _ _ eq_refl)) "class" _) _).
  - discriminate.
  - reflexivity.
Defined.

(** X14.  Calling the method again changes nothing: on the widget it left
    behind it returns that widget, whatever [decimal_places] is. *)
Theorem widget_attrs_idempotent
    (super_widget_attrs : DecimalFormField -> Widget -> dict)
    (c : Context) (self : DecimalFormField) (widget widget' : Widget) (a : dict) :
  FormattedDecimalFormField.widget_attrs super_widget_attrs c self widget = Ok (widget', a) ->
  FormattedDecimalFormField.widget_attrs super_widget_attrs c self widget' = Ok (widget', a).
Proof.
  intros H. apply widget_attrs_inv in H as [-> [[U ->] | (step & N & S & ->)]].
  - apply widget_attrs_untouched. exact U.
  - apply widget_attrs_untouched. right. cbn [w_attrs].
    rewrite lookup_insert_eq. eauto.
Qed.

Lemma widget_attrs_idempotent_witness :
  FormattedDecimalFormField.widget_attrs (fun _ w => w_attrs w) DefaultContext
    (mkDecimalFormField None (Some 3))
    (mkWidget true {[ "step" := Str "0.001" ]})
  = Ok (mkWidget true {[ "step" := Str "0.001" ]}, {[ "step" := Str "0.001" ]}).
Proof.
  apply (widget_attrs_idempotent (fun _ w => w_attrs w) DefaultContext
           (mkDecimalFormField None (Some 3)) (mkWidget true ∅)).
  reflexivity.
Defined.

(** X15.  On a number input without a [step], a form field whose
    [decimal_places] is missing or negative raises [TypeError], and no
    [step] is set: [None] does not compare with 5, and [10 ** n] is a
    float for a negative [n], which [Decimal] refuses to divide by. *)
Theorem widget_attrs_TypeError
    (super_widget_attrs : DecimalFormField -> Widget -> dict)
    (c : Context) (self : DecimalFormField) (widget : Widget) :
  is_NumberInput widget = true ->
  w_attrs widget !! "step" = None ->
  decimal_places self = None \/ (exists dp, decimal_places self = Some dp /\ dp < 0) ->
  FormattedDecimalFormField.widget_attrs super_widget_attrs c self widget = Raise TypeError.
Proof.
  intros N S H. unfold FormattedDecimalFormField.widget_attrs.
  rewrite N, S. cbn [andb].
  rewrite bool_decide_eq_false_2 by (intros [? ?]; discriminate). cbn [negb].
  destruct H as [-> | (dp & -> & Hdp)]; [reflexivity|].
  unfold FormattedDecimalFormField.MAX_DECIMAL_PLACES_FOR_STEP.
  destruct (Z.leb_spec dp 5); [|lia].
  change (of_string "1") with (Ok (mkDecimal false [d1] (ExpInt 0))). cbn [bind].
  unfold pow10. destruct (Z.leb_spec 0 dp); [lia|]. reflexivity.
Qed.

Lemma widget_attrs_TypeError_witness :
  FormattedDecimalFormField.widget_attrs (fun _ w => w_attrs w) DefaultContext
    (mkDecimalFormField None (Some (-2))) (mkWidget true ∅) = Raise TypeError.
Proof.
  apply (widget_attrs_TypeError (fun _ w => w_attrs w) DefaultContext
           (mkDecimalFormField None (Some (-2))) (mkWidget true ∅));
    [reflexivity | reflexivity |].
  right. exists (-2). split; [reflexivity | lia].
Defined.

(** When there are more than five decimal places the step is ["any"],
    whatever the arithmetic context. *)
Lemma widget_attrs_any
    (super_widget_attrs : DecimalFormField -> Widget -> dict)
    (c : Context) (self : DecimalFormField) (widget : Widget) (dp : Z) :
  is_NumberInput widget = true ->
  w_attrs widget !! "step" = None ->
  decimal_places self = Some dp -> 5 < dp ->
  FormattedDecimalFormField.widget_attrs super_widget_attrs c self widget
  = Ok (mkWidget true (<["step" := Str "any"]> (w_attrs widget)),
        super_widget_attrs self
          (mkWidget true (<["step" := Str "any"]> (w_attrs widget)))).
Proof.
  intros N S D H. unfold FormattedDecimalFormField.widget_attrs.
  rewrite N, S, D. cbn [andb].
  rewrite bool_decide_eq_false_2 by (intros [? ?]; discriminate). cbn [negb].
  unfold FormattedDecimalFormField.MAX_DECIMAL_PLACES_FOR_STEP.
  destruct (Z.leb_spec dp 5); [lia|]. cbn [bind].
  unfold setdefault. rewrite S. reflexivity.
Qed.

(** ** Money and quantity fields: overrides, and how the two relate *)

Lemma setdefault_comm k1 v1 k2 v2 (d : dict) :
  k1 <> k2 ->
  setdefault k1 v1 (setdefault k2 v2 d) = setdefault k2 v2 (setdefault k1 v1 d).
Proof.
  intros N. apply map_eq. intros k. rewrite !setdefault_lookup.
  repeat case_decide; subst; try congruence; rewrite ?setdefault_lookup;
    repeat case_decide; try congruence.
Qed.

Lemma money_init_settings (kwargs : dict) (f : Field) :
  MoneyValueField.__init__ kwargs = Ok f ->
  attrs f !! "decimal_places" = Some (default (Int 9) (kwargs !! "decimal_places")) /\
  attrs f !! "max_digits" = Some (default (Int 36) (kwargs !! "max_digits")) /\
  forall k v, k <> "decimal_places" -> k <> "max_digits" ->
              kept_as_passed k = true ->
              kwargs !! k = Some v -> attrs f !! k = Some v.
Proof.
  intros I. unfold MoneyValueField.__init__, FormattedDecimalField.__init__ in I.
  apply DecimalField_init_inv in I as (Hmd & Hdp & f0 & I0 & Hrest).
  rewrite Hmd, Hdp. unfold get. split; [|split].
  - rewrite setdefault_other by discriminate.
    rewrite setdefault_lookup. case_decide; [reflexivity | congruence].
  - rewrite setdefault_lookup. case_decide; [|congruence].
    rewrite setdefault_other by discriminate. reflexivity.
  - intros k v N1 N2 K E. rewrite Hrest by assumption.
    rewrite (Field_init_attrs _ _ _ I0) by assumption.
    apply union_lookup_given.
    rewrite !lookup_delete_ne by congruence.
    rewrite !setdefault_other by congruence. exact E.
Qed.

(** The keywords of a money field that was constructed are parameters
    of [models.DecimalField]. *)
Lemma money_init_keywords (kwargs : dict) (f : Field) k :
  MoneyValueField.__init__ kwargs = Ok f -> is_Some (kwargs !! k) ->
  k = "decimal_places" \/ k = "max_digits" \/ k = "validators" \/
  is_Some (Field_parameters !! k).
Proof.
  intros I [v E]. unfold MoneyValueField.__init__, FormattedDecimalField.__init__ in I.
  apply DecimalField_init_inv in I as (_ & _ & f0 & I0 & _).
  apply Field_init_inv in I0 as [D _].
  destruct (decide (k = "decimal_places")) as [|N1]; [auto|].
  destruct (decide (k = "max_digits")) as [|N2]; [auto|].
  destruct (decide (k = "validators")) as [|N3]; [auto|].
  right. right. right. apply elem_of_dom, D, elem_of_dom. exists v.
  rewrite !lookup_delete_ne by congruence.
  rewrite !setdefault_other by congruence. exact E.
Qed.

(** X16.  The defaults never override the caller: a money field has the
    [decimal_places] and [max_digits] it was given, 9 and 36 where it was
    given none, and every other keyword as it was passed, but for the
    five that [models.Field] does not keep under their own names:
    [unique], [choices], [error_messages], [db_tablespace] and
    [validators]. *)
Theorem money_field_keeps_overrides (kwargs : dict) (f : Field) :
  MoneyValueField.__init__ kwargs = Ok f ->
  attrs f !! "decimal_places" = Some (default (Int 9) (kwargs !! "decimal_places")) /\
  attrs f !! "max_digits" = Some (default (Int 36) (kwargs !! "max_digits")) /\
  forall k v,
    k ∉ ["decimal_places"; "max_digits"; "unique"; "choices"; "error_messages";
         "db_tablespace"; "validators"] ->
    kwargs !! k = Some v -> attrs f !! k = Some v.
Proof.
  intros I. destruct (money_init_settings kwargs f I) as (Hdp & Hmd & Hrest).
  split; [exact Hdp|]. split; [exact Hmd|].
  intros k v N E.
  repeat (apply not_elem_of_cons in N as [? N]).
  apply Hrest; [assumption..| |exact E].
  apply bool_decide_eq_true.
  destruct (money_init_keywords kwargs f k I (ex_intro _ v E))
    as [-> | [-> | [-> | [w P]]]]; try congruence.
  intros Hin.
  repeat (apply elem_of_cons in Hin as [-> | Hin];
          [first [congruence | vm_compute in P; discriminate]|]).
  apply elem_of_nil in Hin. exact Hin.
Qed.

Lemma money_field_keeps_overrides_witness :
  exists f,
    MoneyValueField.__init__ {[ "decimal_places" := Int 2; "null" := Bool true ]} = Ok f /\
    attrs f !! "decimal_places" = Some (Int 2) /\
    attrs f !! "max_digits" = Some (Int 36).
Proof.
  destruct (MoneyValueField.__init__ {[ "decimal_places" := Int 2; "null" := Bool true ]})
    as [f|] eqn:I; [|vm_compute in I; discriminate].
  exists f. split; [reflexivity|].
  destruct (money_field_keeps_overrides _ f I) as (D & M & _).
  rewrite D, M. split; reflexivity.
Defined.

Lemma quantity_as_money (kwargs : dict) :
  QuantityField.__init__ kwargs
  = MoneyValueField.__init__ (setdefault "default" (Int 0) kwargs).
Proof.
  unfold QuantityField.__init__, MoneyValueField.__init__.
  unfold FORMATTED_DECIMAL_FIELD_DECIMAL_PLACES, MONEY_FIELD_DECIMAL_PLACES.
  f_equal.
  rewrite (setdefault_comm "default" _ "max_digits") by discriminate.
  f_equal.
  apply setdefault_comm. discriminate.
Qed.

(** X17.  A quantity field is a money field with a default: constructing
    a [QuantityField] is constructing a [MoneyValueField] from the same
    keywords with [default] set to 0 where the caller gave none; so it
    fails on the same keywords and differs in [default] at most. *)
Theorem quantity_field_is_money_field_with_default (kwargs : dict) :
  QuantityField.__init__ kwargs
  = MoneyValueField.__init__ (setdefault "default" (Int 0) kwargs) /\
  (forall default, kwargs !! "default" = Some default ->
     QuantityField.__init__ kwargs = MoneyValueField.__init__ kwargs).
Proof.
  split; [apply quantity_as_money|].
  intros v E. rewrite quantity_as_money. unfold setdefault. rewrite E. reflexivity.
Qed.

(** X18.  The form field of a money or quantity field that was given no
    [decimal_places] has more decimal places than a browser takes for a
    step: on a number input without a [step] it sets ["any"], whatever
    the arithmetic context. *)
Theorem money_and_quantity_step_is_any
    (super_widget_attrs : DecimalFormField -> Widget -> dict)
    (c : Context) (kwargs : dict) (f : Field)
    (self : DecimalFormField) (widget : Widget) (dp : Z) :
  MoneyValueField.__init__ kwargs = Ok f \/ QuantityField.__init__ kwargs = Ok f ->
  kwargs !! "decimal_places" = None ->
  attrs f !! "decimal_places" = Some (Int dp) ->
  decimal_places self = Some dp ->
  is_NumberInput widget = true ->
  w_attrs widget !! "step" = None ->
  FormattedDecimalFormField.widget_attrs super_widget_attrs c self widget
  = Ok (mkWidget true (<["step" := Str "any"]> (w_attrs widget)),
        super_widget_attrs self
          (mkWidget true (<["step" := Str "any"]> (w_attrs widget)))).
Proof.
  intros I E A D N S.
  assert (dp = 9) as ->.
  { destruct I as [I | I].
    - destruct (money_init_settings kwargs f I) as (P & _).
      rewrite E, A in P. simpl in P. congruence.
    - rewrite quantity_as_money in I.
      destruct (money_init_settings _ f I) as (P & _).
      rewrite setdefault_other, E, A in P by discriminate. simpl in P. congruence. }
  apply (widget_attrs_any super_widget_attrs c self widget 9); [assumption.. | lia].
Qed.

Lemma money_and_quantity_step_is_any_witness :
  exists f,
    QuantityField.__init__ ∅ = Ok f /\
    FormattedDecimalFormField.widget_attrs (fun _ w => w_attrs w) DefaultContext
      (mkDecimalFormField (Some 36) (Some 9)) (mkWidget true ∅)
    = Ok (mkWidget true {[ "step" := Str "any" ]}, {[ "step" := Str "any" ]}).
Proof.
  destruct (QuantityField.__init__ ∅) as [f|] eqn:I; [|vm_compute in I; discriminate].
  exists f. split; [reflexivity|].
  apply (money_and_quantity_step_is_any (fun _ w => w_attrs w) DefaultContext
           ∅ f (mkDecimalFormField (Some 36) (Some 9)) (mkWidget true ∅) 9);
    try reflexivity.
  - right. exact I.
  - vm_compute in I. injection I as <-. vm_compute. reflexivity.
Defined.

(** ** Formatting: special values, and the two lines of Python *)

(** X19.  [format_decimal] never returns a string for a NaN or an
    infinity: a signaling NaN stops in [normalize] with
    [InvalidOperation]; a quiet NaN and an infinity have a letter for an
    exponent, so that the first comparison raises [TypeError] under
    Python 3 and is true under Python 2, where the exponent is reported
    as too large. *)
Theorem format_decimal_of_special
    py c (value : Decimal) (max_digits exponent_limit : Z) :
  _is_special value = true ->
  FormattedDecimalField.format_decimal py c value max_digits exponent_limit =
  match _exp value, py with
  | ExpN, _ => Raise InvalidOperation
  | _, Python3 => Raise TypeError
  | _, Python2 => Raise (ValueError (too_large c value))
  end.
Proof.
  destruct value as [s ds x].
  unfold _is_special, FormattedDecimalField.format_decimal, normalize, as_tuple, _fix,
    _fix_nan.
  cbn [_exp _int _sign].
  destruct x as [e| | |]; try discriminate; intros _.
  - destruct py; reflexivity.
  - destruct (prec c <? len ds); destruct py; reflexivity.
  - reflexivity.
Qed.

Lemma format_decimal_of_special_witness :
  FormattedDecimalField.format_decimal Python2 DefaultContext
    (mkDecimal true [d0] ExpF) 100 100
  = Raise (ValueError
      "Error! Exponent is too large for formatting: Decimal('-Infinity').").
Proof.
  apply (format_decimal_of_special Python2 DefaultContext
           (mkDecimal true [d0] ExpF) 100 100).
  reflexivity.
Defined.

(** X20.  On a finite argument the line of Python makes no difference,
    and there are four ways to fail and no more: the three [ValueError]s
    of the method, and [Overflow] out of [normalize]. *)
Theorem format_decimal_of_finite
    c (value : Decimal) (max_digits exponent_limit : Z) :
  finite value ->
  FormattedDecimalField.format_decimal Python2 c value max_digits exponent_limit
  = FormattedDecimalField.format_decimal Python3 c value max_digits exponent_limit /\
  forall py err,
    FormattedDecimalField.format_decimal py c value max_digits exponent_limit = Raise err ->
    err = Overflow \/ err = ValueError (too_large c value) \/
    err = ValueError (too_small c value) \/ err = ValueError (too_many_digits c value).
Proof.
  intros F.
  destruct (normalize_finite c value F) as [Ho | (coeff & e & Hv)].
  - unfold FormattedDecimalField.format_decimal. rewrite Ho. cbn [bind].
    split; [reflexivity|]. intros py err [= <-]. auto.
  - rewrite !(format_decimal_finite _ c value max_digits exponent_limit _ e Hv eq_refl).
    split; [reflexivity|]. intros py err.
    rewrite (format_decimal_finite py c value max_digits exponent_limit _ e Hv eq_refl).
    destruct (exponent_limit <? e); [intros [= <-]; auto|].
    destruct (e <? - exponent_limit); [intros [= <-]; auto|].
    destruct (max_digits <? _); [intros [= <-]; auto | discriminate].
Qed.

Lemma format_decimal_of_finite_witness :
  FormattedDecimalField.format_decimal Python2 DefaultContext
    (mkDecimal false [d1; d5] (ExpInt (-1))) 100 100
  = FormattedDecimalField.format_decimal Python3 DefaultContext
      (mkDecimal false [d1; d5] (ExpInt (-1))) 100 100.
Proof.
  apply (format_decimal_of_finite DefaultContext
           (mkDecimal false [d1; d5] (ExpInt (-1))) 100 100).
  reflexivity.
Defined.

(** ** Reading a formatted number back *)

Lemma digit_of_char_digit_char (d : digit) : digit_of_char (digit_char d) = Some d.
Proof. destruct d; reflexivity. Qed.

Lemma append_cons (a : ascii) (s t : string) : String a s +:+ t = String a (s +:+ t).
Proof. reflexivity. Qed.

Lemma append_nil (t : string) : "" +:+ t = t.
Proof. reflexivity. Qed.

(** A run of digits is read back up to the first character that is no
    digit. *)
Lemma span_digits_app (ds : list digit) (rest : string) :
  match rest with
  | String ch _ => digit_of_char ch = None
  | EmptyString => True
  end ->
  span_digits (string_of_digits ds +:+ rest) = (ds, rest).
Proof.
  intros H. induction ds as [|d ds IH].
  - cbn [string_of_digits]. rewrite append_nil.
    destruct rest as [|ch r]; [reflexivity|]. cbn [span_digits]. rewrite H. reflexivity.
  - cbn [string_of_digits]. rewrite append_cons. cbn [span_digits].
    rewrite digit_of_char_digit_char, IH. reflexivity.
Qed.

Lemma span_digits_all (ds : list digit) : span_digits (string_of_digits ds) = (ds, "").
Proof.
  rewrite <- (span_digits_app ds "" I). f_equal.
  induction ds as [|d ds IH]; [reflexivity|].
  cbn [string_of_digits]. rewrite append_cons. f_equal. exact IH.
Qed.

Lemma split_sign_digit (d : digit) (t : string) :
  split_sign (String (digit_char d) t) = (false, String (digit_char d) t).
Proof. destruct d; reflexivity. Qed.

Lemma int_of_digits_lstrip0 (ds : list digit) :
  int_of_digits (lstrip0 ds) = int_of_digits ds.
Proof.
  induction ds as [|d ds IH]; [reflexivity|].
  destruct d; try reflexivity. cbn [lstrip0].
  rewrite IH, int_of_digits_cons. simpl. lia.
Qed.

Lemma int_of_digits_canonical (ds : list digit) :
  int_of_digits (canonical ds) = int_of_digits ds.
Proof.
  unfold canonical. rewrite <- (int_of_digits_lstrip0 ds).
  destruct (lstrip0 ds); reflexivity.
Qed.

Lemma int_of_digits_leading_zeros (k : nat) (ds : list digit) :
  int_of_digits (replicate k d0 ++ ds) = int_of_digits ds.
Proof. rewrite int_of_digits_app, int_of_zeros. lia. Qed.

(** [Decimal(s)] for a string in fixed-point notation: a sign, digits
    and, behind a point, more digits. *)
Lemma of_string_fixed (s : bool) (ip fp : list digit) :
  ip <> [] ->
  of_string ((if s then "-" else "") +:+ string_of_digits ip +:+
             match fp with [] => "" | _ => "." +:+ string_of_digits fp end)
  = Ok (mkDecimal s (canonical (ip ++ fp)) (ExpInt (- len fp))).
Proof.
  intros N. destruct ip as [|d ip]; [congruence|].
  set (frac := match fp with [] => "" | _ => "." +:+ string_of_digits fp end).
  set (body := string_of_digits (d :: ip) +:+ frac).
  assert (Hsign : split_sign ((if s then "-" else "") +:+ body) = (s, body)).
  { destruct s; [reflexivity|]. rewrite append_nil. subst body.
    cbn [string_of_digits]. rewrite append_cons. apply split_sign_digit. }
  assert (Hspan : span_digits body = (d :: ip, frac)).
  { subst body. apply span_digits_app. subst frac. destruct fp; [exact I | reflexivity]. }
  unfold of_string. rewrite Hsign, Hspan.
  subst frac. destruct fp as [|x fp].
  - cbn [strip_prefix]. rewrite bool_decide_eq_false_2 by discriminate. cbn [negb].
    cbn [parse_exp]. rewrite app_nil_r. reflexivity.
  - change ("." +:+ string_of_digits (x :: fp))
      with (String "."%char (string_of_digits (x :: fp))).
    cbn [strip_prefix]. rewrite bool_decide_eq_true_2 by reflexivity.
    rewrite span_digits_all.
    rewrite bool_decide_eq_false_2 by discriminate. cbn [negb orb].
    cbn [parse_exp]. reflexivity.
Qed.

(** The integer and the fractional digits [format(d, 'f')] writes. *)
Lemma format_f_parts c (d : Decimal) (e : Z) :
  _exp d = ExpInt e ->
  exists ip fp,
    ip <> [] /\
    format_f c d =
      (if _sign d then "-" else "") +:+ string_of_digits ip +:+
      match fp with [] => "" | _ => "." +:+ string_of_digits fp end /\
    ((_int d = [d0] /\ 0 < e /\ ip = [d0] /\ fp = []) \/
     (e + len (_int d) < 0 /\ ip = [d0] /\
      fp = zeros (- (e + len (_int d))) ++ _int d) \/
     (0 < e /\ ip = _int d ++ zeros e /\ fp = []) \/
     (e <= 0 <= e + len (_int d) /\
      ip = or0 (upto (_int d) (e + len (_int d))) /\
      fp = from (_int d) (e + len (_int d)))).
Proof.
  intros E. unfold format_f. rewrite E.
  destruct (negb (nonzero d) && (0 <? e)) eqn:Z.
  - apply andb_true_iff in Z as [Z Hpos]. apply Z.ltb_lt in Hpos.
    rewrite (nonzero_finite d e E), negb_involutive in Z.
    apply bool_decide_eq_true in Z.
    exists [d0], []. split; [discriminate|]. split; [reflexivity|]. left. auto.
  - cbv zeta. rewrite E.
    destruct (Z.ltb_spec (e + len (_int d)) 0).
    + exists [d0], (zeros (- (e + len (_int d))) ++ _int d).
      split; [discriminate|]. split; [reflexivity|]. right. left. auto.
    + destruct (Z.ltb_spec (len (_int d)) (e + len (_int d))).
      * exists (_int d ++ zeros (e + len (_int d) - len (_int d))), [].
        split; [|split; [reflexivity|]].
        -- intros Hnil. apply app_eq_nil in Hnil as [_ Hz].
           unfold zeros in Hz. destruct (Z.to_nat _) eqn:Hn; [lia | discriminate].
        -- right. right. left. split; [lia|]. split; [|reflexivity].
           do 2 f_equal. lia.
      * exists (or0 (upto (_int d) (e + len (_int d)))), (from (_int d) (e + len (_int d))).
        split; [destruct (upto _ _); discriminate|]. split; [reflexivity|].
        right. right. right. split; [lia|]. auto.
Qed.

Lemma same_number_intro (x y : Decimal) (ex ey : Z) :
  _exp x = ExpInt ex -> _exp y = ExpInt ey -> _sign x = _sign y ->
  int_of_digits (_int x) * 10 ^ (ex - Z.min ex ey)
  = int_of_digits (_int y) * 10 ^ (ey - Z.min ex ey) ->
  same_number x y.
Proof.
  intros Ex Ey S H. unfold same_number, exp_of, signed_int. rewrite Ex, Ey, S.
  destruct (_sign y); lia.
Qed.

Lemma or0_take_drop (ds : list digit) (n : nat) :
  int_of_digits (or0 (take n ds) ++ drop n ds) = int_of_digits ds.
Proof.
  destruct (take n ds) as [|x t] eqn:T.
  - assert (D : drop n ds = ds).
    { rewrite <- (take_drop n ds) at 2. rewrite T. reflexivity. }
    rewrite D. apply (int_of_digits_leading_zeros 1).
  - cbn [or0]. rewrite <- T, take_drop. reflexivity.
Qed.

(** The string that [format(d, 'f')] writes is read back by [Decimal] as
    a well-formed number with the sign and the value of [d]. *)
Lemma format_f_reads_back c (d : Decimal) (e : Z) :
  _exp d = ExpInt e ->
  exists d',
    of_string (format_f c d) = Ok d' /\
    finite d' /\ well_formed d' /\ _sign d' = _sign d /\ same_number d' d.
Proof.
  intros E. destruct (format_f_parts c d e E) as (ip & fp & Nip & -> & Hparts).
  rewrite (of_string_fixed (_sign d) ip fp Nip).
  eexists. split; [reflexivity|]. split; [reflexivity|].
  split; [apply canonical_no_leading_zero|]. split; [reflexivity|].
  apply (same_number_intro
           (mkDecimal (_sign d) (canonical (ip ++ fp)) (ExpInt (- len fp))) d
           (- len fp) e eq_refl E eq_refl).
  cbn [_int]. rewrite int_of_digits_canonical.
  destruct Hparts as [(Z & Hpos & -> & ->) | [(Hneg & -> & ->) | [(Hpos & -> & ->) |
                       (Hr & -> & ->)]]].
  - rewrite Z. reflexivity.
  - unfold zeros. rewrite len_app, len_replicate.
    change ([d0] ++ ?l) with (replicate 1 d0 ++ l).
    rewrite !int_of_digits_leading_zeros.
    replace (- (Z.of_nat (Z.to_nat (- (e + len (_int d)))) + len (_int d))) with e by lia.
    reflexivity.
  - change (- len []) with 0. rewrite app_nil_r. unfold zeros.
    rewrite int_of_digits_pad, Z.min_l by lia.
    rewrite Z.sub_diag, Z.pow_0_r, Z.sub_0_r, Z2Nat.id by lia. lia.
  - unfold upto, from. rewrite or0_take_drop.
    assert (Hl : len (drop (Z.to_nat (e + len (_int d))) (_int d)) = - e).
    { unfold len in *. rewrite length_drop. lia. }
    rewrite Hl. replace (- - e) with e by lia. reflexivity.
Qed.

(** X21.  What [format_decimal] returns reads back as the number it
    formatted: [Decimal] takes the string for a finite, well-formed number
    with the sign of the argument and the value of its normal form. *)
Theorem format_decimal_reads_back
    py c (value : Decimal) (max_digits exponent_limit : Z) (s : string) :
  finite value ->
  FormattedDecimalField.format_decimal py c value max_digits exponent_limit = Ok s ->
  exists val d,
    normalize c value = Ok val /\
    of_string s = Ok d /\
    finite d /\ well_formed d /\ _sign d = _sign value /\ same_number d val.
Proof.
  intros F H.
  destruct (normalize_finite c value F) as [Ho | (coeff & e & Hv)].
  { unfold FormattedDecimalField.format_decimal in H. rewrite Ho in H. discriminate. }
  rewrite (format_decimal_finite py c value max_digits exponent_limit _ e Hv eq_refl) in H.
  destruct (exponent_limit <? e); [discriminate|].
  destruct (e <? - exponent_limit); [discriminate|].
  destruct (max_digits <? _); [discriminate|]. injection H as <-.
  destruct (format_f_reads_back c (mkDecimal (_sign value) coeff (ExpInt e)) e eq_refl)
    as (d & Hd & Fd & Wd & Sd & Nd).
  exists (mkDecimal (_sign value) coeff (ExpInt e)), d. auto 7.
Qed.

Lemma format_decimal_reads_back_witness :
  exists val d,
    normalize DefaultContext (mkDecimal true [d2; d5; d0] (ExpInt (-4))) = Ok val /\
    of_string "-0.025" = Ok d /\
    finite d /\ well_formed d /\ _sign d = true /\ same_number d val.
Proof.
  apply (format_decimal_reads_back Python3 DefaultContext
           (mkDecimal true [d2; d5; d0] (ExpInt (-4))) 100 100 "-0.025");
    reflexivity.
Defined.

Lemma scale_iff (a b ex ey m t : Z) :
  t <= m -> m <= ex -> m <= ey ->
  (a * 10 ^ (ex - m) = b * 10 ^ (ey - m) <-> a * 10 ^ (ex - t) = b * 10 ^ (ey - t)).
Proof.
  intros Ht Hx Hy.
  replace (ex - t) with ((ex - m) + (m - t)) by lia.
  replace (ey - t) with ((ey - m) + (m - t)) by lia.
  rewrite !Z.pow_add_r, !Z.mul_assoc by lia.
  assert (10 ^ (m - t) <> 0) by (apply Z.pow_nonzero; lia).
  split; [intros ->; reflexivity|]. intros H'. apply Z.mul_cancel_r in H'; assumption.
Qed.

(** Standing for the same number is transitive. *)
Lemma same_number_trans (x y z : Decimal) :
  same_number x y -> same_number y z -> same_number x z.
Proof.
  unfold same_number. intros H1 H2.
  set (t := Z.min (exp_of x) (Z.min (exp_of y) (exp_of z))).
  apply (scale_iff _ _ _ _ _ t) in H1; [|lia..].
  apply (scale_iff _ _ _ _ _ t) in H2; [|lia..].
  apply (scale_iff _ _ _ _ (Z.min (exp_of x) (exp_of z)) t); [lia..|].
  congruence.
Qed.

Lemma drop_zeros (l : list digit) (n : nat) :
  (forall i, (n <= i < length l)%nat -> l !! i = Some d0) ->
  drop n l = replicate (length l - n) d0.
Proof.
  intros H. apply list_eq. intros i. rewrite lookup_drop.
  destruct (decide (n + i < length l)%nat) as [Hi | Hi].
  - rewrite H by lia. symmetry. apply lookup_replicate. split; [reflexivity | lia].
  - rewrite lookup_ge_None_2 by lia. symmetry. apply lookup_ge_None_2.
    rewrite length_replicate. lia.
Qed.

(** A number that fits the context, with no more digits than the
    precision and an exponent of [Etiny] at least, keeps its value in
    [normalize]: nothing is rounded. *)
Lemma normalize_keeps_number c (value val : Decimal) (e : Z) :
  _exp value = ExpInt e ->
  len (_int value) <= prec c -> Etiny c <= e ->
  normalize c value = Ok val ->
  _sign val = _sign value /\ same_number val value.
Proof.
  intros E Hl Ht H.
  destruct (decide (_int value = [d0])) as [Z | N].
  { rewrite (normalize_zero c value e E Z) in H. injection H as <-.
    split; [reflexivity|].
    apply (same_number_intro (mkDecimal (_sign value) [d0] (ExpInt 0)) value 0 e
             eq_refl E eq_refl).
    rewrite Z. reflexivity. }
  assert (NZ : nonzero value = true).
  { rewrite (nonzero_finite value e E). rewrite bool_decide_eq_false_2; auto. }
  rewrite (normalize_finite_unfold c value e E), (fix_nonzero c value e NZ E) in H.
  destruct (Etop c <? _); [discriminate|].
  assert (Hf : exp_floor c value <= e).
  { unfold exp_floor, exp_of. rewrite E. lia. }
  destruct (Z.ltb_spec e (exp_floor c value)); [lia|]. cbn [bind] in H.
  unfold stripped in H. rewrite E, NZ in H. cbn [negb] in H.
  destruct (strip_zeros _ _ _ _) as [end_ e'] eqn:Hs. injection H as <-.
  destruct (strip_zeros_stop _ _ _ _ _ _ Hs) as (He & Hle & Hz & _).
  split; [reflexivity|].
  apply (same_number_intro
           (mkDecimal (_sign value) (take end_ (_int value)) (ExpInt e')) value e' e
           eq_refl E eq_refl).
  cbn [_int]. rewrite Z.min_r by lia.
  rewrite Z.sub_diag, Z.pow_0_r, Z.mul_1_r.
  rewrite <- (take_drop end_ (_int value)) at 2.
  rewrite (drop_zeros _ _ Hz), int_of_digits_pad. f_equal. f_equal. lia.
Qed.

(** X22.  Formatting loses nothing of a number that fits the context,
    with no more digits than the precision and an exponent of [Etiny] at
    least: the string reads back as a number equal to the argument, sign
    included. *)
Theorem format_decimal_round_trip
    py c (value : Decimal) (max_digits exponent_limit : Z) (s : string) :
  finite value ->
  len (_int value) <= prec c ->
  Etiny c <= exp_of value ->
  FormattedDecimalField.format_decimal py c value max_digits exponent_limit = Ok s ->
  exists d,
    of_string s = Ok d /\
    finite d /\ well_formed d /\ _sign d = _sign value /\ same_number d value.
Proof.
  intros F Hl Ht H.
  destruct (normalize_finite c value F) as [Ho | (coeff & e & Hv)].
  { unfold FormattedDecimalField.format_decimal in H. rewrite Ho in H. discriminate. }
  rewrite (format_decimal_finite py c value max_digits exponent_limit _ e Hv eq_refl) in H.
  destruct (exponent_limit <? e); [discriminate|].
  destruct (e <? - exponent_limit); [discriminate|].
  destruct (max_digits <? _); [discriminate|]. injection H as <-.
  destruct (format_f_reads_back c (mkDecimal (_sign value) coeff (ExpInt e)) e eq_refl)
    as (d & Hd & Fd & Wd & Sd & Nd).
  unfold finite, _is_special in F.
  destruct (_exp value) as [e0| | |] eqn:E; try discriminate.
  unfold exp_of in Ht. rewrite E in Ht.
  destruct (normalize_keeps_number c value _ e0 E Hl Ht Hv) as [_ Nv].
  exists d. split; [exact Hd|]. split; [exact Fd|]. split; [exact Wd|].
  split; [exact Sd|]. apply (same_number_trans _ _ _ Nd Nv).
Qed.

Lemma format_decimal_round_trip_witness :
  exists d,
    of_string "1250000" = Ok d /\
    finite d /\ well_formed d /\ _sign d = false /\
    same_number d (mkDecimal false [d1; d2; d5; d0] (ExpInt 3)).
Proof.
  apply (format_decimal_round_trip Python3 DefaultContext
           (mkDecimal false [d1; d2; d5; d0] (ExpInt 3)) 100 100 "1250000");
    [reflexivity | vm_compute; discriminate | vm_compute; discriminate | reflexivity].
Defined.

(** ** The digit limit and the precision of the context *)

Lemma or0_take_length (ds : list digit) (n : nat) :
  (length (or0 (take n ds)) <= Nat.max 1 n)%nat.
Proof.
  destruct (take n ds) as [|x t] eqn:T; [simpl; lia|].
  cbn [or0]. rewrite <- T, length_take. lia.
Qed.

Lemma rounded_length c (self : Decimal) (m : Z) (dup : Decimal) :
  1 <= prec c ->
  len (_int self) + exp_of self - m <= prec c ->
  rounded c self m = Ok dup ->
  len (_int dup) <= prec c.
Proof.
  intros Hp G H. unfold rounded in H.
  assert (Fin : forall (s : bool) (coeff0 : list digit) (z : Z),
    len coeff0 <= prec c ->
    (let '(coeff, exp_min) :=
       if 0 <? z then
         let coeff := digits_of_int (int_of_digits coeff0 + 1) in
         if prec c <? len coeff then (removelast coeff, m + 1) else (coeff, m)
       else (coeff0, m) in
     if Etop c <? exp_min then Raise Overflow
     else Ok (mkDecimal s coeff (ExpInt exp_min))) = Ok dup ->
    len (_int dup) <= prec c).
  { intros s coeff0 z L0 Hd.
    destruct (0 <? z).
    - cbv zeta in Hd.
      set (coeff1 := digits_of_int (int_of_digits coeff0 + 1)) in *.
      pose proof (int_of_digits_bound coeff0) as B.
      assert (L1 : (length coeff1 <= S (length coeff0))%nat).
      { apply digits_of_int_length. rewrite Nat2Z.inj_succ, Z.pow_succ_r by lia.
        unfold len in B. lia. }
      destruct (Z.ltb_spec (prec c) (len coeff1)).
      + destruct (Etop c <? m + 1); [discriminate|]. injection Hd as <-. cbn [_int].
        unfold len in *. rewrite removelast_firstn_len, length_firstn. lia.
      + destruct (Etop c <? m); [discriminate|]. injection Hd as <-. assumption.
    - destruct (Etop c <? m); [discriminate|]. injection Hd as <-. assumption. }
  destruct (Z.ltb_spec (len (_int self) + exp_of self - m) 0).
  - destruct (_pick_rounding_function _ _ _) as [z|]; [|discriminate].
    cbn [bind _int _sign] in H. apply (Fin _ _ z) in H; [exact H|].
    change (len (or0 (upto [d1] 0))) with 1. lia.
  - destruct (_pick_rounding_function _ _ _) as [z|]; [|discriminate].
    cbn [bind] in H. apply (Fin _ _ z) in H; [exact H|].
    pose proof (or0_take_length (_int self)
                  (Z.to_nat (len (_int self) + exp_of self - m))).
    unfold upto, len in *. lia.
Qed.

(** [normalize] returns no more digits than the precision of the
    context. *)
Lemma normalize_length c (d val : Decimal) :
  1 <= prec c -> finite d -> normalize c d = Ok val -> len (_int val) <= prec c.
Proof.
  intros Hp F H. unfold finite, _is_special in F.
  destruct (_exp d) as [e| | |] eqn:E; try discriminate.
  rewrite (normalize_finite_unfold c d e E) in H.
  destruct (_fix c d) as [dup|] eqn:Hfix; [|discriminate]. cbn [bind] in H.
  assert (Ld : len (_int dup) <= prec c).
  { destruct (nonzero d) eqn:NZ.
    - rewrite (fix_nonzero c d e NZ E) in Hfix.
      destruct (Etop c <? _); [discriminate|].
      destruct (Z.ltb_spec e (exp_floor c d)).
      + apply (rounded_length c d (exp_floor c d) dup Hp); [|exact Hfix].
        unfold exp_floor, exp_of. rewrite E. lia.
      + injection Hfix as <-. unfold exp_floor, exp_of in *. rewrite E in *. lia.
    - pose proof NZ as Z. rewrite (nonzero_finite d e E) in Z.
      apply negb_false_iff, bool_decide_eq_true in Z.
      unfold _fix in Hfix. rewrite E, NZ in Hfix. cbn [negb] in Hfix.
      destruct (negb _); injection Hfix as <-; cbn [_int]; rewrite ?Z;
        change (len [d0]) with 1; lia. }
  destruct (fix_finite c d e E) as [Ho | (coeff & e' & Hd)]; [congruence|].
  rewrite Hfix in Hd. injection Hd as ->.
  unfold stripped in H. cbn [_exp _int _sign] in *.
  destruct (negb _).
  - injection H as <-. cbn [_int]. change (len [d0]) with 1. lia.
  - destruct (strip_zeros _ _ _ _) as [end_ e'']. injection H as <-. cbn [_int].
    unfold len in *. rewrite length_take. lia.
Qed.

Lemma messages_differ c (value : Decimal) :
  too_large c value <> too_many_digits c value /\
  too_small c value <> too_many_digits c value.
Proof.
  unfold too_large, too_small, too_many_digits.
  split; intros H; apply (f_equal (fun s => String.get 7 s)) in H;
    vm_compute in H; discriminate.
Qed.

(** X23.  The digit limit is idle unless it is below the precision of
    the context: a finite argument is normalized to that precision before
    its digits are counted, so with a limit of the precision or more,
    100 against the 28 digits of the default context, "Too many digits"
    is never raised and the limit does not matter. *)
Theorem digit_limit_idle
    py c (value : Decimal) (max_digits exponent_limit : Z) :
  1 <= prec c -> prec c <= max_digits -> finite value ->
  FormattedDecimalField.format_decimal py c value max_digits exponent_limit
  = FormattedDecimalField.format_decimal py c value (prec c) exponent_limit /\
  FormattedDecimalField.format_decimal py c value max_digits exponent_limit
  <> Raise (ValueError (too_many_digits c value)).
Proof.
  intros Hp Hm F.
  destruct (normalize_finite c value F) as [Ho | (coeff & e & Hv)].
  { unfold FormattedDecimalField.format_decimal. rewrite Ho. cbn [bind].
    split; [reflexivity | discriminate]. }
  pose proof (normalize_length c value _ Hp F Hv) as L. cbn [_int] in L.
  rewrite !(format_decimal_finite py c value _ exponent_limit _ e Hv eq_refl).
  cbn [_int].
  destruct (messages_differ c value) as [M1 M2].
  destruct (exponent_limit <? e); [split; [reflexivity | congruence]|].
  destruct (e <? - exponent_limit); [split; [reflexivity | congruence]|].
  destruct (Z.ltb_spec max_digits (len coeff)); [lia|].
  destruct (Z.ltb_spec (prec c) (len coeff)); [lia|].
  split; [reflexivity | discriminate].
Qed.

Lemma digit_limit_idle_witness :
  FormattedDecimalField.format_decimal Python3 DefaultContext
    (mkDecimal false (replicate 40 d7) (ExpInt (-39))) 100 100
  <> Raise (ValueError
             (too_many_digits DefaultContext
                (mkDecimal false (replicate 40 d7) (ExpInt (-39))))).
Proof.
  apply (digit_limit_idle Python3 DefaultContext
           (mkDecimal false (replicate 40 d7) (ExpInt (-39))) 100 100);
    [vm_compute; discriminate | vm_compute; discriminate | reflexivity].
Defined.

(** ** The look of a formatted number *)

Lemma chars_string_of_digits (ds : list digit) :
  chars (string_of_digits ds) = map digit_char ds.
Proof. induction ds as [|d ds IH]; simpl; [reflexivity | f_equal; exact IH]. Qed.

Lemma last_map_digit_char (ds : list digit) :
  last (map digit_char ds) = digit_char <$> last ds.
Proof.
  induction ds as [|d [|d' ds] IH]; [reflexivity | reflexivity |].
  change (last (digit_char d :: map digit_char (d' :: ds))
          = digit_char <$> last (d' :: ds)). rewrite <- IH. reflexivity.
Qed.

Lemma last_drop_nonempty (l : list digit) (n : nat) :
  drop n l <> [] -> last (drop n l) = last l.
Proof.
  intros N. rewrite <- (take_drop n l) at 2. rewrite last_app.
  destruct (last (drop n l)) eqn:E; [reflexivity|].
  apply last_None in E. congruence.
Qed.

(** A normal form with the coefficient 0 has the exponent 0. *)
Lemma normalize_zero_exponent c (d val : Decimal) :
  valid_context c -> finite d -> well_formed d ->
  normalize c d = Ok val -> _int val = [d0] -> _exp val = ExpInt 0.
Proof.
  intros V F W H Z. unfold finite, _is_special in F.
  destruct (_exp d) as [e| | |] eqn:E; try discriminate.
  destruct (decide (_int d = [d0])) as [Zd | N].
  { rewrite (normalize_zero c d e E Zd) in H. injection H as <-. reflexivity. }
  rewrite (normalize_finite_unfold c d e E) in H.
  destruct (_fix c d) as [dup|] eqn:Hfix; [|discriminate]. cbn [bind] in H.
  destruct (fix_well_formed c d e dup V E W N Hfix) as (e1 & E1 & W1 & _).
  unfold stripped in H. rewrite E1, (nonzero_finite dup e1 E1) in H.
  case_bool_decide as Z1; cbn [negb] in H; [injection H as <-; reflexivity|].
  destruct (strip_zeros _ _ _ _) as [end_ e'] eqn:Hs. injection H as <-.
  cbn [_int] in Z. exfalso.
  destruct (no_leading_zero_cases _ W1) as [? | (x & t & Hx & Nx)]; [congruence|].
  rewrite Hx in Z. destruct end_; simpl in Z; [discriminate|].
  injection Z as -> _. congruence.
Qed.

(** X24.  A formatted number carries no zero at the end of its fraction:
    when the string that [format_decimal] returns for a well-formed
    number has a point, it ends in a digit that is no zero (so 1.50 is
    written 1.5, and a whole number has no point at all). *)
Theorem format_decimal_fraction_ends_in_nonzero
    py c (value : Decimal) (max_digits exponent_limit : Z) (s : string) :
  valid_context c -> finite value -> well_formed value ->
  FormattedDecimalField.format_decimal py c value max_digits exponent_limit = Ok s ->
  "."%char ∈ chars s ->
  exists d, last (chars s) = Some (digit_char d) /\ d <> d0.
Proof.
  intros V F W H Hdot.
  destruct (normalize_finite c value F) as [Ho | (coeff & e & Hv)].
  { unfold FormattedDecimalField.format_decimal in H. rewrite Ho in H. discriminate. }
  rewrite (format_decimal_finite py c value max_digits exponent_limit _ e Hv eq_refl) in H.
  destruct (exponent_limit <? e); [discriminate|].
  destruct (e <? - exponent_limit); [discriminate|].
  destruct (max_digits <? _); [discriminate|]. injection H as <-.
  set (val := mkDecimal (_sign value) coeff (ExpInt e)) in *.
  destruct (normalize_no_trailing_zero c value val V F W Hv) as (Wv & Hlast).
  pose proof (normalize_zero_exponent c value val V F W Hv) as Hzero.
  destruct (format_f_parts c val e eq_refl) as (ip & fp & Nip & Hstr & Hparts).
  rewrite Hstr in *. rewrite !chars_app, chars_string_of_digits in *.
  cbn [_int _sign val] in *.
  assert (Nfp : fp <> []).
  { intros ->. rewrite app_nil_r in Hdot. apply elem_of_app in Hdot as [Hd | Hd].
    - destruct (_sign value); simpl in Hd.
      + apply elem_of_cons in Hd as [Hd | Hd]; [discriminate|].
        apply elem_of_nil in Hd. exact Hd.
      + apply elem_of_nil in Hd. exact Hd.
    - apply list_elem_of_fmap in Hd as (y & Hy & _). destruct y; discriminate. }
  assert (Hl : last (chars (if _sign value then "-" else "") ++
                     map digit_char ip ++
                     chars match fp with [] => "" | _ => "." +:+ string_of_digits fp end)
               = digit_char <$> last fp).
  { destruct fp as [|x fp']; [congruence|].
    change (chars ("." +:+ string_of_digits (x :: fp')))
      with ("."%char :: chars (string_of_digits (x :: fp'))).
    rewrite chars_string_of_digits, !last_app, last_cons, last_map_digit_char.
    destruct (last (x :: fp')) eqn:El; [reflexivity|].
    apply last_None in El. discriminate. }
  rewrite Hl.
  assert (Ncoeff : coeff <> []).
  { destruct Wv as [[x Hx] _]. simpl in Hx. intros ->. discriminate. }
  assert (Hfp : last fp = last coeff).
  { destruct Hparts as [(_ & _ & _ & ->) | [(_ & _ & ->) | [(_ & _ & ->) | (_ & _ & ->)]]];
      try congruence.
    - rewrite last_app. destruct (last coeff) eqn:El; [reflexivity|].
      apply last_None in El. congruence.
    - apply last_drop_nonempty. exact Nfp. }
  rewrite Hfp.
  destruct Hlast as [Zc | (d' & Ld & Nd)].
  - exfalso. specialize (Hzero Zc). injection Hzero as ->. rewrite Zc in *.
    destruct Hparts as [(_ & Hpos & _) | [(Hneg & _) | [(Hpos & _) | (_ & _ & ->)]]].
    + lia.
    + change (len [d0]) with 1 in Hneg. lia.
    + lia.
    + apply Nfp. reflexivity.
  - rewrite Ld. exists d'. split; [reflexivity | exact Nd].
Qed.

Lemma format_decimal_fraction_ends_in_nonzero_witness :
  exists d, last (chars "12.5") = Some (digit_char d) /\ d <> d0.
Proof.
  apply (format_decimal_fraction_ends_in_nonzero Python3 DefaultContext
           (mkDecimal false [d1; d2; d5; d0; d0] (ExpInt (-3))) 100 100 "12.5").
  - unfold valid_context. simpl. lia.
  - reflexivity.
  - split; [simpl; eauto | discriminate].
  - reflexivity.
  - vm_compute. repeat (first [apply list_elem_of_here | apply list_elem_of_further]).
Defined.

(** ** Values read from an object *)

Lemma append_empty_r (s : string) : s +:+ "" = s.
Proof. induction s as [|a s IH]; [reflexivity|]. rewrite append_cons, IH. reflexivity. Qed.

Lemma canonical_id (ds : list digit) : no_leading_zero ds -> canonical ds = ds.
Proof.
  intros W. destruct (no_leading_zero_cases ds W) as [-> | (d & t & -> & N)];
    [reflexivity|].
  unfold canonical. destruct d; try reflexivity. congruence.
Qed.

Lemma digits_of_int_nonempty (z : Z) : 0 <= z -> digits_of_int z <> [].
Proof.
  intros H E. destruct (digits_of_int_no_leading_zero z H) as [[x Hx] _].
  rewrite E in Hx. discriminate.
Qed.

(** [Decimal(str(n))] is [Decimal(n)]. *)
Lemma of_string_str_of_int (z : Z) : of_string (str_of_int z) = Ok (of_int z).
Proof.
  assert (Habs : 0 <= Z.abs z) by lia.
  pose proof (of_string_fixed (z <? 0) (digits_of_int (Z.abs z)) []
                (digits_of_int_nonempty _ Habs)) as H.
  rewrite app_nil_r, append_empty_r in H.
  rewrite canonical_id in H by (apply digits_of_int_no_leading_zero; exact Habs).
  unfold str_of_int, of_int.
  destruct (Z.ltb_spec z 0).
  - replace (- z) with (Z.abs z) by lia. exact H.
  - replace z with (Z.abs z) at 1 by lia. rewrite append_nil in H. exact H.
Qed.

Lemma digits_of_int_positive (z : Z) :
  0 < z -> exists d t, digits_of_int z = d :: t /\ d <> d0.
Proof.
  intros H. apply digits_of_int_go_head. split; [lia | apply log2_fuel; lia].
Qed.

(** An integer that fits the precision is formatted as its decimal
    text. *)
Lemma format_decimal_of_int py c (z : Z) :
  valid_context c -> prec c <= 100 -> prec c <= Emax c + 1 ->
  Z.abs z < 10 ^ prec c ->
  FormattedDecimalField.format_decimal py c (of_int z) 100 100 = Ok (str_of_int z).
Proof.
  intros (Hp & Hmin & Hmax) H100 HE Hz.
  set (D := digits_of_int (Z.abs z)).
  assert (HL : len D <= prec c).
  { pose proof (digits_of_int_length (Z.abs z) (Z.to_nat (prec c - 1))) as HL.
    unfold len. rewrite Nat2Z.inj_succ, Z2Nat.id in HL by lia.
    replace (Z.succ (prec c - 1)) with (prec c) in HL by lia.
    specialize (HL (conj (Z.abs_nonneg z) Hz)). subst D. lia. }
  assert (Hstr : str_of_int z = (if z <? 0 then "-" else "") +:+ string_of_digits D).
  { unfold str_of_int, D. destruct (Z.ltb_spec z 0).
    - replace (- z) with (Z.abs z) by lia. reflexivity.
    - replace (Z.abs z) with z by lia. reflexivity. }
  destruct (Z.eq_dec z 0) as [-> | Nz].
  { rewrite (format_decimal_finite py c (of_int 0) 100 100
               (mkDecimal false [d0] (ExpInt 0)) 0); [reflexivity | | reflexivity].
    apply (normalize_zero c (of_int 0) 0); reflexivity. }
  destruct (digits_of_int_positive (Z.abs z)) as (x & t & HD & Nx); [lia|].
  fold D in HD.
  assert (ND : D <> [d0]) by (rewrite HD; intros [= -> _]; congruence).
  assert (NZ : nonzero (of_int z) = true).
  { unfold nonzero, of_int. cbn [_is_special _exp _int orb]. fold D.
    rewrite bool_decide_eq_false_2; auto. }
  assert (Hn : exists end_,
    normalize c (of_int z) =
      Ok (mkDecimal (z <? 0) (take end_ D) (ExpInt (Z.of_nat (length D - end_)))) /\
    (1 <= end_ <= length D)%nat /\ drop end_ D = replicate (length D - end_) d0).
  { rewrite (normalize_finite_unfold c (of_int z) 0 eq_refl).
    rewrite (fix_nonzero c (of_int z) 0 NZ eq_refl).
    unfold exp_floor, exp_of, of_int, Etop, Etiny. cbn [_int _exp]. fold D.
    destruct (Z.ltb_spec (Emax c - prec c + 1) (len D + 0 - prec c)); [lia|].
    destruct (Z.ltb_spec 0 (Z.max (len D + 0 - prec c) (Emin c - prec c + 1))); [lia|].
    cbn [bind]. unfold stripped. cbn [_exp _int _sign].
    change (nonzero {| _sign := z <? 0; _int := D; _exp := ExpInt 0 |})
      with (nonzero (of_int z)).
    rewrite NZ. cbn [negb].
    destruct (strip_zeros D (length D) 0 (Emax c)) as [end_ e'] eqn:Hs.
    destruct (strip_zeros_stop _ _ _ _ _ _ Hs) as (He & Hle & Hzr & _).
    exists end_. split; [do 3 f_equal; lia|]. split; [|apply drop_zeros, Hzr].
    split; [|exact Hle].
    destruct end_; [|lia]. exfalso.
    specialize (Hzr 0%nat). rewrite HD in Hzr. simpl in Hzr.
    specialize (Hzr ltac:(lia)). congruence. }
  destruct Hn as (end_ & Hn & Hend & Hdrop).
  rewrite (format_decimal_finite py c (of_int z) 100 100 _ _ Hn eq_refl).
  cbn [_int].
  assert (Ltake : len (take end_ D) = Z.of_nat end_)
    by (unfold len; rewrite length_take; lia).
  unfold len in HL.
  destruct (Z.ltb_spec 100 (Z.of_nat (length D - end_))); [lia|].
  destruct (Z.ltb_spec (Z.of_nat (length D - end_)) (Z.opp 100)); [lia|].
  destruct (Z.ltb_spec 100 (len (take end_ D))); [lia|].
  f_equal. rewrite Hstr.
  destruct (format_f_parts c
              (mkDecimal (z <? 0) (take end_ D) (ExpInt (Z.of_nat (length D - end_))))
              _ eq_refl) as (ip & fp & _ & -> & Hparts).
  cbn [_sign _int] in *.
  assert (Hip : ip = D /\ fp = []).
  { destruct Hparts as [(Z & _) | [(Hneg & _) | [(Hpos & -> & ->) | (Hr & -> & ->)]]].
    - exfalso. rewrite HD in Z. destruct end_; [lia|]. simpl in Z.
      injection Z as -> _. congruence.
    - lia.
    - split; [|reflexivity]. unfold zeros. rewrite Nat2Z.id, <- Hdrop.
      apply take_drop.
    - assert (end_ = length D) as -> by lia.
      rewrite Ltake, Nat.sub_diag. unfold upto, from. cbn [Z.of_nat].
      rewrite Z.add_0_l, Nat2Z.id, firstn_all, take_ge, drop_ge by lia.
      split; [|reflexivity]. rewrite HD. reflexivity. }
  destruct Hip as [-> ->]. rewrite append_empty_r. reflexivity.
Qed.

(** X25.  An integer stored on the object is returned as its plain
    decimal text, whatever its size up to the precision of the context
    (28 digits by default): no exponent, no point, the zeros it ends in
    kept. *)
Theorem value_from_object_of_int
    py c (self : Field) (obj : dict) (z : Z) :
  valid_context c -> prec c <= 100 -> prec c <= Emax c + 1 ->
  Z.abs z < 10 ^ prec c ->
  Field_value_from_object self obj = Ok (Int z) ->
  FormattedDecimalField.value_from_object py c self obj = Ok (Str (str_of_int z)).
Proof.
  intros V H100 HE Hz Hv. unfold FormattedDecimalField.value_from_object.
  rewrite Hv. cbn [bind is_Number str].
  rewrite of_string_str_of_int. cbn [bind].
  rewrite (format_decimal_of_int py c z V H100 HE Hz). reflexivity.
Qed.

Lemma value_from_object_of_int_witness :
  FormattedDecimalField.value_from_object Python3 DefaultContext
    (mkField {[ "attname" := Str "stock" ]} [])
    {[ "stock" := Int (-120000) ]} = Ok (Str "-120000").
Proof.
  apply (value_from_object_of_int Python3 DefaultContext
           (mkField {[ "attname" := Str "stock" ]} [])
           {[ "stock" := Int (-120000) ]} (-120000)).
  - unfold valid_context. simpl. lia.
  - vm_compute. discriminate.
  - vm_compute. discriminate.
  - vm_compute. reflexivity.
  - reflexivity.
Defined.

(** X26.  A boolean stored on the object counts as a number and yet has
    no decimal text: [value_from_object] raises
    [decimal.InvalidOperation], out of [Decimal('True')] or
    [Decimal('False')]. *)
Theorem value_from_object_of_bool py c (self : Field) (obj : dict) (b : bool) :
  Field_value_from_object self obj = Ok (Bool b) ->
  FormattedDecimalField.value_from_object py c self obj = Raise InvalidOperation.
Proof.
  intros Hv. unfold FormattedDecimalField.value_from_object.
  rewrite Hv. destruct b; reflexivity.
Qed.

Lemma value_from_object_of_bool_witness :
  FormattedDecimalField.value_from_object Python3 DefaultContext
    (mkField {[ "attname" := Str "active" ]} [])
    {[ "active" := Bool true ]} = Raise InvalidOperation.
Proof.
  apply (value_from_object_of_bool Python3 DefaultContext
           (mkField {[ "attname" := Str "active" ]} [])
           {[ "active" := Bool true ]} true).
  reflexivity.
Defined.

(** ** A [Decimal] read from an object *)

Lemma digit_to_Z_of_Z (z : Z) : 0 <= z < 10 -> digit_to_Z (digit_of_Z z) = z.
Proof.
  intros H.
  assert (z = 0 \/ z = 1 \/ z = 2 \/ z = 3 \/ z = 4 \/ z = 5 \/ z = 6 \/ z = 7 \/
          z = 8 \/ z = 9) as Hc by lia.
  destruct Hc as [-> | [-> | [-> | [-> | [-> | [-> | [-> | [-> | [-> | ->]]]]]]]]];
    reflexivity.
Qed.

Lemma int_of_digits_of_int_go (fuel : nat) : forall (z : Z) (acc : list digit),
  0 <= z < 10 ^ Z.of_nat fuel ->
  int_of_digits (digits_of_int_go fuel z acc) = z * 10 ^ len acc + int_of_digits acc.
Proof.
  induction fuel as [|fuel IH]; intros z acc Hz.
  - simpl in *. assert (z = 0) as -> by lia. lia.
  - rewrite Nat2Z.inj_succ, Z.pow_succ_r in Hz by lia.
    pose proof (Z.mod_pos_bound z 10 ltac:(lia)) as Hr.
    pose proof (Z_div_mod_eq_full z 10) as E.
    pose proof (len_nonneg acc) as Hl.
    cbn [digits_of_int_go].
    destruct (Z.eqb_spec (z / 10) 0) as [Q | Q].
    + rewrite int_of_digits_cons, digit_to_Z_of_Z by exact Hr.
      rewrite Q in E. replace (z mod 10) with z by lia. reflexivity.
    + rewrite IH.
      * rewrite int_of_digits_cons, digit_to_Z_of_Z, len_cons by exact Hr.
        rewrite Z.pow_add_r by lia. rewrite E at 3. ring.
      * split; [apply Z.div_pos; lia|]. apply Z.div_lt_upper_bound; lia.
Qed.

(** [int(str(z))] is [z]. *)
Lemma int_of_digits_of_int (z : Z) : 0 <= z -> int_of_digits (digits_of_int z) = z.
Proof.
  intros H. destruct (Z.eq_dec z 0) as [-> | N]; [reflexivity|].
  unfold digits_of_int. rewrite int_of_digits_of_int_go.
  - change (len (@nil digit)) with 0. change (int_of_digits []) with 0. lia.
  - split; [exact H | apply log2_fuel; lia].
Qed.

(** The letter the exponent starts with is no digit and no point. *)
Lemma lower_e (ch : ascii) :
  lower ch = "e"%char -> digit_of_char ch = None /\ ch <> "."%char.
Proof.
  destruct ch as [[] [] [] [] [] [] [] []]; vm_compute; intros H;
    try discriminate; (split; [reflexivity | discriminate]).
Qed.

Lemma parse_exp_head (suffix : string) (x : Z) :
  parse_exp suffix = Some x ->
  match suffix with
  | String ch _ => digit_of_char ch = None /\ ch <> "."%char
  | EmptyString => True
  end.
Proof.
  destruct suffix as [|ch r]; [trivial|]. cbn [parse_exp].
  destruct (bool_decide (lower ch = "e"%char)) eqn:B; [|discriminate].
  intros _. apply bool_decide_eq_true in B. apply lower_e. exact B.
Qed.

Lemma parse_exp_digits (ch : ascii) (neg : bool) (ds : list digit) :
  lower ch = "e"%char -> ds <> [] ->
  parse_exp (String ch ((if neg then "-" else "+") +:+ string_of_digits ds)) =
  Some (if neg then - int_of_digits ds else int_of_digits ds).
Proof.
  intros L N. cbn [parse_exp]. rewrite bool_decide_eq_true_2 by exact L.
  replace (split_sign ((if neg then "-" else "+") +:+ string_of_digits ds))
    with (neg, string_of_digits ds) by (destruct neg; reflexivity).
  rewrite span_digits_all. destruct ds; [congruence | reflexivity].
Qed.

(** The exponent [Decimal.__str__] writes is read back. *)
Lemma parse_exp_signed (capitals : bool) (x : Z) :
  parse_exp ((if capitals then "E" else "e") +:+ signed_of_int x) = Some x.
Proof.
  assert (Hd : forall z, 0 <= z -> digits_of_int z <> [])
    by (intros z; apply digits_of_int_nonempty).
  assert (E : exists ch, lower ch = "e"%char /\
            (if capitals then "E" else "e") +:+ signed_of_int x =
            String ch (signed_of_int x))
    by (destruct capitals; [exists "E"%char | exists "e"%char]; split; reflexivity).
  destruct E as (ch & L & ->).
  unfold signed_of_int, str_of_int. destruct (Z.ltb_spec x 0).
  - rewrite (parse_exp_digits ch true _ L) by (apply Hd; lia).
    rewrite int_of_digits_of_int by lia. f_equal. lia.
  - rewrite (parse_exp_digits ch false _ L) by (apply Hd; lia).
    rewrite int_of_digits_of_int by lia. reflexivity.
Qed.

(** [Decimal(s)] for a numeric string: a sign, digits, more digits behind
    a point, and an exponent. *)
Lemma of_string_number (s : bool) (ip fp : list digit) (suffix : string) (x : Z) :
  ip <> [] -> parse_exp suffix = Some x ->
  of_string ((if s then "-" else "") +:+ string_of_digits ip +:+
             match fp with [] => "" | _ => "." +:+ string_of_digits fp end +:+ suffix)
  = Ok (mkDecimal s (canonical (ip ++ fp)) (ExpInt (x - len fp))).
Proof.
  intros N P. pose proof (parse_exp_head suffix x P) as Hh.
  destruct ip as [|d ip]; [congruence|].
  set (frac := match fp with [] => "" | _ => "." +:+ string_of_digits fp end +:+ suffix).
  set (body := string_of_digits (d :: ip) +:+ frac).
  assert (Hsign : split_sign ((if s then "-" else "") +:+ body) = (s, body)).
  { destruct s; [reflexivity|]. rewrite append_nil. subst body.
    cbn [string_of_digits]. rewrite append_cons. apply split_sign_digit. }
  assert (Hspan : span_digits body = (d :: ip, frac)).
  { subst body. apply span_digits_app. subst frac. destruct fp; [|reflexivity].
    rewrite append_nil. destruct suffix; [exact I | apply Hh]. }
  unfold of_string. rewrite Hsign, Hspan.
  subst frac. destruct fp as [|y fp].
  - rewrite append_nil.
    assert (strip_prefix "." suffix = None) as ->.
    { destruct suffix as [|ch r]; [reflexivity|]. cbn [strip_prefix].
      rewrite bool_decide_eq_false_2; [reflexivity|]. intros <-. apply Hh. reflexivity. }
    rewrite bool_decide_eq_false_2 by discriminate. cbn [negb].
    rewrite P. change (len (@nil digit)) with 0. rewrite Z.sub_0_r, ?app_nil_r.
    reflexivity.
  - change (("." +:+ string_of_digits (y :: fp)) +:+ suffix)
      with (String "."%char (string_of_digits (y :: fp) +:+ suffix)).
    cbn [strip_prefix]. rewrite bool_decide_eq_true_2 by reflexivity.
    rewrite span_digits_app by (destruct suffix; [exact I | apply Hh]).
    rewrite bool_decide_eq_false_2 by discriminate. cbn [negb orb].
    rewrite P. reflexivity.
Qed.

Lemma canonical_leading_zeros (k : nat) (ds : list digit) :
  no_leading_zero ds -> canonical (replicate k d0 ++ ds) = ds.
Proof.
  intros W. induction k as [|k IH]; [apply canonical_id, W|]. exact IH.
Qed.

Lemma point_nonempty (fp : list digit) :
  fp <> [] ->
  match fp with [] => "" | _ => "." +:+ string_of_digits fp end =
  "." +:+ string_of_digits fp.
Proof. destruct fp; [congruence | reflexivity]. Qed.

(** The text [Decimal.__str__] writes for a finite number: a sign, the
    digits before and behind the point and the exponent, which between
    them hold the coefficient and the exponent of the number. *)
Lemma str_parts c (s : bool) (ds : list digit) (e : Z) :
  no_leading_zero ds ->
  exists ip fp suffix x,
    ip <> [] /\
    __str__ c (mkDecimal s ds (ExpInt e)) =
      (if s then "-" else "") +:+ string_of_digits ip +:+
      match fp with [] => "" | _ => "." +:+ string_of_digits fp end +:+ suffix /\
    parse_exp suffix = Some x /\
    canonical (ip ++ fp) = ds /\ x - len fp = e.
Proof.
  intros W.
  assert (N : ds <> []) by (destruct W as [[y Hy] _]; intros ->; discriminate).
  assert (Hl : 1 <= len ds).
  { destruct ds as [|y t]; [congruence|]. rewrite len_cons.
    pose proof (len_nonneg t). lia. }
  assert (Hfrom : forall n, 0 <= n < len ds -> from ds n <> []).
  { intros n Hn F. apply (f_equal length) in F. unfold from in F.
    rewrite length_drop in F. simpl in F. unfold len in Hn. lia. }
  assert (Hupto : forall n, 0 < n -> upto ds n <> []).
  { intros n Hn F. apply (f_equal length) in F. unfold upto in F.
    rewrite length_take in F. simpl in F. unfold len in Hl. lia. }
  assert (Hlen : forall n, 0 <= n <= len ds -> len (from ds n) = len ds - n).
  { intros n Hn. unfold from, len in *. rewrite length_drop. lia. }
  unfold __str__. cbn [_sign _int _exp].
  destruct (_ && _) eqn:A.
  - apply andb_true_iff in A as [A1 A2]. apply Z.leb_le in A1. apply Z.ltb_lt in A2.
    rewrite Z.eqb_refl.
    destruct (Z.leb_spec (e + len ds) 0) as [L | L].
    + exists [d0], (zeros (- (e + len ds)) ++ ds), "", 0.
      assert (Nf : zeros (- (e + len ds)) ++ ds <> [])
        by (intros F; apply app_eq_nil in F as [_ F]; congruence).
      split; [discriminate|]. split; [rewrite (point_nonempty _ Nf); reflexivity|].
      split; [reflexivity|]. split.
      * apply (canonical_leading_zeros (S (Z.to_nat (- (e + len ds)))) ds W).
      * rewrite len_app. unfold zeros. rewrite len_replicate. lia.
    + destruct (Z.leb_spec (len ds) (e + len ds)) as [L' | L'].
      * assert (e = 0) as -> by lia.
        replace (0 + len ds - len ds) with 0 by lia.
        change (zeros 0) with (@nil digit). rewrite app_nil_r.
        exists ds, [], "", 0. rewrite app_nil_r.
        split; [exact N|]. split; [reflexivity|]. split; [reflexivity|].
        split; [apply canonical_id, W | reflexivity].
      * exists (upto ds (e + len ds)), (from ds (e + len ds)), "", 0.
        split; [apply Hupto; lia|].
        split; [rewrite (point_nonempty _ (Hfrom (e + len ds) ltac:(lia))); reflexivity|].
        split; [reflexivity|]. split.
        -- unfold upto, from. rewrite take_drop. apply canonical_id, W.
        -- rewrite Hlen by lia. lia.
  - clear A. destruct (Z.leb_spec 1 0) as [F | _]; [lia|].
    assert (P : parse_exp (if e + len ds =? 1 then ""
                           else (if capitals c then "E" else "e") +:+
                                signed_of_int (e + len ds - 1))
                = Some (e + len ds - 1)).
    { destruct (Z.eqb_spec (e + len ds) 1) as [E1 | E1];
        [rewrite E1; reflexivity | apply parse_exp_signed]. }
    destruct (Z.leb_spec (len ds) 1) as [L | L].
    + replace (1 - len ds) with 0 by lia.
      change (zeros 0) with (@nil digit). rewrite app_nil_r.
      eexists ds, [], _, (e + len ds - 1). rewrite app_nil_r.
      split; [exact N|]. split; [reflexivity|]. split; [exact P|].
      split; [apply canonical_id, W|]. change (len (@nil digit)) with 0. lia.
    + eexists (upto ds 1), (from ds 1), _, (e + len ds - 1).
      split; [apply Hupto; lia|].
      split; [rewrite (point_nonempty _ (Hfrom 1 ltac:(lia))); reflexivity|].
      split; [exact P|]. split.
      * unfold upto, from. rewrite take_drop. apply canonical_id, W.
      * rewrite Hlen by lia. lia.
Qed.

(** [Decimal(str(d))] is [d] for a finite [d]: sign, digits and exponent
    are read back as they were, from plain and from scientific
    notation. *)
Lemma of_string_str c (d : Decimal) :
  finite d -> well_formed d -> of_string (__str__ c d) = Ok d.
Proof.
  destruct d as [s ds x]. unfold finite, well_formed, _is_special. cbn [_int _exp].
  destruct x as [e| | |]; try discriminate. intros _ W.
  destruct (str_parts c s ds e W) as (ip & fp & suffix & x & Nip & Hs & P & C & X).
  rewrite Hs, (of_string_number s ip fp suffix x Nip P), C, X. reflexivity.
Qed.

(** X27.  A finite [Decimal] stored on the object is formatted as
    [format_decimal] formats that very number: the detour through its
    text, [Decimal(str(value))], loses nothing, whether [str] writes the
    value plainly or with an exponent. *)
Theorem value_from_object_of_decimal
    py c (self : Field) (obj : dict) (d : Decimal) :
  finite d -> well_formed d ->
  Field_value_from_object self obj = Ok (Dec d) ->
  FormattedDecimalField.value_from_object py c self obj =
  (s <- FormattedDecimalField.format_decimal py c d 100 100 ;; Ok (Str s)).
Proof.
  intros F W Hv. unfold FormattedDecimalField.value_from_object.
  rewrite Hv. cbn [bind is_Number str].
  rewrite (of_string_str c d F W). reflexivity.
Qed.

Lemma value_from_object_of_decimal_witness :
  FormattedDecimalField.value_from_object Python3 DefaultContext
    (mkField {[ "attname" := Str "price" ]} [])
    {[ "price" := Dec (mkDecimal false [d1; d5] (ExpInt 3)) ]} = Ok (Str "15000").
Proof.
  rewrite (value_from_object_of_decimal Python3 DefaultContext
             (mkField {[ "attname" := Str "price" ]} [])
             {[ "price" := Dec (mkDecimal false [d1; d5] (ExpInt 3)) ]}
             (mkDecimal false [d1; d5] (ExpInt 3))).
  - reflexivity.
  - reflexivity.
  - split; [simpl; eauto | discriminate].
  - reflexivity.
Defined.

(** ** A NaN or an infinity read from an object *)

Lemma lower_string_digits (ds : list digit) :
  lower_string (string_of_digits ds) = string_of_digits ds.
Proof.
  induction ds as [|d ds IH]; [reflexivity|].
  cbn [string_of_digits lower_string]. rewrite IH. destruct d; reflexivity.
Qed.

(** [Decimal(s)] for the text of an infinity. *)
Lemma of_string_infinity (s : bool) :
  of_string ((if s then "-" else "") +:+ "Infinity") = Ok (mkDecimal s [d0] ExpF).
Proof. destruct s; reflexivity. Qed.

(** [Decimal(s)] for the text of a NaN: the payload is read back without
    its leading zeros. *)
Lemma of_string_nan (s signal : bool) (ds : list digit) :
  of_string ((if s then "-" else "") +:+ (if signal then "sNaN" else "NaN") +:+
             string_of_digits ds)
  = Ok (mkDecimal s (lstrip0 ds) (if signal then ExpN else Expn)).
Proof.
  set (body := (if signal then "sNaN" else "NaN") +:+ string_of_digits ds).
  assert (Hsign : split_sign ((if s then "-" else "") +:+ body) = (s, body))
    by (destruct s, signal; reflexivity).
  assert (Hspan : span_digits body = ([], body)) by (destruct signal; reflexivity).
  assert (Hpoint : strip_prefix "." body = None) by (destruct signal; reflexivity).
  assert (Hlow : lower_string body = (if signal then "snan" else "nan") +:+ string_of_digits ds).
  { subst body. rewrite <- (lower_string_digits ds) at 2. destruct signal; reflexivity. }
  unfold of_string. rewrite Hsign, Hspan, Hpoint.
  rewrite bool_decide_eq_true_2 by reflexivity. cbn [negb]. rewrite Hlow.
  rewrite (bool_decide_eq_false_2 (_ = "inf")) by (destruct signal; discriminate).
  rewrite (bool_decide_eq_false_2 (_ = "infinity")) by (destruct signal; discriminate).
  cbn [orb].
  destruct signal.
  - change (strip_prefix "s" ("snan" +:+ string_of_digits ds))
      with (Some ("nan" +:+ string_of_digits ds)).
    cbv beta iota zeta.
    change (strip_prefix "nan" ("nan" +:+ string_of_digits ds))
      with (Some (string_of_digits ds)).
    cbv beta iota zeta. rewrite span_digits_all. reflexivity.
  - change (strip_prefix "s" ("nan" +:+ string_of_digits ds)) with (@None string).
    cbv beta iota zeta.
    change (strip_prefix "nan" ("nan" +:+ string_of_digits ds))
      with (Some (string_of_digits ds)).
    cbv beta iota zeta. rewrite span_digits_all. reflexivity.
Qed.

(** X28.  A NaN or an infinity stored on the object never comes back as
    a string: its text is read back as a NaN or an infinity of the same
    kind, on which [format_decimal] raises -- [InvalidOperation] for a
    signaling NaN, and for a quiet NaN or an infinity [TypeError] under
    Python 3 and a [ValueError] under Python 2. *)
Theorem value_from_object_of_special
    py c (self : Field) (obj : dict) (d : Decimal) :
  _is_special d = true ->
  Field_value_from_object self obj = Ok (Dec d) ->
  match _exp d, py with
  | ExpN, _ =>
      FormattedDecimalField.value_from_object py c self obj = Raise InvalidOperation
  | _, Python3 =>
      FormattedDecimalField.value_from_object py c self obj = Raise TypeError
  | _, Python2 =>
      exists msg,
        FormattedDecimalField.value_from_object py c self obj = Raise (ValueError msg)
  end.
Proof.
  intros Hs Hv. destruct d as [s ds x]. unfold _is_special in Hs. cbn [_exp] in *.
  unfold FormattedDecimalField.value_from_object. rewrite Hv.
  cbn [bind is_Number str]. unfold __str__. cbn [_exp _sign _int].
  destruct x as [e| | |]; [discriminate| | |].
  - rewrite of_string_infinity. cbn [bind]. destruct py; [eexists|]; reflexivity.
  - rewrite (of_string_nan s false ds). cbn [bind].
    unfold FormattedDecimalField.format_decimal, normalize, as_tuple, _fix, _fix_nan.
    cbn [_exp _int _sign].
    destruct (prec c <? len (lstrip0 ds)); destruct py; cbn [bind];
      first [reflexivity | eexists; reflexivity].
  - rewrite (of_string_nan s true ds). reflexivity.
Qed.

Lemma value_from_object_of_special_witness :
  FormattedDecimalField.value_from_object Python3 DefaultContext
    (mkField {[ "attname" := Str "price" ]} [])
    {[ "price" := Dec (mkDecimal true [d0] ExpF) ]} = Raise TypeError.
Proof.
  apply (value_from_object_of_special Python3 DefaultContext
           (mkField {[ "attname" := Str "price" ]} [])
           {[ "price" := Dec (mkDecimal true [d0] ExpF) ]}
           (mkDecimal true [d0] ExpF)).
  - reflexivity.
  - reflexivity.
Defined.

(** ** A complex number read from an object *)

Section foreign_character.

(** A character that the grammar of numeric strings has no use for. *)
Variable a : ascii.
Hypothesis not_digit : digit_of_char a = None.
Hypothesis not_minus : a <> "-"%char.
Hypothesis not_plus : a <> "+"%char.

Lemma span_digits_keeps (s : string) :
  a ∈ chars s -> a ∈ chars (span_digits s).2.
Proof using not_digit not_minus not_plus.
  induction s as [|ch s IH]; [trivial|]. intros H. cbn [span_digits].
  destruct (digit_of_char ch) eqn:D; [|exact H].
  destruct (span_digits s) as [ds rest]. cbn [snd] in *. apply IH.
  cbn [chars] in H. apply elem_of_cons in H as [-> | H]; [congruence | exact H].
Qed.

Lemma split_sign_keeps (s : string) :
  a ∈ chars s -> a ∈ chars (split_sign s).2.
Proof using not_digit not_minus not_plus.
  destruct s as [|ch s]; [trivial|]. intros H. cbn [split_sign].
  cbn [chars] in H.
  repeat case_bool_decide; subst; cbn [snd chars];
    try (apply elem_of_cons in H as [-> | H]; [congruence | exact H]).
  apply elem_of_cons. apply elem_of_cons in H. exact H.
Qed.

Lemma strip_prefix_keeps (p : string) : forall s t : string,
  a ∉ chars p -> strip_prefix p s = Some t -> a ∈ chars s -> a ∈ chars t.
Proof using not_digit not_minus not_plus.
  induction p as [|x p IH]; intros s t Hp E H.
  - injection E as <-. exact H.
  - destruct s as [|b s]; [discriminate|]. cbn [strip_prefix] in E.
    case_bool_decide; [subst b | discriminate].
    cbn [chars] in *. apply (IH s t); [| exact E |].
    + intros F. apply Hp. apply elem_of_cons. right. exact F.
    + apply elem_of_cons in H as [-> | H]; [|exact H].
      exfalso. apply Hp. apply elem_of_cons. left. reflexivity.
Qed.

Lemma lower_string_keeps (s : string) :
  lower a = a -> a ∈ chars s -> a ∈ chars (lower_string s).
Proof.
  intros L. induction s as [|ch s IH]; [trivial|]. cbn [lower_string chars].
  intros H. apply elem_of_cons in H as [<- | H]; apply elem_of_cons.
  - left. symmetry. exact L.
  - right. apply IH, H.
Qed.

Lemma parse_exp_rejects (s : string) :
  lower a <> "e"%char -> a ∈ chars s -> parse_exp s = None.
Proof using not_digit not_minus not_plus.
  intros L H. destruct s as [|ch s]; [apply elem_of_nil in H; contradiction|].
  cbn [parse_exp]. case_bool_decide as B; [|reflexivity].
  cbn [chars] in H. apply elem_of_cons in H as [-> | H]; [congruence|].
  apply split_sign_keeps in H. destruct (split_sign s) as [neg s']. cbn [snd] in H.
  apply span_digits_keeps in H. destruct (span_digits s') as [ds rest]. cbn [snd] in H.
  destruct rest; [apply elem_of_nil in H; contradiction|].
  destruct ds; reflexivity.
Qed.

End foreign_character.

(** [Decimal(s)] raises [InvalidOperation] on every text that holds the
    letter j. *)
Lemma of_string_rejects_j (s : string) :
  "j"%char ∈ chars s -> of_string s = Raise InvalidOperation.
Proof.
  intros H. unfold of_string.
  assert (Jm : "j"%char <> "-"%char) by discriminate.
  assert (Jp : "j"%char <> "+"%char) by discriminate.
  pose proof (span_digits_keeps "j" eq_refl Jm Jp) as Kspan.
  pose proof (strip_prefix_keeps "j" eq_refl Jm Jp) as Kstrip.
  apply (split_sign_keeps "j" eq_refl Jm Jp) in H.
  destruct (split_sign s) as [sign s0]. cbn [snd] in H.
  pose proof (Kspan s0 H) as H1.
  destruct (span_digits s0) as [ip s1]. cbn [snd] in H1.
  destruct (match strip_prefix "." s1 with
            | Some t =>
                let '(fr, rest) := span_digits t in
                (fr, rest, negb (bool_decide (ip = [])) || negb (bool_decide (fr = [])))
            | None => ([], s1, negb (bool_decide (ip = [])))
            end) as [[fracpart s2] has_digit] eqn:E.
  assert (H2 : "j"%char ∈ chars s2).
  { destruct (strip_prefix "." s1) as [t|] eqn:P.
    - assert (Ht : "j"%char ∈ chars t).
      { apply (Kstrip "." s1 t); [|exact P | exact H1].
        intros F. apply elem_of_cons in F as [F | F]; [discriminate|].
        apply elem_of_nil in F. exact F. }
      apply Kspan in Ht.
      destruct (span_digits t) as [fr rest]. injection E as _ <- _. exact Ht.
    - injection E as _ <- _. exact H1. }
  destruct has_digit.
  - rewrite (parse_exp_rejects "j" eq_refl Jm Jp s2 ltac:(discriminate) H2).
    reflexivity.
  - pose proof (lower_string_keeps "j" s0 eq_refl H) as Hw.
    set (w := lower_string s0) in *.
    assert (Hinf : bool_decide (w = "inf") || bool_decide (w = "infinity") = false).
    { apply orb_false_iff. split; apply bool_decide_eq_false_2; intros F;
        rewrite F in Hw; vm_compute in Hw;
        repeat (apply elem_of_cons in Hw as [Hw | Hw]; [discriminate|]);
        apply elem_of_nil in Hw; exact Hw. }
    rewrite Hinf.
    assert (Hw' : "j"%char ∈ chars (match strip_prefix "s" w with
                                    | Some t => (true, t)
                                    | None => (false, w)
                                    end).2).
    { destruct (strip_prefix "s" w) as [t|] eqn:P; [|exact Hw]. cbn [snd].
      apply (Kstrip "s" w t); [|exact P | exact Hw].
      intros F. apply elem_of_cons in F as [F | F]; [discriminate|].
      apply elem_of_nil in F. exact F. }
    destruct (match strip_prefix "s" w with
              | Some t => (true, t)
              | None => (false, w)
              end) as [signal w']. cbn [snd] in Hw'.
    destruct (strip_prefix "nan" w') as [t|] eqn:P; [|reflexivity].
    assert (Ht : "j"%char ∈ chars t).
    { apply (Kstrip "nan" w' t); [|exact P | exact Hw'].
      intros F. vm_compute in F.
      repeat (apply elem_of_cons in F as [F | F]; [discriminate|]).
      apply elem_of_nil in F. exact F. }
    apply Kspan in Ht.
    destruct (span_digits t) as [diag rest]. cbn [snd] in Ht.
    destruct rest; [apply elem_of_nil in Ht; contradiction | reflexivity].
Qed.

(** X29.  A complex number stored on the object is a number for
    [numbers.Number] and no number for [Decimal]: its text holds the
    letter j, and [value_from_object] raises
    [decimal.InvalidOperation]. *)
Theorem value_from_object_of_complex
    py c (self : Field) (obj : dict) (r : string) :
  "j"%char ∈ chars r ->
  Field_value_from_object self obj = Ok (Complex r) ->
  FormattedDecimalField.value_from_object py c self obj = Raise InvalidOperation.
Proof.
  intros Hj Hv. unfold FormattedDecimalField.value_from_object.
  rewrite Hv. cbn [bind is_Number str].
  rewrite (of_string_rejects_j r Hj). reflexivity.
Qed.

Lemma value_from_object_of_complex_witness :
  FormattedDecimalField.value_from_object Python3 DefaultContext
    (mkField {[ "attname" := Str "price" ]} [])
    {[ "price" := Complex "(1+2j)" ]} = Raise InvalidOperation.
Proof.
  apply (value_from_object_of_complex Python3 DefaultContext
           (mkField {[ "attname" := Str "price" ]} [])
           {[ "price" := Complex "(1+2j)" ]} "(1+2j)").
  - vm_compute. repeat (first [apply list_elem_of_here | apply list_elem_of_further]).
  - reflexivity.
Defined.
